(** * model_evaluator.py: the evaluation harness of modelvshuman

    A shallow embedding of [ModelEvaluator] and [MetricExtractor]
    (src/vision/model-vs-human/modelvshuman/model_evaluator.py) and the
    properties its specification states about them.

    The harness is orchestration code: it calls the model registry, the
    dataset registry, the deep-learning framework and the operating
    system.  Those collaborators are kept abstract (tensor operations are
    section variables, models are records of methods); what is modelled
    in full is the control flow of the file: which calls are made, in
    which order, on which objects, and which exceptions leave a function.
    Logging, [print] and the wall-clock measurements have no influence on
    the control flow and are left out.

    Scope of the model.  The collaborators are total: an exception raised
    inside a registry, a forward pass or a metric is not modelled (the
    file does not catch any, it would end the run).  The exceptions the
    file itself raises or meets are: [NameError] and [ValueError] of the
    selection of an evaluator, [KeyError] of [kwargs["print_predictions"]]
    and the errors of [os.listdir] and [os.remove].  Strings are ASCII. *)

From Stdlib Require Import String Ascii.
From stdpp Require Import base option list strings gmap.

Local Open Scope string_scope.

(** ** Python strings *)

Module PyStr.

(** [str.lower] on the ASCII range: only 'A'..'Z' are changed. *)
Definition lower_ascii (c : ascii) : ascii :=
  let n := nat_of_ascii c in
  if (65 <=? n)%nat && (n <=? 90)%nat then ascii_of_nat (n + 32) else c.

Fixpoint map_chars (f : ascii -> ascii) (s : string) : string :=
  match s with
  | EmptyString => EmptyString
  | String c s' => String (f c) (map_chars f s')
  end.

Definition lower (s : string) : string := map_chars lower_ascii s.

(** [s.replace(a, b)] for one-character [a] and [b]. *)
Definition replace_char (a b : ascii) (s : string) : string :=
  map_chars (fun c => if Ascii.eqb c a then b else c) s.

(** [s.startswith(p)] *)
Definition startswith (s p : string) : bool := String.prefix p s.

(** [s.endswith("/")] *)
Fixpoint ends_with_slash (s : string) : bool :=
  match s with
  | EmptyString => false
  | String c EmptyString => Ascii.eqb c "/"
  | String _ s' => ends_with_slash s'
  end.

(** [posixpath.join(a, b)] for two components. *)
Definition os_path_join (a b : string) : string :=
  if startswith b "/" then b
  else if String.eqb a "" || ends_with_slash a then a ++ b
  else a ++ "/" ++ b.

(** [strip_prefix p s] is [Some r] when [s = p ++ r]. *)
Fixpoint strip_prefix (p s : string) : option string :=
  match p, s with
  | EmptyString, _ => Some s
  | String a p', String b s' =>
      if Ascii.eqb a b then strip_prefix p' s' else None
  | String _ _, EmptyString => None
  end.

(** A directory entry name: not empty, no path separator. *)
Fixpoint has_slash (s : string) : bool :=
  match s with
  | EmptyString => false
  | String c s' => Ascii.eqb c "/" || has_slash s'
  end.

Definition is_basename (s : string) : bool :=
  negb (String.eqb s "") && negb (has_slash s).

End PyStr.

Local Open Scope list_scope.

(** ** Python values, exceptions and results *)

(** The values an option of the run may hold. *)
Inductive pyval :=
| PyNone
| PyBool (b : bool)
| PyInt (n : Z)
| PyStr (s : string).

(** Truth value testing, as [if v:] does it. *)
Definition truthy (v : pyval) : bool :=
  match v with
  | PyNone => false
  | PyBool b => b
  | PyInt n => negb (n =? 0)%Z
  | PyStr s => negb (String.eqb s "")
  end.

Inductive exn :=
| NameError (msg : string)
| ValueError (msg : string)
| KeyError (key : string)
| IndexError
| OSError (what : string)
| DanglingReference.

Inductive result (A : Type) :=
| Ok (a : A)
| Raise (e : exn).
Arguments Ok {A} a.
Arguments Raise {A} e.

Definition is_ok {A} (r : result A) : bool :=
  match r with Ok _ => true | Raise _ => false end.

(** ** State and exceptions

    A computation transforms the state and either returns or raises.
    The state reached when an exception is raised is kept: Python does
    not roll side effects back. *)

Definition M (S A : Type) : Type := S -> S * result A.

Definition ret {S A} (a : A) : M S A := fun s => (s, Ok a).

Definition bind {S A B} (c : M S A) (k : A -> M S B) : M S B :=
  fun s =>
    match c s with
    | (s', Ok a) => k a s'
    | (s', Raise e) => (s', Raise e)
    end.

Definition raise {S A} (e : exn) : M S A := fun s => (s, Raise e).

Definition modify {S} (f : S -> S) : M S unit := fun s => (f s, Ok tt).

(** [try: c / except: pass] *)
Definition try_except_pass {S} (c : M S unit) : M S unit :=
  fun s => (fst (c s), Ok tt).

Declare Scope py_scope.
Delimit Scope py_scope with py.
Notation "x <- c ;; k" := (bind c (fun x => k))
  (at level 100, c at next level, right associativity) : py_scope.
Notation "c ;; k" := (bind c (fun _ => k))
  (at level 100, right associativity) : py_scope.
Local Open Scope py_scope.

(** [for x in l: body x] *)
Fixpoint for_each {S A} (l : list A) (body : A -> M S unit) : M S unit :=
  match l with
  | [] => ret tt
  | x :: l' => body x ;; for_each l' body
  end.

(** [if b: c] *)
Definition when {S} (b : bool) (c : M S unit) : M S unit :=
  if b then c else ret tt.

(** [kwargs[key]] *)
Definition getitem {S} (kwargs : gmap string pyval) (key : string) : M S pyval :=
  match kwargs !! key with
  | Some v => ret v
  | None => raise (KeyError key)
  end.

(** [l[i]] *)
Definition index {S A} (l : list A) (i : nat) : M S A :=
  match l !! i with
  | Some x => ret x
  | None => raise IndexError
  end.

(** [enumerate(l)] *)
Definition enumerate {A} (l : list A) : list (nat * A) :=
  imap (fun i x => (i, x)) l.

(** A call that returns or raises without touching the state. *)
Definition lift {S A} (r : result A) : M S A := fun s => (s, r).

(** ** The objects of the harness *)

(** [Tensor]: tensors of the framework (images, features, torch
    targets); [Array]: numpy arrays and plain Python data (logits,
    probabilities, decisions, categories, labels); [Paths]: the file
    paths of one batch. *)
Class Data := {
  Tensor : Type;
  Array : Type;
  Paths : Type;
}.

Section Objects.

Context `{Data}.

(** A loaded model: the methods the harness calls on it. *)
Record Model := {
  forward_batch : Tensor -> Array;
  softmax : Array -> Array;
  to_numpy : Tensor -> Array;
  (* [model.model.forward_intermediates(images, norm=True,
     return_prefix_tokens=True)]: the final features and, per layer,
     the pair (spatial, prefix) *)
  forward_intermediates : Tensor -> Tensor * list (Tensor * Tensor);
  forward_head : Tensor -> Tensor;
}.

(** The target of a batch is a torch tensor or already plain data
    ([isinstance(target, torch.Tensor)]). *)
Inductive Target :=
| TorchTarget (t : Tensor)
| PlainTarget (a : Array).

Definition Batch : Type := Tensor * Target * Paths.

(** Modelled from the spec: [ToTensorflow] of [.datasets] is not part of
    the file; the specification describes it as an adapter that wraps a
    batch loader to emit the batches in the convention of the other
    framework.  [dataset.loader] is a data loader, possibly wrapped. *)
Inductive Loader :=
| DataLoader (batches : list Batch)
| ToTensorflow (loader : Loader).

(** Modelled from the spec: the decision mappings are not part of the
    file; the specification describes them as functions from
    probabilities to decisions that optionally return the raw
    probabilities and the categories.  [dataset.decision_mapping] is a
    callable object: called on probabilities it returns decisions or,
    when configured with [return_raw_probs=True], the pair
    (probabilities, categories). *)
Record DecisionMapping := { return_raw_probs : bool }.

Inductive Predictions :=
| Decisions (d : Array)
| RawProbs (probabilities categories : Array).

(** [dm.__init__(return_raw_probs=raw)] *)
Definition decision_mapping_init (raw : bool) (dm : DecisionMapping) : DecisionMapping :=
  {| return_raw_probs := raw |}.

(** The arguments of one [metric.update(...)] call: three positional
    arguments in evaluation, five in extraction. *)
Inductive update_call :=
| Update3 (predictions : Predictions) (targets : Target) (paths : Paths)
| Update5 (predictions categories targets : Array) (paths : Paths) (layer : nat).

Inductive metric_class :=
| ReciprocalRank
| Probability
| Entropy
| OtherMetric (name : string).

(** Modelled from the spec: the metric accumulators of
    [.evaluation.metrics] are not part of the file.  The specification
    gives them a name, a running state, [reset] before a run and
    [update] per batch.  An accumulator is represented by its class and
    the update calls it received since it was created or last reset;
    its zero state is the empty list.  A dataset owns its accumulators
    (the specification: one instance per metric per dataset). *)
Record Metric := {
  m_class : metric_class;
  m_updates : list update_call;
}.

Definition new_metric (c : metric_class) : Metric :=
  {| m_class := c; m_updates := [] |}.

Definition metric_reset (m : Metric) : Metric :=
  {| m_class := m_class m; m_updates := [] |}.

Definition metric_update (u : update_call) (m : Metric) : Metric :=
  {| m_class := m_class m; m_updates := m_updates m ++ [u] |}.

Record Dataset := {
  name : string;
  loader : Loader;
  decision_mapping : DecisionMapping;
  metrics : list Metric;
}.

Definition set_loader (l : Loader) (d : Dataset) : Dataset :=
  {| name := name d; loader := l;
     decision_mapping := decision_mapping d; metrics := metrics d |}.

Definition set_decision_mapping (dm : DecisionMapping) (d : Dataset) : Dataset :=
  {| name := name d; loader := loader d;
     decision_mapping := dm; metrics := metrics d |}.

Definition set_metrics (ms : list Metric) (d : Dataset) : Dataset :=
  {| name := name d; loader := loader d;
     decision_mapping := decision_mapping d; metrics := ms |}.

(** ** The world *)

(** The state of the directory [/root/.cache/torch/checkpoints/]: it
    does not exist, it cannot be listed, or it holds entries; an entry
    maps to [true] when [os.remove] succeeds on it and to [false] when
    it raises (a sub-directory, a protected file, a file another
    process removed after the listing). *)
Inductive dir_state :=
| NoDir
| Denied
| Dir (entries : gmap string bool).

(** What a run does, in the order it does it: the calls to the
    registries, the creation of a result printer, every batch a loader
    yields to an evaluator, the rows written to the CSV outputs, and
    every eviction attempt (call of [_remove_model_from_cache]). *)
Inductive event :=
| LoadDataset (dataset_name : string)
| LoadModel (model_name : string)
| ResultPrinter (model_name dataset_name : string)
| BatchYielded (model_name dataset_name : string)
| PrintBatchToCsv (model_name dataset_name : string)
    (object_response : Predictions) (batch_targets : Target) (paths : Paths)
| PrintPerformanceToCsv (model_name dataset_name : string) (metric : Metric)
| PrintMetricsToCsv (model_name dataset_name : string) (metric : Metric)
| RemoveModelFromCache (framework model_name : string).

(** Datasets are objects: the heap holds them and the lists of the
    orchestrator hold their addresses. *)
Definition addr := nat.

Record world := {
  heap : list Dataset;
  cache : dir_state;
  trace : list event;
}.

Definition set_heap (h : list Dataset) (w : world) : world :=
  {| heap := h; cache := cache w; trace := trace w |}.

Definition set_cache (c : dir_state) (w : world) : world :=
  {| heap := heap w; cache := c; trace := trace w |}.

Definition emit (e : event) : M world unit :=
  modify (fun w => {| heap := heap w; cache := cache w; trace := trace w ++ [e] |}).

(** A new object. *)
Definition alloc (d : Dataset) : M world addr :=
  fun w => (set_heap (heap w ++ [d]) w, Ok (length (heap w))).

(** Reading the object behind a reference. *)
Definition deref (a : addr) : M world Dataset :=
  fun w =>
    match heap w !! a with
    | Some d => (w, Ok d)
    | None => (w, Raise DanglingReference)
    end.

(** Mutating it in place. *)
Definition mutate (a : addr) (f : Dataset -> Dataset) : M world unit :=
  modify (fun w => set_heap (alter f a (heap w)) w).

(** [for metric in dataset.metrics: f(metric)], where [f] changes the
    state of the metric. *)
Definition for_metrics (dataset : addr) (f : Metric -> Metric) : M world unit :=
  d <- deref dataset ;;
  mutate dataset (set_metrics (map f (metrics d))).

(** [copy.deepcopy] of a list of datasets: every object is copied
    once; [memo] maps the objects already copied to their copies. *)
Fixpoint deepcopy (memo : list (addr * addr)) (l : list addr) : M world (list addr) :=
  match l with
  | [] => ret []
  | a :: l' =>
      match list_find (fun p => fst p = a) memo with
      | Some (_, (_, a')) =>
          rest <- deepcopy memo l' ;; ret (a' :: rest)
      | None =>
          d <- deref a ;;
          a' <- alloc d ;;
          rest <- deepcopy ((a, a') :: memo) l' ;;
          ret (a' :: rest)
      end
  end.

(** ** The operating system *)

Definition cachedir : string := "/root/.cache/torch/checkpoints/".

(** [os.listdir(path)] *)
Definition os_listdir (path : string) : M world (list string) :=
  fun w =>
    if String.eqb path cachedir then
      match cache w with
      | NoDir => (w, Raise (OSError "FileNotFoundError"))
      | Denied => (w, Raise (OSError "PermissionError"))
      | Dir entries => (w, Ok (map fst (map_to_list entries)))
      end
    else (w, Raise (OSError "FileNotFoundError")).

(** [os.remove(path)] *)
Definition os_remove (path : string) : M world unit :=
  fun w =>
    match PyStr.strip_prefix cachedir path, cache w with
    | Some entry, Dir entries =>
        match entries !! entry with
        | Some true => (set_cache (Dir (delete entry entries)) w, Ok tt)
        | Some false => (w, Raise (OSError "PermissionError"))
        | None => (w, Raise (OSError "FileNotFoundError"))
        end
    | _, _ => (w, Raise (OSError "FileNotFoundError"))
    end.

End Objects.

(** The collaborators, none of which is part of the file: framework
    operations, what the [ToTensorflow] adapter does to a batch, the call
    of a decision mapping, and the registries [load_model] and
    [load_dataset] of [.utils], which return a model with its framework
    tag and a new dataset object. *)
Class Externals `{Data} := {
  to_device : Tensor -> Tensor;               (* [t.to(device())] *)
  tensor_shape : Tensor -> nat -> nat;        (* [t.shape[i]] *)
  reshape : Tensor -> nat -> nat -> Tensor;   (* [t.reshape(b, -1, h)] *)
  cat : Tensor -> Tensor -> Tensor;           (* [torch.cat([a, b], dim=1)] *)
  cpu_numpy : Tensor -> Array;                (* [t.cpu().numpy()] *)
  to_tensorflow_batch : Batch -> Batch;
  decide_classes : Array -> Array;
  decide_raw_probs : Array -> Array * Array;
  load_model : string -> list pyval -> Model * string;
  load_dataset : string -> list pyval -> gmap string pyval -> Dataset;
}.

Section Iteration.

Context `{Externals}.

(** The batches a loader yields when iterated. *)
Fixpoint iter_loader (l : Loader) : list Batch :=
  match l with
  | DataLoader batches => batches
  | ToTensorflow l' => map to_tensorflow_batch (iter_loader l')
  end.

(** [dm(x)] *)
Definition call_decision_mapping (dm : DecisionMapping) (x : Array) : Predictions :=
  if return_raw_probs dm
  then RawProbs (fst (decide_raw_probs x)) (snd (decide_raw_probs x))
  else Decisions (decide_classes x).

(** [a, b = v]: unpacking the value a decision mapping returned. *)
Definition unpack2 {S} (v : Predictions) : M S (Array * Array) :=
  match v with
  | RawProbs p c => ret (p, c)
  | Decisions _ => raise (ValueError "unpack")
  end.

End Iteration.

(** [MAX_NUM_MODELS_IN_CACHE = 3] *)
Definition MAX_NUM_MODELS_IN_CACHE : nat := 3.

(** ** class ModelEvaluator *)

Module ModelEvaluator.
Section Code.

Context `{Externals}.

Definition _pytorch_evaluator (model_name : string) (model : Model)
    (dataset : addr) (args : list pyval) (kwargs : gmap string pyval)
  : M world unit :=
  d <- deref dataset ;;
  for_metrics dataset metric_reset ;;
  emit (ResultPrinter model_name (name d)) ;;
  d <- deref dataset ;;
  for_each (iter_loader (loader d)) (fun batch =>
    let '(images, target, paths) := batch in
    emit (BatchYielded model_name (name d)) ;;
    let images := to_device images in
    let logits := forward_batch model images in
    let softmax_output := softmax model logits in
    let batch_targets :=
      match target with
      | TorchTarget t => to_numpy model t
      | PlainTarget a => a
      end in
    d <- deref dataset ;;
    let predictions := call_decision_mapping (decision_mapping d) softmax_output in
    for_metrics dataset
      (metric_update (Update3 predictions (PlainTarget batch_targets) paths)) ;;
    print_predictions <- getitem kwargs "print_predictions" ;;
    when (truthy print_predictions)
      (emit (PrintBatchToCsv model_name (name d) predictions
               (PlainTarget batch_targets) paths))).

Definition _tensorflow_evaluator (model_name : string) (model : Model)
    (dataset : addr) (args : list pyval) (kwargs : gmap string pyval)
  : M world unit :=
  d <- deref dataset ;;
  emit (ResultPrinter model_name (name d)) ;;
  for_metrics dataset metric_reset ;;
  d <- deref dataset ;;
  for_each (iter_loader (loader d)) (fun batch =>
    let '(images, target, paths) := batch in
    emit (BatchYielded model_name (name d)) ;;
    let logits := forward_batch model images in
    let softmax_output := softmax model logits in
    d <- deref dataset ;;
    let predictions := call_decision_mapping (decision_mapping d) softmax_output in
    for_metrics dataset (metric_update (Update3 predictions target paths)) ;;
    print_predictions <- getitem kwargs "print_predictions" ;;
    when (truthy print_predictions)
      (emit (PrintBatchToCsv model_name (name d) predictions target paths))).

Fixpoint _get_datasets (dataset_names : list string) (args : list pyval)
    (kwargs : gmap string pyval) : M world (list addr) :=
  match dataset_names with
  | [] => ret []
  | dataset :: rest =>
      emit (LoadDataset dataset) ;;
      dataset <- alloc (load_dataset dataset args kwargs) ;;
      dataset_list <- _get_datasets rest args kwargs ;;
      ret (dataset :: dataset_list)
  end.

Definition _to_tensorflow (datasets : list addr) : M world (list addr) :=
  datasets <- deepcopy [] datasets ;;
  for_each datasets (fun dataset =>
    d <- deref dataset ;;
    mutate dataset (set_loader (ToTensorflow (loader d)))) ;;
  ret datasets.

Definition evaluator : Type :=
  string -> Model -> addr -> list pyval -> gmap string pyval -> M world unit.

Definition _get_evaluator (framework : string) : result evaluator :=
  if String.eqb framework "tensorflow" then Ok _tensorflow_evaluator
  else if String.eqb framework "pytorch" then Ok _pytorch_evaluator
  else Raise (NameError "Unsupported evaluator").

Definition _format_name (name : string) : string :=
  PyStr.replace_char "-" "_" (PyStr.lower name).

(** The body of the [try] block. *)
Definition remove_matching (framework model_name : string) : M world unit :=
  when (String.eqb framework "pytorch")
    (downloaded_models <- os_listdir cachedir ;;
     for_each downloaded_models (fun dm =>
       when (PyStr.startswith (_format_name dm) (_format_name model_name))
         (os_remove (PyStr.os_path_join cachedir dm)))).

Definition _remove_model_from_cache (framework model_name : string) : M world unit :=
  emit (RemoveModelFromCache framework model_name) ;;
  try_except_pass (remove_matching framework model_name).

(** The body of [for dataset in datasets:]. *)
Definition evaluate_dataset (evaluate : evaluator) (model_name : string)
    (model : Model) (args : list pyval) (kwargs : gmap string pyval)
    (dataset : addr) : M world unit :=
  evaluate model_name model dataset args kwargs ;;
  print_predictions <- getitem kwargs "print_predictions" ;;
  when (truthy print_predictions)
    (d <- deref dataset ;;
     for_each (metrics d) (fun metric =>
       emit (PrintPerformanceToCsv model_name (name d) metric))).

(** The body of [for model_name in models:]. *)
Definition evaluate_model (models : list string) (_datasets : list addr)
    (args : list pyval) (kwargs : gmap string pyval) (model_name : string)
  : M world unit :=
  let datasets := _datasets in
  emit (LoadModel model_name) ;;
  let '(model, framework) := load_model model_name args in
  evaluate <- lift (_get_evaluator framework) ;;
  datasets <- (if String.eqb framework "tensorflow"
               then _to_tensorflow datasets else ret datasets) ;;
  for_each datasets (evaluate_dataset evaluate model_name model args kwargs) ;;
  when (MAX_NUM_MODELS_IN_CACHE <=? length models)%nat
    (_remove_model_from_cache framework model_name).

Definition __call__ (models dataset_names : list string) (args : list pyval)
    (kwargs : gmap string pyval) : M world unit :=
  _datasets <- _get_datasets dataset_names args kwargs ;;
  for_each models (evaluate_model models _datasets args kwargs).

End Code.
End ModelEvaluator.

(** ** class MetricExtractor *)

Module MetricExtractor.
Section Code.

Context `{Externals}.

Definition _pytorch_extractor (model_name : string) (model : Model)
    (dataset : addr) (args : list pyval) (kwargs : gmap string pyval)
  : M world unit :=
  d <- deref dataset ;;
  mutate dataset (fun d =>
    set_decision_mapping (decision_mapping_init true (decision_mapping d)) d) ;;
  mutate dataset
    (set_metrics [new_metric ReciprocalRank; new_metric Probability;
                  new_metric Entropy]) ;;
  d <- deref dataset ;;
  for_each (iter_loader (loader d)) (fun batch =>
    let '(images, target, paths) := batch in
    emit (BatchYielded model_name (name d)) ;;
    let images := to_device images in
    let '(final_feat, intermediates) := forward_intermediates model images in
    let batch_size := tensor_shape final_feat 0 in
    let hidden_size := tensor_shape final_feat 2 in
    for_each (enumerate intermediates) (fun layer_features =>
      let '(layer, intermediate_features) := layer_features in
      let spatial_intermediates := fst intermediate_features in
      let prefix_intermediates := snd intermediate_features in
      let spatial_intermediates :=
        reshape spatial_intermediates batch_size hidden_size in
      let intermediate_features :=
        cat prefix_intermediates spatial_intermediates in
      let predictions := forward_head model intermediate_features in
      let predictions := softmax model (cpu_numpy predictions) in
      let batch_targets :=
        match target with
        | TorchTarget t => to_numpy model t
        | PlainTarget a => a
        end in
      d <- deref dataset ;;
      pc <- unpack2 (call_decision_mapping (decision_mapping d) predictions) ;;
      let '(predictions, categories) := pc in
      for_metrics dataset
        (metric_update (Update5 predictions categories batch_targets paths layer)))).

Fixpoint _get_datasets (dataset_names : list string) (args : list pyval)
    (kwargs : gmap string pyval) : M world (list addr) :=
  match dataset_names with
  | [] => ret []
  | dataset :: rest =>
      emit (LoadDataset dataset) ;;
      dataset <- alloc (load_dataset dataset args kwargs) ;;
      dataset_list <- _get_datasets rest args kwargs ;;
      ret (dataset :: dataset_list)
  end.

Definition extractor : Type :=
  string -> Model -> addr -> list pyval -> gmap string pyval -> M world unit.

Definition _get_extractor (framework : string) : result extractor :=
  if String.eqb framework "tensorflow"
  then Raise (ValueError "Tensorflow is not supported")
  else if String.eqb framework "pytorch" then Ok _pytorch_extractor
  else Raise (NameError "Unsupported extractor").

Definition _format_name (name : string) : string :=
  PyStr.replace_char "-" "_" (PyStr.lower name).

(** The body of the [try] block. *)
Definition remove_matching (framework model_name : string) : M world unit :=
  when (String.eqb framework "pytorch")
    (downloaded_models <- os_listdir cachedir ;;
     for_each downloaded_models (fun dm =>
       when (PyStr.startswith (_format_name dm) (_format_name model_name))
         (os_remove (PyStr.os_path_join cachedir dm)))).

Definition _remove_model_from_cache (framework model_name : string) : M world unit :=
  emit (RemoveModelFromCache framework model_name) ;;
  try_except_pass (remove_matching framework model_name).

(** The body of [for dataset_idx, dataset in enumerate(datasets):],
    which starts by reading [dataset_names[dataset_idx]]. *)
Definition extract_dataset (extract : extractor) (dataset_names : list string)
    (model_name : string) (model : Model) (args : list pyval)
    (kwargs : gmap string pyval) (indexed : nat * addr) : M world unit :=
  let '(dataset_idx, dataset) := indexed in
  index dataset_names dataset_idx ;;
  extract model_name model dataset args kwargs ;;
  print_predictions <- getitem kwargs "print_predictions" ;;
  when (truthy print_predictions)
    (d <- deref dataset ;;
     for_each (metrics d) (fun metric =>
       emit (PrintMetricsToCsv model_name (name d) metric))).

(** The body of [for model_name in models:]. *)
Definition extract_model (models dataset_names : list string)
    (_datasets : list addr) (args : list pyval) (kwargs : gmap string pyval)
    (model_name : string) : M world unit :=
  let datasets := _datasets in
  emit (LoadModel model_name) ;;
  let '(model, framework) := load_model model_name args in
  extract <- lift (_get_extractor framework) ;;
  when (String.eqb framework "tensorflow")
    (raise (ValueError "Tensorflow models not supported")) ;;
  for_each (enumerate datasets)
    (extract_dataset extract dataset_names model_name model args kwargs) ;;
  when (MAX_NUM_MODELS_IN_CACHE <=? length models)%nat
    (_remove_model_from_cache framework model_name).

Definition __call__ (models dataset_names : list string) (args : list pyval)
    (kwargs : gmap string pyval) : M world unit :=
  _datasets <- _get_datasets dataset_names args kwargs ;;
  for_each models (extract_model models dataset_names _datasets args kwargs).

End Code.
End MetricExtractor.

(** ** A concrete instance, for running the harness *)

Module Run.

(** Tensors and arrays are numbers, the paths of a batch a string. *)
#[export] Instance data : Data :=
  {| Tensor := nat; Array := nat; Paths := string |}.

Definition a_model (bias : nat) : Model :=
  {| forward_batch := fun x => x + bias;
     softmax := fun x => x;
     to_numpy := fun t => t;
     forward_intermediates := fun x => (x, [(x, 0); (x, 1); (x + bias, 2)]);
     forward_head := fun x => x |}.

Definition a_dataset (n : string) : Dataset :=
  {| name := n;
     loader := DataLoader [(1, TorchTarget 1, "a.png"); (2, PlainTarget 0, "b.png")];
     decision_mapping := {| return_raw_probs := false |};
     metrics := [new_metric (OtherMetric "accuracy")] |}.

(** Models whose name starts with "tf" come from tensorflow, the model
    "caffe" from a framework the harness does not know, every other
    model from pytorch. *)
#[export] Instance externals : Externals :=
  {| to_device := fun t => t;
     tensor_shape := fun t i => t + i;
     reshape := fun t _ _ => t;
     cat := fun a b => a + b;
     cpu_numpy := fun t => t;
     to_tensorflow_batch := fun b => b;
     decide_classes := fun x => x;
     decide_raw_probs := fun x => (x, x + 1);
     load_model := fun n _ =>
       (a_model (String.length n),
        if PyStr.startswith n "tf" then "tensorflow"
        else if String.eqb n "caffe" then "caffe" else "pytorch");
     load_dataset := fun n _ _ => a_dataset n |}.

Definition empty_world : world :=
  {| heap := []; cache := NoDir; trace := [] |}.

Definition with_predictions (b : bool) : gmap string pyval :=
  {[ "print_predictions" := PyBool b ]}.

(** A world in which the dataset "d" has been loaded, at address 0, and
    has already been through an evaluation. *)
Definition used_dataset : Dataset :=
  {| name := "d";
     loader := DataLoader [(1, TorchTarget 1, "a.png"); (2, PlainTarget 0, "b.png")];
     decision_mapping := {| return_raw_probs := false |};
     metrics := [ {| m_class := OtherMetric "accuracy";
                     m_updates := [Update3 (Decisions 7) (PlainTarget 7) "old.png"] |} ] |}.

Definition used_world : world :=
  {| heap := [used_dataset]; cache := NoDir; trace := [] |}.

(** A cache directory with two checkpoints of resnet50 and one of
    vgg16. *)
Definition checkpoints : gmap string bool :=
  {[ "resnet50-0676ba61.pth" := true;
     "ResNet50_v2.pth" := true;
     "vgg16-397923af.pth" := true ]}.

Definition cached_world : world :=
  {| heap := []; cache := Dir checkpoints; trace := [] |}.

(** The same directory with the first checkpoint of resnet50
    write-protected. *)
Definition protected_checkpoints : gmap string bool :=
  {[ "resnet50-0676ba61.pth" := false;
     "ResNet50_v2.pth" := true;
     "vgg16-397923af.pth" := true ]}.

Definition protected_world : world :=
  {| heap := []; cache := Dir protected_checkpoints; trace := [] |}.

(** A registry of datasets that knows every name but "missing". *)
Definition a_registry (n : string) : result Dataset :=
  if String.eqb n "missing" then Raise (NameError "missing")
  else Ok (a_dataset n).

End Run.

(** * Properties *)

(** ** Running computations *)

Section RunLemmas.

Context {S : Type}.

Lemma bind_ok {A B} (c : M S A) (k : A -> M S B) s s' a :
  c s = (s', Ok a) -> bind c k s = k a s'.
Proof. unfold bind. by intros ->. Qed.

Lemma bind_raise {A B} (c : M S A) (k : A -> M S B) s s' e :
  c s = (s', Raise e) -> bind c k s = (s', Raise e).
Proof. unfold bind. by intros ->. Qed.

Lemma bind_ret {A B} (a : A) (k : A -> M S B) s : bind (ret a) k s = k a s.
Proof. done. Qed.

Lemma for_each_ext {A} (l : list A) (f g : A -> M S unit) s :
  (forall x, f x = g x) -> for_each l f s = for_each l g s.
Proof.
  intros Hfg. revert s. induction l as [|x l IH]; intros s; simpl; [done|].
  unfold bind. rewrite Hfg. by destruct (g x s) as [s1 [[]|e]].
Qed.

Lemma for_each_app {A} (l1 l2 : list A) (body : A -> M S unit) s :
  for_each (l1 ++ l2) body s =
  match for_each l1 body s with
  | (s', Ok _) => for_each l2 body s'
  | (s', Raise e) => (s', Raise e)
  end.
Proof.
  revert s. induction l1 as [|x l1 IH]; intros s; simpl; [done|].
  unfold bind. destruct (body x s) as [s1 [[]|e]]; [apply IH|done].
Qed.

(** The first iteration that raises ends the loop with its exception. *)
Lemma for_each_raise_at {A} (pre post : list A) x (body : A -> M S unit) s s1 s2 e :
  for_each pre body s = (s1, Ok tt) ->
  body x s1 = (s2, Raise e) ->
  for_each (pre ++ x :: post) body s = (s2, Raise e).
Proof.
  intros Hpre Hx. rewrite for_each_app, Hpre. simpl.
  by apply bind_raise.
Qed.

End RunLemmas.

(** ** Traces *)

Section Traces.

Context `{Data}.

(** The events a computation adds to the trace of [w]. *)
Definition events_of {A} (c : M world A) (w : world) : list event :=
  drop (length (trace w)) (trace (fst (c w))).

(** Every event the computation adds satisfies [P]. *)
Definition emits_only (P : event -> Prop) {A} (c : M world A) : Prop :=
  forall w, exists t, trace (fst (c w)) = trace w ++ t /\ Forall P t.

(** The computation adds no event. *)
Definition silent {A} (c : M world A) : Prop :=
  forall w, trace (fst (c w)) = trace w.

Lemma events_of_eq {A} (c : M world A) w t :
  trace (fst (c w)) = trace w ++ t -> events_of c w = t.
Proof. unfold events_of. intros ->. by rewrite drop_app_length. Qed.

Lemma emits_only_events {A} P (c : M world A) w :
  emits_only P c ->
  trace (fst (c w)) = trace w ++ events_of c w /\ Forall P (events_of c w).
Proof.
  intros Hc. destruct (Hc w) as (t & Ht & HP).
  by rewrite (events_of_eq _ _ _ Ht).
Qed.

Lemma silent_emits_only {A} P (c : M world A) : silent c -> emits_only P c.
Proof. intros Hc w. exists []. by rewrite Hc, app_nil_r. Qed.

Lemma emits_only_silent {A} (c : M world A) :
  emits_only (fun _ => False) c -> silent c.
Proof.
  intros Hc w. destruct (Hc w) as (t & -> & Ht).
  destruct t as [|e t]; [by rewrite app_nil_r|]. by inversion Ht.
Qed.

Lemma emits_only_weaken {A} (P Q : event -> Prop) (c : M world A) :
  (forall e, P e -> Q e) -> emits_only P c -> emits_only Q c.
Proof.
  intros HPQ Hc w. destruct (Hc w) as (t & Ht & HP).
  exists t. split; [done|]. eapply Forall_impl; eauto.
Qed.

Lemma emits_only_ret {A} P (a : A) : emits_only P (ret a).
Proof. by apply silent_emits_only. Qed.

Lemma emits_only_raise {A} P e : emits_only P (raise (A := A) e).
Proof. by apply silent_emits_only. Qed.

Lemma emits_only_lift {A} P (r : result A) : emits_only P (lift r).
Proof. by apply silent_emits_only. Qed.

Lemma emits_only_getitem P kwargs key : emits_only P (getitem kwargs key).
Proof.
  apply silent_emits_only. intros w. unfold getitem.
  by destruct (kwargs !! key).
Qed.

Lemma emits_only_index {A} P (l : list A) i : emits_only P (index l i).
Proof.
  apply silent_emits_only. intros w. unfold index. by destruct (l !! i).
Qed.

Lemma emits_only_unpack2 P v : emits_only P (unpack2 v).
Proof. apply silent_emits_only. intros w. by destruct v. Qed.

Lemma emits_only_emit (P : event -> Prop) e : P e -> emits_only P (emit e).
Proof. intros He w. exists [e]. split; [done|]. by constructor. Qed.

Lemma emit_run e w :
  emit e w =
  ({| heap := heap w; cache := cache w; trace := trace w ++ [e] |}, Ok tt).
Proof. done. Qed.

Lemma emits_only_bind {A B} P (c : M world A) (k : A -> M world B) :
  emits_only P c -> (forall a, emits_only P (k a)) -> emits_only P (bind c k).
Proof.
  intros Hc Hk w. destruct (Hc w) as (t & Ht & HP). unfold bind.
  destruct (c w) as [w1 [a|e]]; simpl in *.
  - destruct (Hk a w1) as (t' & Ht' & HP'). exists (t ++ t').
    rewrite Ht', Ht. split; [by rewrite app_assoc|by apply Forall_app].
  - by exists t.
Qed.

Lemma emits_only_when P b (c : M world unit) :
  emits_only P c -> emits_only P (when b c).
Proof. destruct b; [done|]. intros _. apply emits_only_ret. Qed.

Lemma emits_only_for_each {A} P (l : list A) (body : A -> M world unit) :
  (forall x, emits_only P (body x)) -> emits_only P (for_each l body).
Proof.
  intros Hbody. induction l as [|x l IH]; simpl.
  - apply emits_only_ret.
  - apply emits_only_bind; [apply Hbody|by intros _].
Qed.

Lemma emits_only_try P (c : M world unit) :
  emits_only P c -> emits_only P (try_except_pass c).
Proof. intros Hc w. apply Hc. Qed.

Lemma emits_only_deref P a : emits_only P (deref a).
Proof.
  apply silent_emits_only. intros w. unfold deref.
  by destruct (heap w !! a).
Qed.

Lemma emits_only_alloc P d : emits_only P (alloc d).
Proof. by apply silent_emits_only. Qed.

Lemma emits_only_mutate P a f : emits_only P (mutate a f).
Proof. by apply silent_emits_only. Qed.

Lemma emits_only_for_metrics P a f : emits_only P (for_metrics a f).
Proof.
  apply emits_only_bind; [apply emits_only_deref|].
  intros d. apply emits_only_mutate.
Qed.

Lemma emits_only_os_listdir P path : emits_only P (os_listdir path).
Proof.
  apply silent_emits_only. intros w. unfold os_listdir.
  destruct (String.eqb path cachedir); [|done]. by destruct (cache w).
Qed.

Lemma emits_only_os_remove P path : emits_only P (os_remove path).
Proof.
  apply silent_emits_only. intros w. unfold os_remove.
  destruct (PyStr.strip_prefix cachedir path); [|done].
  destruct (cache w) as [| |entries]; try done.
  by destruct (entries !! s) as [[]|].
Qed.

Lemma emits_only_deepcopy P l memo : emits_only P (deepcopy memo l).
Proof.
  revert memo. induction l as [|a l IH]; intros memo; simpl.
  - apply emits_only_ret.
  - destruct (list_find _ memo) as [[? [? a']]|].
    + apply emits_only_bind; [apply IH|]. intros ?. apply emits_only_ret.
    + apply emits_only_bind; [apply emits_only_deref|]. intros d.
      apply emits_only_bind; [apply emits_only_alloc|]. intros a'.
      apply emits_only_bind; [apply IH|]. intros ?. apply emits_only_ret.
Qed.

End Traces.

Create HintDb emits discriminated.
#[export] Hint Resolve emits_only_ret emits_only_raise emits_only_lift
  emits_only_getitem emits_only_index emits_only_unpack2 emits_only_when emits_only_for_each
  emits_only_try emits_only_deref emits_only_alloc emits_only_mutate
  emits_only_for_metrics emits_only_os_listdir emits_only_os_remove
  emits_only_deepcopy : emits.

(** Splits a goal [emits_only P c] along the structure of [c]. *)
Ltac emits_step :=
  lazymatch goal with
  | |- emits_only _ (bind _ _) => apply emits_only_bind; [|intros ?]
  | |- emits_only _ (when _ _) => apply emits_only_when
  | |- emits_only _ (for_each _ _) => apply emits_only_for_each; intros ?
  | |- emits_only _ (try_except_pass _) => apply emits_only_try
  | |- emits_only _ (emit _) => apply emits_only_emit
  | |- emits_only _ (let '(_, _) := ?x in _) => destruct x
  | |- emits_only _ (if ?b then _ else _) => destruct b
  | |- emits_only _ (match ?x with _ => _ end) => destruct x
  | |- emits_only _ _ => solve [eauto with emits]
  end.
Ltac emits := repeat emits_step.

(** ** When the cache is pruned *)

Section Eviction.

Context `{Externals}.

(** An event of the evaluation proper: neither the loading of a model
    nor an eviction attempt. *)
Definition quiet (e : event) : Prop :=
  match e with
  | LoadModel _ | RemoveModelFromCache _ _ => False
  | _ => True
  end.

Definition is_eviction (e : event) : Prop :=
  match e with RemoveModelFromCache _ _ => True | _ => False end.

(** The events of a model that went through the whole loop body while
    eviction is on: it is loaded, evaluated, and then evicted. *)
Definition model_segment (args : list pyval) (model_name : string)
    (seg : list event) : Prop :=
  exists body,
    seg = LoadModel model_name :: body ++
          [RemoveModelFromCache (snd (load_model model_name args)) model_name]
    /\ Forall quiet body.

Lemma pytorch_evaluator_quiet mn model a args kwargs :
  emits_only quiet (ModelEvaluator._pytorch_evaluator mn model a args kwargs).
Proof. unfold ModelEvaluator._pytorch_evaluator. emits; done. Qed.

Lemma tensorflow_evaluator_quiet mn model a args kwargs :
  emits_only quiet (ModelEvaluator._tensorflow_evaluator mn model a args kwargs).
Proof. unfold ModelEvaluator._tensorflow_evaluator. emits; done. Qed.

Lemma pytorch_extractor_quiet mn model a args kwargs :
  emits_only quiet (MetricExtractor._pytorch_extractor mn model a args kwargs).
Proof. unfold MetricExtractor._pytorch_extractor. emits; done. Qed.

Lemma get_evaluator_quiet fw ev mn model a args kwargs :
  ModelEvaluator._get_evaluator fw = Ok ev ->
  emits_only quiet (ev mn model a args kwargs).
Proof.
  unfold ModelEvaluator._get_evaluator.
  repeat case_match; intros [= <-];
    auto using pytorch_evaluator_quiet, tensorflow_evaluator_quiet.
Qed.

Lemma get_extractor_quiet fw ex mn model a args kwargs :
  MetricExtractor._get_extractor fw = Ok ex ->
  emits_only quiet (ex mn model a args kwargs).
Proof.
  unfold MetricExtractor._get_extractor.
  repeat case_match; intros [= <-]; apply pytorch_extractor_quiet.
Qed.

Lemma remove_matching_silent fw m :
  silent (ModelEvaluator.remove_matching fw m).
Proof.
  apply emits_only_silent. unfold ModelEvaluator.remove_matching. emits.
Qed.

(** An eviction attempt is one event, and it returns. *)
Lemma remove_model_from_cache_run fw m w :
  trace (fst (ModelEvaluator._remove_model_from_cache fw m w)) =
    trace w ++ [RemoveModelFromCache fw m]
  /\ snd (ModelEvaluator._remove_model_from_cache fw m w) = Ok tt.
Proof.
  unfold ModelEvaluator._remove_model_from_cache, bind, emit, modify.
  split; [|done]. unfold try_except_pass. simpl.
  by rewrite remove_matching_silent.
Qed.

(** The two classes carry the same eviction code. *)
Lemma extractor_remove_model_from_cache :
  MetricExtractor._remove_model_from_cache =
  ModelEvaluator._remove_model_from_cache.
Proof. reflexivity. Qed.

(** What one iteration of [for model_name in models:] adds to the
    trace, whether it returns or raises. *)
Definition step_spec (n : nat) (args : list pyval)
    (step : string -> M world unit) : Prop :=
  forall m w, exists body,
    Forall quiet body /\
    trace (fst (step m w)) =
      trace w ++ LoadModel m :: body ++
        (if is_ok (snd (step m w)) && (MAX_NUM_MODELS_IN_CACHE <=? n)%nat
         then [RemoveModelFromCache (snd (load_model m args)) m] else []).

(** Closes [step_spec] goals once the loop body is known to stop. *)
Local Ltac stopped t :=
  exists t; split; [done|]; simpl;
  repeat rewrite app_nil_r; repeat rewrite <- app_assoc; done.

Lemma evaluate_model_spec models _datasets args kwargs :
  step_spec (length models) args
    (ModelEvaluator.evaluate_model models _datasets args kwargs).
Proof.
  intros m w. unfold ModelEvaluator.evaluate_model, bind, lift, when.
  rewrite !emit_run.
  set (w1 := Build_world _ _ _).
  assert (Hw1 : trace w1 = trace w ++ [LoadModel m]) by done.
  clearbody w1.
  destruct (load_model m args) as [model fw]. cbn [snd].
  destruct (ModelEvaluator._get_evaluator fw) as [ev|e] eqn:Hev.
  2: { simpl. rewrite Hw1. stopped (@nil event). }
  assert (Hc : emits_only quiet
    (if String.eqb fw "tensorflow"
     then ModelEvaluator._to_tensorflow _datasets else ret _datasets)).
  { destruct (String.eqb fw "tensorflow"); [|emits].
    unfold ModelEvaluator._to_tensorflow. emits. }
  destruct (Hc w1) as (t2 & Ht2 & Hq2).
  match type of Ht2 with trace (fst ?r) = _ =>
    destruct r as [w2 [ds|e]] end; simpl in Ht2.
  2: { simpl. rewrite Ht2, Hw1. stopped t2. }
  assert (Hf : emits_only quiet (for_each ds
    (ModelEvaluator.evaluate_dataset ev m model args kwargs))).
  { unfold ModelEvaluator.evaluate_dataset. emits;
      eauto using get_evaluator_quiet; done. }
  destruct (Hf w2) as (t3 & Ht3 & Hq3).
  destruct (for_each ds _ w2) as [w3 [[]|e]]; simpl in Ht3.
  2: { simpl. rewrite Ht3, Ht2, Hw1. exists (t2 ++ t3).
       split; [by apply Forall_app|]. by rewrite app_nil_r, <- !app_assoc. }
  destruct (MAX_NUM_MODELS_IN_CACHE <=? length models)%nat.
  - destruct (remove_model_from_cache_run fw m w3) as [Ht4 Hr4].
    rewrite Hr4, Ht4, Ht3, Ht2, Hw1. exists (t2 ++ t3).
    split; [by apply Forall_app|]. simpl. by rewrite <- !app_assoc.
  - simpl. rewrite Ht3, Ht2, Hw1. exists (t2 ++ t3).
    split; [by apply Forall_app|]. by rewrite app_nil_r, <- !app_assoc.
Qed.

Lemma extract_model_spec models dataset_names _datasets args kwargs :
  step_spec (length models) args
    (MetricExtractor.extract_model models dataset_names _datasets args kwargs).
Proof.
  intros m w. unfold MetricExtractor.extract_model, bind, lift.
  rewrite !emit_run.
  set (w1 := Build_world _ _ _).
  assert (Hw1 : trace w1 = trace w ++ [LoadModel m]) by done.
  clearbody w1.
  destruct (load_model m args) as [model fw]. cbn [snd].
  destruct (MetricExtractor._get_extractor fw) as [ex|e] eqn:Hex.
  2: { simpl. rewrite Hw1. stopped (@nil event). }
  unfold when.
  destruct (String.eqb fw "tensorflow").
  { simpl. rewrite Hw1. stopped (@nil event). }
  unfold ret.
  assert (Hf : emits_only quiet (for_each (enumerate _datasets)
    (MetricExtractor.extract_dataset ex dataset_names m model args kwargs))).
  { unfold MetricExtractor.extract_dataset. emits;
      eauto using get_extractor_quiet; done. }
  destruct (Hf w1) as (t3 & Ht3 & Hq3).
  destruct (for_each (enumerate _datasets) _ w1) as [w3 [[]|e]]; simpl in Ht3.
  2: { simpl. rewrite Ht3, Hw1. stopped t3. }
  destruct (MAX_NUM_MODELS_IN_CACHE <=? length models)%nat.
  - rewrite extractor_remove_model_from_cache.
    destruct (remove_model_from_cache_run fw m w3) as [Ht4 Hr4].
    rewrite Hr4, Ht4, Ht3, Hw1. exists t3.
    split; [done|]. simpl. by rewrite <- !app_assoc.
  - simpl. rewrite Ht3, Hw1.
    stopped t3.
Qed.

Lemma quiet_not_eviction e : quiet e -> ~ is_eviction e.
Proof. destruct e; simpl; tauto. Qed.

(** Below the threshold no iteration attempts an eviction. *)
Lemma step_spec_no_eviction n args step m :
  step_spec n args step -> (n < MAX_NUM_MODELS_IN_CACHE)%nat ->
  emits_only (fun e => ~ is_eviction e) (step m).
Proof.
  intros Hs Hn w. destruct (Hs m w) as (body & Hq & Ht).
  exists (LoadModel m :: body). split.
  - rewrite Ht. replace (MAX_NUM_MODELS_IN_CACHE <=? n)%nat with false.
    + by rewrite andb_false_r, app_nil_r.
    + symmetry. apply Nat.leb_gt. lia.
  - constructor; [by intros []|].
    eapply Forall_impl; [done|]. apply quiet_not_eviction.
Qed.

Definition no_eviction (t : list event) : Prop :=
  Forall (fun e => ~ is_eviction e) t.

(** At or above it, the loop evicts every model right after evaluating
    it: its events are the segments of the models it went through
    ([finished]), followed, when a model raised, by the events of that
    model ([tail]), among which there is no eviction.  A loop that
    returns went through all the models. *)
Lemma step_spec_segments n args step l w :
  step_spec n args step -> (MAX_NUM_MODELS_IN_CACHE <= n)%nat ->
  exists finished segs tail,
    finished `prefix_of` l /\
    trace (fst (for_each l step w)) = trace w ++ concat segs ++ tail /\
    Forall2 (model_segment args) finished segs /\
    no_eviction tail /\
    (snd (for_each l step w) = Ok tt -> finished = l /\ tail = []).
Proof.
  intros Hs Hn. revert w. induction l as [|m l IH]; intros w.
  - exists [], [], []. split; [done|]. split; [by rewrite app_nil_r|].
    repeat split; constructor.
  - simpl. unfold bind.
    destruct (Hs m w) as (body & Hq & Ht).
    replace (MAX_NUM_MODELS_IN_CACHE <=? n)%nat with true in Ht
      by (symmetry; by apply Nat.leb_le).
    destruct (step m w) as [w1 [[]|e]]; cbn [fst snd is_ok andb] in Ht.
    + destruct (IH w1) as (finished & segs & tail & Hpre & Hsegs & Hall & Htail & Hok).
      exists (m :: finished),
        ((LoadModel m :: body ++
            [RemoveModelFromCache (snd (load_model m args)) m]) :: segs), tail.
      split; [by apply prefix_cons|]. split.
      { rewrite Hsegs, Ht. cbn [concat]. by rewrite <- !app_assoc. }
      split; [constructor; [by exists body|done]|]. split; [done|].
      intros Hr. destruct (Hok Hr) as [-> ->]. done.
    + exists [], [], (LoadModel m :: body).
      split; [apply prefix_nil|].
      split; [cbn [fst concat app]; by rewrite Ht, app_nil_r|].
      split; [constructor|]. split; [|done].
      constructor; [by intros []|].
      eapply Forall_impl; [done|]. apply quiet_not_eviction.
Qed.

Lemma get_datasets_quiet dataset_names args kwargs :
  emits_only quiet (ModelEvaluator._get_datasets dataset_names args kwargs).
Proof. induction dataset_names; simpl; emits; done. Qed.

(** The events of a run in which every model is evicted once it is
    done: the datasets are loaded, then each model the run went through
    ([finished], all the models when the run returns) has its segment;
    when a model raised, its events come last, with no eviction among
    them. *)
Definition evicts_finished_models (args : list pyval) (models : list string)
    (r : result unit) (t : list event) : Prop :=
  exists loads finished segs tail,
    t = loads ++ concat segs ++ tail /\
    Forall quiet loads /\
    finished `prefix_of` models /\
    Forall2 (model_segment args) finished segs /\
    no_eviction tail /\
    (r = Ok tt -> finished = models /\ tail = []).

(** A whole run: the datasets are loaded, then the models are looped
    over. *)
Lemma run_eviction (get_datasets : M world (list addr))
    (step : list addr -> string -> M world unit) models args w :
  emits_only quiet get_datasets ->
  (forall ds, step_spec (length models) args (step ds)) ->
  let run := bind get_datasets (fun ds => for_each models (step ds)) in
  ((length models < MAX_NUM_MODELS_IN_CACHE)%nat ->
     no_eviction (events_of run w)) /\
  ((MAX_NUM_MODELS_IN_CACHE <= length models)%nat ->
     evicts_finished_models args models (snd (run w)) (events_of run w)).
Proof.
  intros Hg Hs run. split.
  - intros Hn. apply emits_only_events. apply emits_only_bind.
    + eapply emits_only_weaken; [apply quiet_not_eviction|done].
    + intros ds. apply emits_only_for_each. intros m.
      by eapply step_spec_no_eviction.
  - intros Hn. unfold events_of, run, bind.
    destruct (Hg w) as (loads & Hl & Hq).
    destruct (get_datasets w) as [w1 [ds|e]]; simpl in Hl.
    + destruct (step_spec_segments _ _ _ models w1 (Hs ds) Hn)
        as (finished & segs & tail & Hpre & Ht & Hall & Htail & Hok).
      exists loads, finished, segs, tail. split; [|done].
      by rewrite Ht, Hl, <- app_assoc, drop_app_length.
    + exists loads, [], [], []. simpl.
      rewrite Hl, drop_app_length, app_nil_r.
      repeat split; try done; try constructor. apply prefix_nil.
Qed.

(** The number of models loaded so far in the run, at each eviction
    attempt of a trace. *)
Fixpoint models_so_far_at_evictions (seen : nat) (t : list event) : list nat :=
  match t with
  | [] => []
  | LoadModel _ :: t' => models_so_far_at_evictions (seen + 1) t'
  | RemoveModelFromCache _ _ :: t' =>
      seen :: models_so_far_at_evictions seen t'
  | _ :: t' => models_so_far_at_evictions seen t'
  end.

(** Eviction gated by the running count: no attempt is made while
    fewer than [MAX_NUM_MODELS_IN_CACHE] models have been evaluated. *)
Definition evicts_only_from_threshold (t : list event) : Prop :=
  Forall (fun seen => (MAX_NUM_MODELS_IN_CACHE <= seen)%nat)
    (models_so_far_at_evictions 0 t).

(** C1 (amended).  Eviction is decided by the size of the run, not by
    the number of models evaluated so far: in a run of fewer than
    three models no eviction attempt is ever made, and in a run of
    three models or more every model is evicted right after its own
    evaluation, the first one included; a run that returns has evicted
    every model of the list, a run that raises the models before the
    one that raised.  This holds for evaluation and for extraction. *)
Theorem eviction_follows_run_size models dataset_names args kwargs w :
  let evaluate := ModelEvaluator.__call__ models dataset_names args kwargs in
  let extract := MetricExtractor.__call__ models dataset_names args kwargs in
  ((length models < MAX_NUM_MODELS_IN_CACHE)%nat ->
     no_eviction (events_of evaluate w) /\ no_eviction (events_of extract w))
  /\
  ((MAX_NUM_MODELS_IN_CACHE <= length models)%nat ->
     evicts_finished_models args models (snd (evaluate w))
       (events_of evaluate w) /\
     evicts_finished_models args models (snd (extract w))
       (events_of extract w)).
Proof.
  intros evaluate extract.
  pose proof (run_eviction
    (ModelEvaluator._get_datasets dataset_names args kwargs)
    (fun ds => ModelEvaluator.evaluate_model models ds args kwargs)
    models args w (get_datasets_quiet _ _ _)
    (fun ds => evaluate_model_spec models ds args kwargs)) as [He1 He2].
  pose proof (run_eviction
    (MetricExtractor._get_datasets dataset_names args kwargs)
    (fun ds => MetricExtractor.extract_model models dataset_names ds args kwargs)
    models args w (get_datasets_quiet _ _ _)
    (fun ds => extract_model_spec models dataset_names ds args kwargs))
    as [Hx1 Hx2].
  split; intros Hn.
  - split; [exact (He1 Hn)|exact (Hx1 Hn)].
  - split; [exact (He2 Hn)|exact (Hx2 Hn)].
Qed.

End Eviction.

(** ** Selecting the evaluator *)

Section Selection.

Context `{Externals}.

Lemma eqb_string_neq (a b : string) : a <> b -> String.eqb a b = false.
Proof. intros Hne. by apply String.eqb_neq. Qed.

Lemma get_evaluator_unknown framework :
  framework <> "tensorflow" -> framework <> "pytorch" ->
  ModelEvaluator._get_evaluator framework =
    Raise (NameError "Unsupported evaluator").
Proof.
  intros Htf Hpt. unfold ModelEvaluator._get_evaluator.
  by rewrite (eqb_string_neq _ _ Htf), (eqb_string_neq _ _ Hpt).
Qed.

Lemma get_extractor_unknown framework :
  framework <> "tensorflow" -> framework <> "pytorch" ->
  MetricExtractor._get_extractor framework =
    Raise (NameError "Unsupported extractor").
Proof.
  intros Htf Hpt. unfold MetricExtractor._get_extractor.
  by rewrite (eqb_string_neq _ _ Htf), (eqb_string_neq _ _ Hpt).
Qed.

(** A model whose framework has no evaluator stops the loop body right
    after it is loaded. *)
Lemma evaluate_model_no_evaluator models _datasets args kwargs m w e :
  ModelEvaluator._get_evaluator (snd (load_model m args)) = Raise e ->
  ModelEvaluator.evaluate_model models _datasets args kwargs m w =
    (fst (emit (LoadModel m) w), Raise e).
Proof.
  intros He. unfold ModelEvaluator.evaluate_model, bind. rewrite emit_run.
  destruct (load_model m args) as [model fw]. cbn [snd] in He.
  by rewrite He.
Qed.

Lemma extract_model_no_extractor models dataset_names _datasets args kwargs m w e :
  MetricExtractor._get_extractor (snd (load_model m args)) = Raise e ->
  MetricExtractor.extract_model models dataset_names _datasets args kwargs m w =
    (fst (emit (LoadModel m) w), Raise e).
Proof.
  intros He. unfold MetricExtractor.extract_model, bind. rewrite emit_run.
  destruct (load_model m args) as [model fw]. cbn [snd] in He.
  by rewrite He.
Qed.

(** The models before [m] were handled without an exception: the
    datasets were loaded and the loop went through [pre]. *)
Definition reaches {A} (get_datasets : M world (list A))
    (step : list A -> string -> M world unit) (pre : list string)
    (w w1 : world) (ds : list A) : Prop :=
  exists w0, get_datasets w = (w0, Ok ds) /\
             for_each pre (step ds) w0 = (w1, Ok tt).

Lemma run_raises_at {A} (get_datasets : M world (list A))
    (step : list A -> string -> M world unit) pre m post w w1 w2 ds e :
  reaches get_datasets step pre w w1 ds ->
  step ds m w1 = (w2, Raise e) ->
  bind get_datasets (fun ds => for_each (pre ++ m :: post) (step ds)) w =
    (w2, Raise e).
Proof.
  intros (w0 & Hds & Hpre) Hm. rewrite (bind_ok _ _ _ _ _ Hds).
  by eapply for_each_raise_at.
Qed.

(** C6.  A framework tag other than "tensorflow" and "pytorch" makes the
    selection of an evaluator, and of an extractor, fail with a
    [NameError]; nothing catches it, so the loop body of the orchestrator
    and the whole run end with it.  For the two known tags the selection
    of an evaluator returns the evaluator of that framework; the
    selection of an extractor returns the pytorch extractor for
    "pytorch". *)
Theorem unknown_backend_is_a_name_error :
  (forall framework, framework <> "tensorflow" -> framework <> "pytorch" ->
     ModelEvaluator._get_evaluator framework =
       Raise (NameError "Unsupported evaluator") /\
     MetricExtractor._get_extractor framework =
       Raise (NameError "Unsupported extractor") /\
     forall pre m post dataset_names args kwargs w w1 ds,
       snd (load_model m args) = framework ->
       let models := pre ++ m :: post in
       (reaches (ModelEvaluator._get_datasets dataset_names args kwargs)
          (fun ds => ModelEvaluator.evaluate_model models ds args kwargs)
          pre w w1 ds ->
        snd (ModelEvaluator.__call__ models dataset_names args kwargs w) =
          Raise (NameError "Unsupported evaluator")) /\
       (reaches (MetricExtractor._get_datasets dataset_names args kwargs)
          (fun ds => MetricExtractor.extract_model models dataset_names ds
                       args kwargs)
          pre w w1 ds ->
        snd (MetricExtractor.__call__ models dataset_names args kwargs w) =
          Raise (NameError "Unsupported extractor")))
  /\ ModelEvaluator._get_evaluator "tensorflow" =
       Ok ModelEvaluator._tensorflow_evaluator
  /\ ModelEvaluator._get_evaluator "pytorch" =
       Ok ModelEvaluator._pytorch_evaluator
  /\ MetricExtractor._get_extractor "pytorch" =
       Ok MetricExtractor._pytorch_extractor.
Proof.
  split; [|done]. intros framework Htf Hpt.
  pose proof (get_evaluator_unknown _ Htf Hpt) as Hev.
  pose proof (get_extractor_unknown _ Htf Hpt) as Hex.
  do 2 (split; [done|]).
  intros pre m post dataset_names args kwargs w w1 ds Hfw models.
  rewrite <- Hfw in Hev, Hex. split; intros Hreach.
  - exact (f_equal snd
      (run_raises_at _ _ pre m post w w1 _ ds _ Hreach
         (evaluate_model_no_evaluator models ds args kwargs m w1 _ Hev))).
  - exact (f_equal snd
      (run_raises_at _ _ pre m post w w1 _ ds _ Hreach
         (extract_model_no_extractor models dataset_names ds args kwargs
            m w1 _ Hex))).
Qed.

End Selection.

(** ** Pruning the cache *)

Section Cache.

Context `{Externals}.

(** The test of the sweep: the normalized name of the directory entry
    starts with the normalized name of the model. *)
Definition matches (model_name dm : string) : bool :=
  PyStr.startswith (ModelEvaluator._format_name dm)
    (ModelEvaluator._format_name model_name).

(** The loop over the listing. *)
Definition sweep (model_name : string) (l : list string) : M world unit :=
  for_each l (fun dm =>
    when (matches model_name dm)
      (os_remove (PyStr.os_path_join cachedir dm))).

Lemma join_cachedir dm :
  PyStr.is_basename dm = true ->
  PyStr.os_path_join cachedir dm = String.append cachedir dm.
Proof.
  unfold PyStr.is_basename, PyStr.os_path_join, PyStr.startswith.
  destruct dm as [|c dm]; [done|]. intros Hb. cbn [String.prefix].
  destruct (ascii_dec "/" c) as [<-|_]; [done|reflexivity].
Qed.

Lemma strip_cachedir dm :
  PyStr.strip_prefix cachedir (String.append cachedir dm) = Some dm.
Proof. reflexivity. Qed.

Lemma os_remove_entry dm cur w :
  PyStr.is_basename dm = true -> cache w = Dir cur ->
  os_remove (PyStr.os_path_join cachedir dm) w =
  match cur !! dm with
  | Some true => (set_cache (Dir (delete dm cur)) w, Ok tt)
  | Some false => (w, Raise (OSError "PermissionError"))
  | None => (w, Raise (OSError "FileNotFoundError"))
  end.
Proof.
  intros Hdm Hw. unfold os_remove.
  by rewrite (join_cachedir _ Hdm), strip_cachedir, Hw.
Qed.

(** What the sweep does to the directory: it removes matching entries of
    the listing and nothing else; it removes all of them when each can
    be removed. *)
Lemma sweep_spec model_name l :
  forall cur w,
    cache w = Dir cur ->
    Forall (fun dm => PyStr.is_basename dm = true) l ->
    exists cur',
      fst (sweep model_name l w) = set_cache (Dir cur') w /\
      (forall dm, cur' !! dm = cur !! dm \/
                  (cur' !! dm = None /\ dm ∈ l /\ matches model_name dm = true)) /\
      (NoDup l ->
       (forall dm, dm ∈ l -> matches model_name dm = true ->
                   cur !! dm = Some true) ->
       forall dm, dm ∈ l -> matches model_name dm = true -> cur' !! dm = None).
Proof.
  induction l as [|x l IH]; intros cur w Hw Hnames.
  - exists cur. split; [|split].
    + destruct w; simpl in *. by rewrite Hw.
    + by left.
    + intros _ _ dm Hdm. by apply elem_of_nil in Hdm.
  - apply Forall_cons in Hnames as [Hx Hnames].
    unfold sweep in *. simpl. unfold bind, when.
    destruct (matches model_name x) eqn:Hm.
    + rewrite (os_remove_entry _ _ _ Hx Hw).
      destruct (cur !! x) as [[]|] eqn:Hcur.
      * destruct (IH (delete x cur) (set_cache (Dir (delete x cur)) w)
                    eq_refl Hnames) as (cur' & Hrun & Honly & Hall).
        exists cur'. split; [exact Hrun|]. split.
        -- intros dm. destruct (Honly dm) as [Heq|(Hnone & Hin & Hdm)].
           ++ destruct (decide (x = dm)) as [->|Hne].
              ** right. rewrite Heq, lookup_delete_eq.
                 split; [done|]. split; [left|done].
              ** left. by rewrite Heq, lookup_delete_ne.
           ++ right. split; [done|]. split; [by right|done].
        -- intros Hnodup Hcan dm Hin Hdm.
           apply NoDup_cons in Hnodup as [Hnotin Hnodup].
           apply elem_of_cons in Hin as [->|Hin].
           ++ destruct (Honly x) as [Heq|(Hnone & _)]; [|done].
              by rewrite Heq, lookup_delete_eq.
           ++ apply Hall; [done| |done|done].
              intros dm' Hin' Hdm'. rewrite lookup_delete_ne.
              ** apply Hcan; [by right|done].
              ** intros ->. done.
      * exists cur. split; [|split].
        -- destruct w; simpl in *. by rewrite Hw.
        -- by left.
        -- intros _ Hcan. specialize (Hcan x (list_elem_of_here _ _) Hm).
           congruence.
      * exists cur. split; [|split].
        -- destruct w; simpl in *. by rewrite Hw.
        -- by left.
        -- intros _ Hcan. specialize (Hcan x (list_elem_of_here _ _) Hm).
           congruence.
    + destruct (IH cur w Hw Hnames) as (cur' & Hrun & Honly & Hall).
      exists cur'. split; [exact Hrun|]. split.
      * intros dm. destruct (Honly dm) as [Heq|(Hnone & Hin & Hdm)].
        -- by left.
        -- right. split; [done|]. split; [by right|done].
      * intros Hnodup Hcan dm Hin Hdm.
        apply NoDup_cons in Hnodup as [Hnotin Hnodup].
        apply elem_of_cons in Hin as [->|Hin]; [congruence|].
        apply Hall; [done| |done|done].
        intros dm' Hin' Hdm'. apply Hcan; [by right|done].
Qed.

Lemma sweep_no_match model_name l w :
  Forall (fun dm => matches model_name dm = false) l ->
  sweep model_name l w = (w, Ok tt).
Proof.
  unfold sweep. induction 1 as [|x l Hx _ IH]; simpl; [done|].
  unfold bind, when. by rewrite Hx.
Qed.

Lemma remove_matching_listed model_name entries w :
  cache w = Dir entries ->
  ModelEvaluator.remove_matching "pytorch" model_name w =
  sweep model_name (map fst (map_to_list entries)) w.
Proof.
  intros Hw. unfold ModelEvaluator.remove_matching, bind, os_listdir.
  cbn [String.eqb Ascii.eqb Bool.eqb when cachedir]. by rewrite Hw.
Qed.

Lemma remove_matching_other_framework framework model_name w :
  framework <> "pytorch" ->
  ModelEvaluator.remove_matching framework model_name w = (w, Ok tt).
Proof.
  intros Hfw. unfold ModelEvaluator.remove_matching.
  by rewrite (proj2 (String.eqb_neq _ _) Hfw).
Qed.

Lemma remove_matching_unlisted framework model_name w :
  cache w = NoDir \/ cache w = Denied ->
  fst (ModelEvaluator.remove_matching framework model_name w) = w.
Proof.
  intros Hw. unfold ModelEvaluator.remove_matching, when.
  destruct (String.eqb framework "pytorch"); [|done].
  unfold bind, os_listdir. cbn [String.eqb Ascii.eqb Bool.eqb cachedir].
  by destruct Hw as [-> | ->].
Qed.

Lemma listing_elem_of (entries : gmap string bool) dm :
  dm ∈ map fst (map_to_list entries) <-> is_Some (entries !! dm).
Proof.
  rewrite list_elem_of_fmap. split.
  - intros ([k v] & -> & Hin). apply elem_of_map_to_list in Hin. by exists v.
  - intros [v Hv]. exists (dm, v). split; [done|].
    by apply elem_of_map_to_list.
Qed.

Lemma listed_entries (entries : gmap string bool) (P : string -> Prop) :
  Forall P (map fst (map_to_list entries)) ->
  forall dm, is_Some (entries !! dm) -> P dm.
Proof.
  intros Hall dm Hdm. apply listing_elem_of in Hdm.
  by eapply Forall_forall in Hall.
Qed.

(** C7.  The eviction never raises, in any state of the cache directory
    and for any framework tag and model name: [os.listdir] failing on a
    missing or unreadable directory and [os.remove] failing on an entry
    are swallowed by the bare [except].  When the directory does not
    exist, cannot be listed, or holds no entry that matches, the call
    changes nothing (apart from being recorded in the trace).  Both
    classes behave the same. *)
Theorem cache_eviction_never_raises framework model_name w :
  snd (ModelEvaluator._remove_model_from_cache framework model_name w) = Ok tt /\
  snd (MetricExtractor._remove_model_from_cache framework model_name w) = Ok tt /\
  ((cache w = NoDir \/ cache w = Denied \/
    exists entries, cache w = Dir entries /\
      forall dm, is_Some (entries !! dm) -> matches model_name dm = false) ->
   fst (ModelEvaluator._remove_model_from_cache framework model_name w) =
     fst (emit (RemoveModelFromCache framework model_name) w) /\
   fst (MetricExtractor._remove_model_from_cache framework model_name w) =
     fst (emit (RemoveModelFromCache framework model_name) w)).
Proof.
  split; [done|]. split; [done|].
  intros Hw.
  enough (fst (ModelEvaluator.remove_matching framework model_name
                 (fst (emit (RemoveModelFromCache framework model_name) w)))
          = fst (emit (RemoveModelFromCache framework model_name) w))
    as Hsame by (split; exact Hsame).
  set (w1 := fst (emit _ w)).
  assert (Hc : cache w1 = cache w) by done. clearbody w1. rewrite <- Hc in Hw.
  destruct Hw as [Hw|[Hw|(entries & Hw & Hnone)]];
    [apply remove_matching_unlisted; by left
    |apply remove_matching_unlisted; by right|].
  destruct (decide (framework = "pytorch")) as [->|Hfw].
  - rewrite (remove_matching_listed _ _ _ Hw), sweep_no_match; [done|].
    apply Forall_forall. intros dm Hdm. by apply Hnone, listing_elem_of.
  - by rewrite remove_matching_other_framework.
Qed.

(** The eviction of a pytorch model deletes exactly the matching
    entries: afterwards the directory holds the entries that do not
    match, and no other. *)
Definition deletes_exactly_matching (model_name : string)
    (entries : gmap string bool) (w : world) : Prop :=
  exists entries',
    cache (fst (ModelEvaluator._remove_model_from_cache "pytorch" model_name w))
      = Dir entries' /\
    forall dm, entries' !! dm =
               if matches model_name dm then None else entries !! dm.

(** C8 (amended).  Run for a pytorch model on a cache directory that
    can be listed, the eviction deletes only entries whose normalized
    name (lower case, "-" replaced by "_") starts with the normalized
    model name; every other entry stays as it was.  It deletes all of
    them, so that the directory afterwards holds exactly the entries
    that do not match, when each matching entry can be removed;
    otherwise matching entries may stay.  For any other framework tag
    the directory is left untouched. *)
Theorem eviction_deletes_matching_files model_name entries w :
  cache w = Dir entries ->
  (forall dm, is_Some (entries !! dm) -> PyStr.is_basename dm = true) ->
  (exists entries',
     cache (fst (ModelEvaluator._remove_model_from_cache "pytorch" model_name w))
       = Dir entries' /\
     (forall dm, entries' !! dm = entries !! dm \/
                 (entries' !! dm = None /\ matches model_name dm = true)) /\
     ((forall dm, is_Some (entries !! dm) -> matches model_name dm = true ->
                  entries !! dm = Some true) ->
      forall dm, entries' !! dm =
                 if matches model_name dm then None else entries !! dm)) /\
  (forall framework, framework <> "pytorch" ->
     cache (fst (ModelEvaluator._remove_model_from_cache framework model_name w))
       = cache w).
Proof.
  intros Hw Hnames. split.
  - change (fst (ModelEvaluator._remove_model_from_cache "pytorch" model_name w))
      with (fst (ModelEvaluator.remove_matching "pytorch" model_name
                   (fst (emit (RemoveModelFromCache "pytorch" model_name) w)))).
    set (w1 := fst (emit _ w)).
    assert (Hc : cache w1 = Dir entries) by done. clearbody w1.
    rewrite (remove_matching_listed _ _ _ Hc).
    destruct (sweep_spec model_name (map fst (map_to_list entries)) entries w1 Hc)
      as (entries' & Hrun & Honly & Hall).
    { apply Forall_forall. intros dm Hdm. by apply Hnames, listing_elem_of. }
    exists entries'. split; [by rewrite Hrun|]. split.
    + intros dm. destruct (Honly dm) as [Heq|(Hnone & _ & Hdm)]; auto.
    + intros Hcan dm. destruct (matches model_name dm) eqn:Hdm.
      * destruct (entries !! dm) as [b|] eqn:Hlook.
        -- apply Hall; [apply NoDup_fst_map_to_list| | |done].
           ++ intros dm' Hin' Hdm'. apply Hcan; [|done].
              by apply listing_elem_of.
           ++ apply listing_elem_of. by exists b.
        -- destruct (Honly dm) as [Heq|(Hnone & _)]; congruence.
      * destruct (Honly dm) as [Heq|(_ & _ & Hdm')]; congruence.
  - intros framework Hfw.
    change (fst (ModelEvaluator._remove_model_from_cache framework model_name w))
      with (fst (ModelEvaluator.remove_matching framework model_name
                   (fst (emit (RemoveModelFromCache framework model_name) w)))).
    by rewrite remove_matching_other_framework.
Qed.

End Cache.

(** ** One evaluation pass *)

Section Pass.

Context `{Externals}.

(** The world with the object at [a] replaced, and with events added. *)
Definition store (a : addr) (d : Dataset) (w : world) : world :=
  set_heap (<[a := d]> (heap w)) w.

Definition log (evs : list event) (w : world) : world :=
  {| heap := heap w; cache := cache w; trace := trace w ++ evs |}.

Lemma alter_lookup {A} (f : A -> A) (l : list A) i x :
  l !! i = Some x -> alter f i l = <[i := f x]> l.
Proof.
  revert i. induction l as [|y l IH]; intros [|i] Hi; simplify_eq/=; [done|].
  f_equal. by apply IH.
Qed.

Lemma store_lookup a d w x :
  heap w !! a = Some x -> heap (store a d w) !! a = Some d.
Proof.
  intros Hx. simpl. apply list_lookup_insert_eq. by eapply lookup_lt_Some.
Qed.

Lemma store_store a d1 d2 w : store a d2 (store a d1 w) = store a d2 w.
Proof. unfold store, set_heap. simpl. by rewrite list_insert_insert_eq. Qed.

Lemma log_log evs1 evs2 w : log evs2 (log evs1 w) = log (evs1 ++ evs2) w.
Proof. unfold log. simpl. by rewrite app_assoc. Qed.

Lemma log_nil w : log [] w = w.
Proof. unfold log. destruct w. simpl. by rewrite app_nil_r. Qed.

Lemma store_log a d evs w : store a d (log evs w) = log evs (store a d w).
Proof. done. Qed.

Lemma emit_log e w : emit e w = (log [e] w, Ok tt).
Proof. done. Qed.

Lemma deref_lookup a d w : heap w !! a = Some d -> deref a w = (w, Ok d).
Proof. unfold deref. by intros ->. Qed.

Lemma mutate_lookup a f d w :
  heap w !! a = Some d -> mutate a f w = (store a (f d) w, Ok tt).
Proof.
  intros Hd. unfold mutate, modify, store. by rewrite (alter_lookup _ _ _ _ Hd).
Qed.

Lemma for_metrics_lookup a f d w :
  heap w !! a = Some d ->
  for_metrics a f w = (store a (set_metrics (map f (metrics d)) d) w, Ok tt).
Proof.
  intros Hd. unfold for_metrics.
  rewrite (bind_ok _ _ _ _ _ (deref_lookup _ _ _ Hd)).
  by apply mutate_lookup.
Qed.

(** An accumulator of the same class that holds exactly the updates
    [us]. *)
Definition holding (us : list update_call) (m : Metric) : Metric :=
  {| m_class := m_class m; m_updates := us |}.

(** The dataset with every accumulator holding [us]. *)
Definition with_updates (us : list update_call) (d : Dataset) : Dataset :=
  set_metrics (map (holding us) (metrics d)) d.

Lemma with_updates_reset d :
  set_metrics (map metric_reset (metrics d)) d = with_updates [] d.
Proof. done. Qed.

Lemma with_updates_update us u d :
  set_metrics (map (metric_update u) (metrics (with_updates us d)))
    (with_updates us d) = with_updates (us ++ [u]) d.
Proof.
  unfold with_updates, set_metrics. simpl. f_equal.
  rewrite map_map. by apply map_ext.
Qed.

Lemma store_id a d w : heap w !! a = Some d -> store a d w = w.
Proof.
  intros Hd. unfold store, set_heap. rewrite list_insert_id by done.
  by destruct w.
Qed.

(** The arguments of the update call for one batch, as each evaluator
    computes them. *)
Definition pytorch_call (model : Model) (dm : DecisionMapping) (batch : Batch)
  : Predictions * Target * Paths :=
  let '(images, target, paths) := batch in
  (call_decision_mapping dm
     (softmax model (forward_batch model (to_device images))),
   PlainTarget match target with
               | TorchTarget t => to_numpy model t
               | PlainTarget a => a
               end,
   paths).

Definition tensorflow_call (model : Model) (dm : DecisionMapping) (batch : Batch)
  : Predictions * Target * Paths :=
  let '(images, target, paths) := batch in
  (call_decision_mapping dm (softmax model (forward_batch model images)),
   target, paths).

Definition update_of (c : Predictions * Target * Paths) : update_call :=
  let '(predictions, targets, paths) := c in Update3 predictions targets paths.

Definition print_of (mn dn : string) (c : Predictions * Target * Paths) : event :=
  let '(predictions, targets, paths) := c in
  PrintBatchToCsv mn dn predictions targets paths.

(** The body of the batch loop, common to the two evaluators. *)
Definition batch_step (call : DecisionMapping -> Batch -> Predictions * Target * Paths)
    (mn dn : string) (a : addr) (kwargs : gmap string pyval) (batch : Batch)
  : M world unit :=
  emit (BatchYielded mn dn) ;;
  d <- deref a ;;
  for_metrics a (metric_update (update_of (call (decision_mapping d) batch))) ;;
  print_predictions <- getitem kwargs "print_predictions" ;;
  when (truthy print_predictions)
    (emit (print_of mn (name d) (call (decision_mapping d) batch))).

(** The batches the loop gets from the loader: all of them, or the first
    one only when the option is missing (the loop then stops there). *)
Definition consumed (kwargs : gmap string pyval) (bs : list Batch) : list Batch :=
  match kwargs !! "print_predictions" with
  | Some _ => bs
  | None => take 1 bs
  end.

Definition batch_events (call : DecisionMapping -> Batch -> Predictions * Target * Paths)
    (mn : string) (d : Dataset) (kwargs : gmap string pyval) (b : Batch)
  : list event :=
  BatchYielded mn (name d) ::
  match kwargs !! "print_predictions" with
  | Some v => if truthy v
              then [print_of mn (name d) (call (decision_mapping d) b)] else []
  | None => []
  end.

Definition pass_result (kwargs : gmap string pyval) (bs : list Batch) : result unit :=
  match kwargs !! "print_predictions", bs with
  | None, _ :: _ => Raise (KeyError "print_predictions")
  | _, _ => Ok tt
  end.

Definition updates_of (call : DecisionMapping -> Batch -> Predictions * Target * Paths)
    (d : Dataset) (bs : list Batch) : list update_call :=
  map (fun b => update_of (call (decision_mapping d) b)) bs.

Lemma batch_step_run call mn a d us kwargs b w :
  heap w !! a = Some (with_updates us d) ->
  batch_step call mn (name d) a kwargs b w =
  (log (batch_events call mn d kwargs b)
     (store a (with_updates (us ++ updates_of call d [b]) d) w),
   match kwargs !! "print_predictions" with
   | Some _ => Ok tt
   | None => Raise (KeyError "print_predictions")
   end).
Proof.
  intros Ha. unfold batch_step, batch_events.
  rewrite (bind_ok _ _ _ _ _ (emit_log _ _)).
  assert (Ha1 : heap (log [BatchYielded mn (name d)] w) !! a =
                Some (with_updates us d)) by done.
  rewrite (bind_ok _ _ _ _ _ (deref_lookup _ _ _ Ha1)).
  rewrite (bind_ok _ _ _ _ _ (for_metrics_lookup _ _ _ _ Ha1)).
  rewrite with_updates_update, store_log. unfold getitem.
  destruct (kwargs !! "print_predictions") as [v|]; [|done].
  rewrite bind_ret. unfold when.
  destruct (truthy v); [|done].
  by rewrite emit_log, log_log.
Qed.

Lemma batch_loop_run call mn a d kwargs bs :
  forall us w,
    heap w !! a = Some (with_updates us d) ->
    for_each bs (batch_step call mn (name d) a kwargs) w =
    (log (flat_map (batch_events call mn d kwargs) (consumed kwargs bs))
       (store a (with_updates (us ++ updates_of call d (consumed kwargs bs)) d) w),
     pass_result kwargs bs).
Proof.
  unfold consumed, pass_result.
  induction bs as [|b bs IH]; intros us w Ha.
  - rewrite take_nil.
    destruct (kwargs !! "print_predictions"); simpl;
      by rewrite app_nil_r, (store_id _ _ _ Ha), log_nil.
  - simpl for_each. unfold bind.
    rewrite (batch_step_run _ _ _ _ _ _ _ _ Ha).
    destruct (kwargs !! "print_predictions") as [v|] eqn:Hk.
    + rewrite (IH (us ++ updates_of call d [b])).
      2: { exact (store_lookup a _ w _ Ha). }
      by rewrite store_log, store_store, log_log, <- app_assoc.
    + simpl. rewrite app_nil_r. by unfold batch_events.
Qed.

(** The outcome of one evaluation pass over the dataset [d] stored at
    [a]: the result printer is created, the accumulators end up holding
    the updates of the batches the loop got, and the pass returns unless
    the option is missing and there is a batch. *)
Definition pass_outcome (call : DecisionMapping -> Batch -> Predictions * Target * Paths)
    (mn : string) (a : addr) (d : Dataset) (kwargs : gmap string pyval)
    (w : world) : world * result unit :=
  let bs := iter_loader (loader d) in
  (log (ResultPrinter mn (name d) ::
        flat_map (batch_events call mn d kwargs) (consumed kwargs bs))
     (store a (with_updates (updates_of call d (consumed kwargs bs)) d) w),
   pass_result kwargs bs).

Lemma pytorch_evaluator_run mn model a args kwargs d w :
  heap w !! a = Some d ->
  ModelEvaluator._pytorch_evaluator mn model a args kwargs w =
  pass_outcome (pytorch_call model) mn a d kwargs w.
Proof.
  intros Ha. unfold ModelEvaluator._pytorch_evaluator, pass_outcome.
  rewrite (bind_ok _ _ _ _ _ (deref_lookup _ _ _ Ha)).
  rewrite (bind_ok _ _ _ _ _ (for_metrics_lookup _ _ _ _ Ha)).
  rewrite with_updates_reset, (bind_ok _ _ _ _ _ (emit_log _ _)).
  assert (Ha1 : heap (log [ResultPrinter mn (name d)]
                        (store a (with_updates [] d) w)) !! a =
                Some (with_updates [] d)) by exact (store_lookup a _ w _ Ha).
  rewrite (bind_ok _ _ _ _ _ (deref_lookup _ _ _ Ha1)).
  rewrite (for_each_ext _ _ (batch_step (pytorch_call model) mn (name d) a kwargs)).
  - rewrite (batch_loop_run _ _ _ _ _ _ [] _ Ha1).
    by rewrite store_log, store_store, log_log.
  - by intros [[images target] paths].
Qed.

Lemma tensorflow_evaluator_run mn model a args kwargs d w :
  heap w !! a = Some d ->
  ModelEvaluator._tensorflow_evaluator mn model a args kwargs w =
  pass_outcome (tensorflow_call model) mn a d kwargs w.
Proof.
  intros Ha. unfold ModelEvaluator._tensorflow_evaluator, pass_outcome.
  rewrite (bind_ok _ _ _ _ _ (deref_lookup _ _ _ Ha)).
  rewrite (bind_ok _ _ _ _ _ (emit_log _ _)).
  assert (Ha0 : heap (log [ResultPrinter mn (name d)] w) !! a = Some d) by done.
  rewrite (bind_ok _ _ _ _ _ (for_metrics_lookup _ _ _ _ Ha0)).
  rewrite with_updates_reset.
  assert (Ha1 : heap (store a (with_updates [] d)
                        (log [ResultPrinter mn (name d)] w)) !! a =
                Some (with_updates [] d)) by exact (store_lookup a _ _ _ Ha0).
  rewrite (bind_ok _ _ _ _ _ (deref_lookup _ _ _ Ha1)).
  rewrite (for_each_ext _ _ (batch_step (tensorflow_call model) mn (name d) a kwargs)).
  - rewrite (batch_loop_run _ _ _ _ _ _ [] _ Ha1).
    by rewrite store_store, store_log, log_log.
  - by intros [[images target] paths].
Qed.

Lemma pass_outcome_lookup call mn a d kwargs w :
  heap w !! a = Some d ->
  heap (fst (pass_outcome call mn a d kwargs w)) !! a =
  Some (with_updates
          (updates_of call d (consumed kwargs (iter_loader (loader d)))) d).
Proof. intros Ha. exact (store_lookup a _ w _ Ha). Qed.

Lemma holding_classes us (ms0 ms : list Metric) :
  map m_class ms0 = map m_class ms -> map (holding us) ms0 = map (holding us) ms.
Proof.
  revert ms. induction ms0 as [|m0 ms0 IH]; intros [|m ms] Hc;
    simplify_eq/=; [done|].
  f_equal; [|by apply IH]. unfold holding. by f_equal.
Qed.

(** The outcome of a pass does not depend on what the accumulators held
    when it started. *)
Lemma pass_outcome_prior_state call mn a d kwargs w ms0 :
  map m_class ms0 = map m_class (metrics d) ->
  pass_outcome call mn a (set_metrics ms0 d) kwargs (store a (set_metrics ms0 d) w)
  = pass_outcome call mn a d kwargs w.
Proof.
  intros Hc. unfold pass_outcome, with_updates. simpl.
  by rewrite store_store, (holding_classes _ _ _ Hc).
Qed.

(** The accumulators start a pass from zero: what a pass leaves in them,
    and everything else it does, is the same whatever they held before,
    and what they hold in the end are the updates of this pass. *)
Definition resets_then_accumulates
    (evaluate : ModelEvaluator.evaluator)
    (call : DecisionMapping -> Batch -> Predictions * Target * Paths)
    (mn : string) (model : Model) (a : addr) (args : list pyval)
    (kwargs : gmap string pyval) (d : Dataset) (w : world) : Prop :=
  heap (fst (evaluate mn model a args kwargs w)) !! a =
    Some (with_updates
            (updates_of call d (consumed kwargs (iter_loader (loader d)))) d) /\
  forall ms0,
    map m_class ms0 = map m_class (metrics d) ->
    evaluate mn model a args kwargs (store a (set_metrics ms0 d) w) =
    evaluate mn model a args kwargs w.

(** C2.  Each evaluator resets every accumulator of the dataset before
    it iterates the loader: whatever the accumulators held from an
    earlier model, the pass has the same outcome, and in the end each
    accumulator holds the updates of the batches of this pass and
    nothing else (the zero state when there was no batch). *)
Theorem metrics_reset_before_pass mn model a args kwargs d w :
  heap w !! a = Some d ->
  resets_then_accumulates ModelEvaluator._pytorch_evaluator
    (pytorch_call model) mn model a args kwargs d w /\
  resets_then_accumulates ModelEvaluator._tensorflow_evaluator
    (tensorflow_call model) mn model a args kwargs d w.
Proof.
  intros Ha.
  assert (Hstored : forall ms0,
    heap (store a (set_metrics ms0 d) w) !! a = Some (set_metrics ms0 d))
    by (intros ms0; exact (store_lookup a _ w _ Ha)).
  split; split.
  - rewrite (pytorch_evaluator_run _ _ _ _ _ _ _ Ha).
    by apply pass_outcome_lookup.
  - intros ms0 Hc.
    rewrite (pytorch_evaluator_run _ _ _ _ _ _ _ Ha),
      (pytorch_evaluator_run _ _ _ _ _ _ _ (Hstored ms0)).
    by apply pass_outcome_prior_state.
  - rewrite (tensorflow_evaluator_run _ _ _ _ _ _ _ Ha).
    by apply pass_outcome_lookup.
  - intros ms0 Hc.
    rewrite (tensorflow_evaluator_run _ _ _ _ _ _ _ Ha),
      (tensorflow_evaluator_run _ _ _ _ _ _ _ (Hstored ms0)).
    by apply pass_outcome_prior_state.
Qed.

(** The number of batches the loader handed to the loop. *)
Definition is_batch_yielded (e : event) : bool :=
  match e with BatchYielded _ _ => true | _ => false end.

Definition batches_yielded (t : list event) : nat :=
  length (List.filter is_batch_yielded t).

Lemma batches_yielded_pass call mn d kwargs bs :
  batches_yielded (flat_map (batch_events call mn d kwargs) bs) = length bs.
Proof.
  unfold batches_yielded. induction bs as [|b bs IH]; [done|].
  cbn [flat_map]. rewrite List.filter_app, length_app, IH.
  unfold batch_events, print_of.
  destruct (kwargs !! "print_predictions") as [v|]; [|done].
  destruct (truthy v); [|done].
  by destruct (call (decision_mapping d) b) as [[? ?] ?].
Qed.

Lemma consumed_take kwargs (bs : list Batch) :
  take (length (consumed kwargs bs)) bs = consumed kwargs bs.
Proof.
  unfold consumed. destruct (kwargs !! "print_predictions").
  - by apply take_ge.
  - by destruct bs.
Qed.

Lemma consumed_length kwargs (bs : list Batch) :
  length (consumed kwargs bs) <= length bs.
Proof.
  unfold consumed. destruct (kwargs !! "print_predictions"); [done|].
  rewrite length_take. lia.
Qed.

Lemma consumed_returned kwargs (bs : list Batch) :
  pass_result kwargs bs = Ok tt -> consumed kwargs bs = bs.
Proof.
  unfold consumed, pass_result.
  destruct (kwargs !! "print_predictions"); [done|]. by destruct bs.
Qed.

Lemma consumed_present kwargs (bs : list Batch) :
  is_Some (kwargs !! "print_predictions") ->
  pass_result kwargs bs = Ok tt.
Proof. unfold pass_result. by intros [v ->]. Qed.

(** In the pass [evaluate] over the dataset [d] stored at [a], the
    loader handed [k] batches to the loop and every accumulator received
    the [k] update calls computed from them, in order. *)
Definition one_update_per_batch
    (evaluate : ModelEvaluator.evaluator)
    (call : DecisionMapping -> Batch -> Predictions * Target * Paths)
    (mn : string) (model : Model) (a : addr) (args : list pyval)
    (kwargs : gmap string pyval) (d : Dataset) (w : world) : Prop :=
  let run := evaluate mn model a args kwargs in
  let k := batches_yielded (events_of run w) in
  k <= length (iter_loader (loader d)) /\
  (exists d',
     heap (fst (run w)) !! a = Some d' /\
     length (metrics d') = length (metrics d) /\
     Forall (fun m =>
               m_updates m = updates_of call d (take k (iter_loader (loader d)))
               /\ length (m_updates m) = k)
            (metrics d')) /\
  (snd (run w) = Ok tt -> k = length (iter_loader (loader d))) /\
  (is_Some (kwargs !! "print_predictions") -> snd (run w) = Ok tt).

Lemma pass_outcome_one_update evaluate call mn model a args kwargs d w :
  heap w !! a = Some d ->
  evaluate mn model a args kwargs w = pass_outcome call mn a d kwargs w ->
  one_update_per_batch evaluate call mn model a args kwargs d w.
Proof.
  intros Ha Hrun. unfold one_update_per_batch.
  assert (Hk : batches_yielded (events_of (evaluate mn model a args kwargs) w)
               = length (consumed kwargs (iter_loader (loader d)))).
  { erewrite events_of_eq; [|by rewrite Hrun].
    unfold batches_yielded. cbn [List.filter is_batch_yielded].
    apply batches_yielded_pass. }
  rewrite Hk, Hrun, consumed_take. split; [apply consumed_length|].
  split; [|split].
  - eexists. split; [by apply pass_outcome_lookup|].
    unfold with_updates. cbn [metrics set_metrics].
    split; [by rewrite length_map|].
    apply Forall_map, Forall_forall. intros m _. cbn [holding m_updates].
    split; [done|]. unfold updates_of. by rewrite length_map.
  - cbn [snd pass_outcome]. intros Hok. by rewrite (consumed_returned _ _ Hok).
  - apply consumed_present.
Qed.

(** C3.  In a pass of either evaluator, every accumulator of the dataset
    receives one update call per batch the loader hands to the loop, in
    the order of the batches.  A pass that returns went through all the
    batches of the loader, so each accumulator then holds as many
    updates as the loader has batches; the pass returns whenever the
    option "print_predictions" is given. *)
Theorem metric_updates_follow_batches mn model a args kwargs d w :
  heap w !! a = Some d ->
  one_update_per_batch ModelEvaluator._pytorch_evaluator
    (pytorch_call model) mn model a args kwargs d w /\
  one_update_per_batch ModelEvaluator._tensorflow_evaluator
    (tensorflow_call model) mn model a args kwargs d w.
Proof.
  intros Ha. split; apply pass_outcome_one_update; try done.
  - by apply pytorch_evaluator_run.
  - by apply tensorflow_evaluator_run.
Qed.

(** C10.  Without the option "print_predictions" nothing is skipped
    silently: the evaluators raise [KeyError] at the check of the first
    batch, and when the loader has no batch the check of the
    orchestrator, after the evaluator returned, raises it. *)
Theorem print_predictions_is_required mn model a args kwargs d w :
  kwargs !! "print_predictions" = None ->
  heap w !! a = Some d ->
  (iter_loader (loader d) <> [] ->
   snd (ModelEvaluator._pytorch_evaluator mn model a args kwargs w) =
     Raise (KeyError "print_predictions") /\
   snd (ModelEvaluator._tensorflow_evaluator mn model a args kwargs w) =
     Raise (KeyError "print_predictions")) /\
  snd (ModelEvaluator.evaluate_dataset ModelEvaluator._pytorch_evaluator
         mn model args kwargs a w) = Raise (KeyError "print_predictions") /\
  snd (ModelEvaluator.evaluate_dataset ModelEvaluator._tensorflow_evaluator
         mn model args kwargs a w) = Raise (KeyError "print_predictions").
Proof.
  intros Hk Ha.
  assert (Hres : forall bs : list Batch, bs <> [] ->
            pass_result kwargs bs = Raise (KeyError "print_predictions")).
  { intros [|b bs] Hbs; [done|]. unfold pass_result. by rewrite Hk. }
  split; [|split].
  - intros Hbs.
    rewrite (pytorch_evaluator_run _ _ _ _ _ _ _ Ha),
      (tensorflow_evaluator_run _ _ _ _ _ _ _ Ha).
    split; by apply Hres.
  - unfold ModelEvaluator.evaluate_dataset, bind.
    rewrite (pytorch_evaluator_run _ _ _ _ _ _ _ Ha). unfold pass_outcome.
    destruct (pass_result kwargs (iter_loader (loader d))) as [[]|e] eqn:Hr.
    + unfold getitem. by rewrite Hk.
    + destruct (iter_loader (loader d)) as [|b bs] eqn:Hbs.
      * unfold pass_result in Hr. by destruct (kwargs !! "print_predictions").
      * rewrite Hres in Hr by done. by simplify_eq.
  - unfold ModelEvaluator.evaluate_dataset, bind.
    rewrite (tensorflow_evaluator_run _ _ _ _ _ _ _ Ha). unfold pass_outcome.
    destruct (pass_result kwargs (iter_loader (loader d))) as [[]|e] eqn:Hr.
    + unfold getitem. by rewrite Hk.
    + destruct (iter_loader (loader d)) as [|b bs] eqn:Hbs.
      * unfold pass_result in Hr. by destruct (kwargs !! "print_predictions").
      * rewrite Hres in Hr by done. by simplify_eq.
Qed.

End Pass.

(** ** One extraction pass *)

Section Extraction.

Context `{Externals}.

(** The update call for one layer of one batch. *)
Definition layer_update (model : Model) (final_feat : Tensor) (target : Target)
    (paths : Paths) (layer : nat) (features : Tensor * Tensor) : update_call :=
  let batch_size := tensor_shape final_feat 0 in
  let hidden_size := tensor_shape final_feat 2 in
  let predictions :=
    softmax model
      (cpu_numpy
         (forward_head model
            (cat (snd features) (reshape (fst features) batch_size hidden_size))))
  in
  Update5 (fst (decide_raw_probs predictions)) (snd (decide_raw_probs predictions))
    match target with
    | TorchTarget t => to_numpy model t
    | PlainTarget a => a
    end
    paths layer.

(** The intermediate layers the model reports for a batch. *)
Definition layers_of (model : Model) (batch : Batch) : list (Tensor * Tensor) :=
  snd (forward_intermediates model (to_device (fst (fst batch)))).

(** The update calls for one batch: one per layer. *)
Definition batch_layer_updates (model : Model) (batch : Batch) : list update_call :=
  imap (layer_update model
          (fst (forward_intermediates model (to_device (fst (fst batch)))))
          (snd (fst batch)) (snd batch))
       (layers_of model batch).

(** The layer index an update call carries. *)
Definition layer_of (u : update_call) : option nat :=
  match u with
  | Update5 _ _ _ _ layer => Some layer
  | Update3 _ _ _ => None
  end.

(** The dataset as extraction configures it: raw probabilities, and the
    three metrics of extraction, each holding [us]. *)
Definition extraction_dataset (us : list update_call) (d : Dataset) : Dataset :=
  {| name := name d;
     loader := loader d;
     decision_mapping := {| return_raw_probs := true |};
     metrics := [ {| m_class := ReciprocalRank; m_updates := us |};
                  {| m_class := Probability; m_updates := us |};
                  {| m_class := Entropy; m_updates := us |} ] |}.

Lemma extraction_dataset_update us u d :
  set_metrics (map (metric_update u) (metrics (extraction_dataset us d)))
    (extraction_dataset us d) = extraction_dataset (us ++ [u]) d.
Proof. done. Qed.

(** The body of the loop over the layers, and the body of the loop over
    the batches. *)
Definition layer_step (model : Model) (a : addr) (final_feat : Tensor)
    (target : Target) (paths : Paths) (layer_features : nat * (Tensor * Tensor))
  : M world unit :=
  let '(layer, intermediate_features) := layer_features in
  d <- deref a ;;
  pc <- unpack2
          (call_decision_mapping (decision_mapping d)
             (softmax model
                (cpu_numpy
                   (forward_head model
                      (cat (snd intermediate_features)
                         (reshape (fst intermediate_features)
                            (tensor_shape final_feat 0)
                            (tensor_shape final_feat 2))))))) ;;
  let '(predictions, categories) := pc in
  for_metrics a
    (metric_update
       (Update5 predictions categories
          match target with
          | TorchTarget t => to_numpy model t
          | PlainTarget a => a
          end paths layer)).

Definition extraction_step (mn dn : string) (model : Model) (a : addr)
    (batch : Batch) : M world unit :=
  emit (BatchYielded mn dn) ;;
  for_each (enumerate (layers_of model batch))
    (layer_step model a
       (fst (forward_intermediates model (to_device (fst (fst batch)))))
       (snd (fst batch)) (snd batch)).

Lemma layer_loop_run model a d final_feat target paths layers :
  forall k us w,
    heap w !! a = Some (extraction_dataset us d) ->
    for_each (imap (fun i x => (k + i, x)) layers)
      (layer_step model a final_feat target paths) w =
    (store a
       (extraction_dataset
          (us ++ imap (fun i => layer_update model final_feat target paths (k + i))
                   layers) d) w,
     Ok tt).
Proof.
  induction layers as [|x layers IH]; intros k us w Ha.
  - simpl. by rewrite app_nil_r, (store_id _ _ _ Ha).
  - rewrite !imap_cons. simpl for_each. unfold bind at 1.
    unfold layer_step at 1.
    rewrite (bind_ok _ _ _ _ _ (deref_lookup _ _ _ Ha)).
    cbn [decision_mapping extraction_dataset call_decision_mapping
         return_raw_probs unpack2].
    rewrite bind_ret, (for_metrics_lookup _ _ _ _ Ha), extraction_dataset_update.
    rewrite (imap_ext _ (fun i x => (S k + i, x)))
      by (intros; unfold compose; f_equal; lia).
    rewrite (IH (S k) _ _ (store_lookup a _ w _ Ha)).
    rewrite store_store, <- app_assoc.
    do 4 f_equal. cbn [app]. f_equal.
    apply imap_ext. intros i y _. unfold compose.
    by replace (k + S i) with (S k + i) by lia.
Qed.

Lemma extraction_loop_run mn dn model a d bs :
  forall us w,
    heap w !! a = Some (extraction_dataset us d) ->
    for_each bs (extraction_step mn dn model a) w =
    (log (map (fun _ => BatchYielded mn dn) bs)
       (store a
          (extraction_dataset (us ++ flat_map (batch_layer_updates model) bs) d)
          w),
     Ok tt).
Proof.
  induction bs as [|b bs IH]; intros us w Ha.
  - simpl. by rewrite app_nil_r, (store_id _ _ _ Ha), log_nil.
  - simpl for_each. unfold bind at 1, extraction_step at 1.
    rewrite (bind_ok _ _ _ _ _ (emit_log _ _)).
    unfold enumerate.
    rewrite (layer_loop_run _ _ d _ _ _ _ 0 us) by done.
    rewrite (IH _ _ (store_lookup a _ (log _ w) _ Ha)).
    by rewrite store_store, store_log, log_log, <- app_assoc.
Qed.

(** C4.  Whatever metrics the dataset came with, an extraction pass
    leaves it with exactly three accumulators, of the classes
    [ReciprocalRank], [Probability] and [Entropy] in this order, and with
    a decision mapping that returns raw probabilities.  Each of the
    three received, for every batch of the loader, one update call per
    intermediate layer the model reported for that batch, the call for
    layer [i] carrying the index [i].  The pass returns. *)
Theorem extraction_updates_per_layer mn model a args kwargs d w :
  heap w !! a = Some d ->
  let run := MetricExtractor._pytorch_extractor mn model a args kwargs in
  snd (run w) = Ok tt /\
  heap (fst (run w)) !! a =
    Some (extraction_dataset
            (flat_map (batch_layer_updates model) (iter_loader (loader d))) d) /\
  forall batch,
    length (batch_layer_updates model batch) = length (layers_of model batch) /\
    map layer_of (batch_layer_updates model batch) =
      map Some (seq 0 (length (layers_of model batch))).
Proof.
  intros Ha run. unfold run, MetricExtractor._pytorch_extractor.
  rewrite (bind_ok _ _ _ _ _ (deref_lookup _ _ _ Ha)).
  rewrite (bind_ok _ _ _ _ _ (mutate_lookup _ _ _ _ Ha)).
  match goal with |- context [store a ?d1 w] =>
    assert (Ha1 : heap (store a d1 w) !! a = Some d1)
      by exact (store_lookup a _ w _ Ha) end.
  rewrite (bind_ok _ _ _ _ _ (mutate_lookup _ _ _ _ Ha1)), store_store.
  match goal with |- context [store a ?d2 w] =>
    change d2 with (extraction_dataset [] d) end.
  assert (Ha2 : heap (store a (extraction_dataset [] d) w) !! a =
                Some (extraction_dataset [] d))
    by exact (store_lookup a _ w _ Ha).
  rewrite (bind_ok _ _ _ _ _ (deref_lookup _ _ _ Ha2)).
  rewrite (for_each_ext _ _ (extraction_step mn (name d) model a)).
  2: { intros [[images target] paths]. unfold extraction_step, layers_of.
       cbn [fst snd]. by destruct (forward_intermediates model (to_device images)). }
  rewrite (extraction_loop_run _ _ _ _ d _ [] _ Ha2).
  split; [done|]. split.
  - exact (store_lookup a _ _ _ Ha2).
  - intros batch. unfold batch_layer_updates. split; [by rewrite length_imap|].
    change (layer_of <$> imap
              (layer_update model
                 (fst (forward_intermediates model (to_device (fst (fst batch)))))
                 (snd (fst batch)) (snd batch)) (layers_of model batch)
            = Some <$> seq 0 (length (layers_of model batch))).
    by rewrite <- (imap_seq_0 (layers_of model batch) Some), fmap_imap.
Qed.

End Extraction.

(** ** Objects a computation leaves alone *)

Section Frame.

Context `{Externals}.

(** The first [n] objects of the heap are the same in [w'] as in [w],
    and no object has disappeared. *)
Definition frame (n : nat) (w w' : world) : Prop :=
  take n (heap w') = take n (heap w) /\ length (heap w) <= length (heap w').

(** Run in a heap of at least [n] objects, the computation leaves the
    first [n] alone; what it returns satisfies [Q]. *)
Definition keeps (n : nat) {A} (Q : A -> Prop) (c : M world A) : Prop :=
  forall w, n <= length (heap w) ->
    frame n w (fst (c w)) /\ forall x, snd (c w) = Ok x -> Q x.

Definition any {A} (x : A) : Prop := True.

Lemma frame_refl n w : frame n w w.
Proof. by split. Qed.

Lemma frame_trans n w1 w2 w3 : frame n w1 w2 -> frame n w2 w3 -> frame n w1 w3.
Proof. intros [H1 L1] [H2 L2]. split; [congruence|lia]. Qed.

Lemma keeps_same_heap n {A} (c : M world A) :
  (forall w, heap (fst (c w)) = heap w) -> keeps n any c.
Proof. intros Hc w _. split; [|done]. split; by rewrite Hc. Qed.

Lemma keeps_ret n {A} (Q : A -> Prop) x : Q x -> keeps n Q (ret x).
Proof. intros HQ w _. split; [apply frame_refl|]. by intros ? [= <-]. Qed.

Lemma keeps_raise n {A} (Q : A -> Prop) e : keeps n Q (raise e).
Proof. intros w _. split; [apply frame_refl|done]. Qed.

Lemma keeps_bind n {A B} (Q : A -> Prop) (R : B -> Prop) c (k : A -> M world B) :
  keeps n Q c -> (forall x, Q x -> keeps n R (k x)) -> keeps n R (bind c k).
Proof.
  intros Hc Hk w Hn. destruct (Hc w Hn) as [Hf HQ]. unfold bind.
  destruct (c w) as [w1 [x|e]]; simpl in *; [|done].
  destruct (Hk x (HQ x eq_refl) w1) as [Hf1 HR]; [destruct Hf; lia|].
  split; [by eapply frame_trans|done].
Qed.

Lemma keeps_when n b (c : M world unit) : keeps n any c -> keeps n any (when b c).
Proof. destruct b; [done|]. intros _. by apply keeps_ret. Qed.

Lemma keeps_for_each n {A} (P : A -> Prop) (l : list A) (body : A -> M world unit) :
  Forall P l -> (forall x, P x -> keeps n any (body x)) ->
  keeps n any (for_each l body).
Proof.
  intros Hl Hbody. induction Hl as [|x l Hx _ IH]; simpl.
  - by apply keeps_ret.
  - eapply keeps_bind; [by apply Hbody|]. by intros _ _.
Qed.

Lemma keeps_try n (c : M world unit) : keeps n any c -> keeps n any (try_except_pass c).
Proof. intros Hc w Hn. destruct (Hc w Hn) as [Hf _]. by split. Qed.

Lemma keeps_emit n e : keeps n any (emit e).
Proof. by apply keeps_same_heap. Qed.

Lemma keeps_lift n {A} (r : result A) : keeps n any (lift r).
Proof. by apply keeps_same_heap. Qed.

Lemma keeps_getitem n kwargs key : keeps n any (getitem kwargs key).
Proof.
  apply keeps_same_heap. intros w. unfold getitem. by destruct (kwargs !! key).
Qed.

Lemma keeps_deref n a : keeps n any (deref a).
Proof.
  apply keeps_same_heap. intros w. unfold deref. by destruct (heap w !! a).
Qed.

Lemma keeps_os_listdir n path : keeps n any (os_listdir path).
Proof.
  apply keeps_same_heap. intros w. unfold os_listdir.
  destruct (String.eqb path cachedir); [|done]. by destruct (cache w).
Qed.

Lemma keeps_os_remove n path : keeps n any (os_remove path).
Proof.
  apply keeps_same_heap. intros w. unfold os_remove.
  destruct (PyStr.strip_prefix cachedir path); [|done].
  destruct (cache w) as [| |entries]; try done.
  by destruct (entries !! s) as [[]|].
Qed.

(** A new object gets an address beyond the ones in use. *)
Lemma keeps_alloc n d : keeps n (fun a => n <= a) (alloc d).
Proof.
  intros w Hn. split; [|by intros ? [= <-]]. split; simpl.
  - by rewrite take_app_le.
  - rewrite length_app. lia.
Qed.

(** Mutating an object beyond the first [n] leaves those alone. *)
Lemma keeps_mutate n a f : n <= a -> keeps n any (mutate a f).
Proof.
  intros Ha w Hn. split; [|done]. split; simpl.
  - by apply take_alter_ge.
  - by rewrite length_alter.
Qed.

Lemma keeps_for_metrics n a f : n <= a -> keeps n any (for_metrics a f).
Proof.
  intros Ha. eapply keeps_bind; [apply keeps_deref|].
  intros d _. by apply keeps_mutate.
Qed.

(** The copies made by [deepcopy] are new objects. *)
Lemma keeps_deepcopy n l :
  forall memo, Forall (fun p => n <= snd p) memo ->
    keeps n (Forall (fun a => n <= a)) (deepcopy memo l).
Proof.
  induction l as [|a l IH]; intros memo Hmemo; simpl.
  - by apply keeps_ret.
  - match goal with |- context [@list_find ?A ?P ?D memo] =>
      destruct (@list_find A P D memo) as [[i [a0 a']]|] eqn:Hfind end.
    + apply list_find_Some in Hfind as (Hi & _ & _).
      assert (Ha' : n <= a').
      { exact (Forall_lookup_1 _ _ _ _ Hmemo Hi). }
      apply (keeps_bind _ (Forall (fun a => n <= a))); [by apply IH|].
      intros rest Hrest. apply keeps_ret. by constructor.
    + apply (keeps_bind _ any); [apply keeps_deref|]. intros d _.
      apply (keeps_bind _ (fun a => n <= a)); [apply keeps_alloc|].
      intros a' Ha'.
      apply (keeps_bind _ (Forall (fun a => n <= a)));
        [apply IH; by constructor|].
      intros rest Hrest. apply keeps_ret. by constructor.
Qed.

Lemma keeps_lift_ok n {A} (x : A) : keeps n (eq x) (lift (Ok x)).
Proof. intros w _. split; [apply frame_refl|]. by intros ? [= <-]. Qed.

Lemma Forall_any {A} (l : list A) : Forall any l.
Proof. by apply Forall_forall. Qed.

(** Splits a goal [keeps n any c] along the structure of [c]. *)
Ltac keeps_step :=
  lazymatch goal with
  | |- keeps _ _ (bind _ _) => apply (keeps_bind _ any); [|intros ? _]
  | |- keeps _ _ (when _ _) => apply keeps_when
  | |- keeps _ _ (for_each _ _) =>
      apply (keeps_for_each _ any); [apply Forall_any|intros ? _]
  | |- keeps _ _ (try_except_pass _) => apply keeps_try
  | |- keeps _ _ (ret _) => by apply keeps_ret
  | |- keeps _ _ (let '(_, _) := ?x in _) => destruct x
  | |- keeps _ _ (match ?x with _ => _ end) => destruct x
  | |- keeps _ _ _ =>
      solve [auto using keeps_raise, keeps_emit, keeps_lift, keeps_getitem,
               keeps_deref, keeps_os_listdir, keeps_os_remove, keeps_mutate,
               keeps_for_metrics]
  end.

Lemma keeps_tensorflow_evaluator n mn model a args kwargs :
  n <= a ->
  keeps n any (ModelEvaluator._tensorflow_evaluator mn model a args kwargs).
Proof. intros Ha. unfold ModelEvaluator._tensorflow_evaluator. repeat keeps_step. Qed.

Lemma keeps_remove_model_from_cache n framework model_name :
  keeps n any (ModelEvaluator._remove_model_from_cache framework model_name).
Proof.
  unfold ModelEvaluator._remove_model_from_cache, ModelEvaluator.remove_matching.
  repeat keeps_step.
Qed.

(** The step of the wrapping loop. *)
Definition wrap_loader (dataset : addr) : M world unit :=
  d <- deref dataset ;;
  mutate dataset (set_loader (ToTensorflow (loader d))).

(** The loader of the object at [a] is wrapped in the adapter. *)
Definition wrapped_at (w : world) (a : addr) : Prop :=
  exists d l, heap w !! a = Some d /\ loader d = ToTensorflow l.

Lemma wrap_loader_wraps a w :
  snd (wrap_loader a w) = Ok tt -> wrapped_at (fst (wrap_loader a w)) a.
Proof.
  unfold wrap_loader, bind, deref.
  destruct (heap w !! a) as [d|] eqn:Ha; [|done]. intros _.
  rewrite (mutate_lookup _ _ _ _ Ha).
  eexists _, _. split; [exact (store_lookup a _ w _ Ha)|done].
Qed.

Lemma wrap_loader_stable a0 a w :
  wrapped_at w a -> wrapped_at (fst (wrap_loader a0 w)) a.
Proof.
  intros (d & l & Ha & Hl). unfold wrap_loader, bind, deref.
  destruct (heap w !! a0) as [d0|] eqn:Ha0; [|by exists d, l].
  rewrite (mutate_lookup _ _ _ _ Ha0).
  destruct (decide (a0 = a)) as [->|Hne].
  - eexists _, _. split; [exact (store_lookup a _ w _ Ha)|done].
  - exists d, l. split; [|done]. simpl. by rewrite list_lookup_insert_ne.
Qed.

Lemma wrap_loop_stable l a w :
  wrapped_at w a -> wrapped_at (fst (for_each l wrap_loader w)) a.
Proof.
  revert w. induction l as [|a0 l IH]; intros w Ha; [done|].
  simpl. unfold bind.
  pose proof (wrap_loader_stable a0 a w Ha) as Ha1.
  destruct (wrap_loader a0 w) as [w1 [[]|e]]; [by apply IH|done].
Qed.

Lemma wrap_loop_wraps l w :
  snd (for_each l wrap_loader w) = Ok tt ->
  Forall (wrapped_at (fst (for_each l wrap_loader w))) l.
Proof.
  revert w. induction l as [|a l IH]; intros w Hok; [done|].
  simpl in *. unfold bind in *.
  pose proof (wrap_loader_wraps a w) as Ha.
  destruct (wrap_loader a w) as [w1 [[]|e]]; [|done].
  constructor; [|by apply IH]. apply wrap_loop_stable. by apply Ha.
Qed.

Lemma deepcopy_length l :
  forall memo w copies,
    snd (deepcopy memo l w) = Ok copies -> length copies = length l.
Proof.
  induction l as [|a l IH]; intros memo w copies; simpl.
  - by intros [= <-].
  - match goal with |- context [@list_find ?A ?P ?D memo] =>
      destruct (@list_find A P D memo) as [[i [a0 a']]|] end; unfold bind.
    + destruct (deepcopy memo l w) as [w1 [rest|e]] eqn:Hrest; [|done].
      intros [= <-]. simpl. f_equal. eapply IH. by rewrite Hrest.
    + destruct (deref a w) as [w1 [d|e]]; [|done].
      destruct (alloc d w1) as [w2 [a'|e]]; [|done].
      destruct (deepcopy _ l w2) as [w3 [rest|e]] eqn:Hrest; [|done].
      intros [= <-]. simpl. f_equal. eapply IH. by rewrite Hrest.
Qed.

Lemma keeps_to_tensorflow n datasets :
  keeps n (Forall (fun a => n <= a)) (ModelEvaluator._to_tensorflow datasets).
Proof.
  unfold ModelEvaluator._to_tensorflow.
  apply (keeps_bind _ (Forall (fun a => n <= a)));
    [by apply keeps_deepcopy|].
  intros copies Hcopies.
  apply (keeps_bind _ any).
  - apply (keeps_for_each _ (fun a => n <= a)); [done|].
    intros a Ha. repeat keeps_step.
  - intros _ _. by apply keeps_ret.
Qed.

Lemma frame_lookup w w' a d :
  frame (length (heap w)) w w' -> heap w !! a = Some d -> heap w' !! a = Some d.
Proof.
  intros [Htake _] Ha. rewrite firstn_all in Htake.
  rewrite <- (take_drop (length (heap w)) (heap w')), Htake.
  by apply lookup_app_l_Some.
Qed.

(** C9.  Converting the datasets for a tensorflow model works on copies:
    [_to_tensorflow] returns as many new objects as it was given
    datasets, each with its loader wrapped in the adapter, and leaves
    every object that existed before as it was.  So does the whole
    evaluation of a tensorflow model: the datasets shared by the models,
    their loaders included, are the same after it as before, and that is
    what the next model starts from. *)
Theorem tensorflow_evaluation_works_on_copies models _datasets args kwargs m w :
  snd (load_model m args) = "tensorflow" ->
  let conversion := ModelEvaluator._to_tensorflow _datasets w in
  let evaluation :=
    ModelEvaluator.evaluate_model models _datasets args kwargs m w in
  (forall a d, heap w !! a = Some d -> heap (fst conversion) !! a = Some d) /\
  (forall copies, snd conversion = Ok copies ->
     length copies = length _datasets /\
     Forall (fun a => length (heap w) <= a) copies /\
     Forall (wrapped_at (fst conversion)) copies) /\
  (forall a d, heap w !! a = Some d -> heap (fst evaluation) !! a = Some d).
Proof.
  intros Hfw conversion evaluation. subst conversion evaluation.
  split; [|split].
  - intros a d. apply frame_lookup.
    by apply (keeps_to_tensorflow (length (heap w)) _datasets w).
  - intros copies Hok.
    destruct (keeps_to_tensorflow (length (heap w)) _datasets w) as [_ Hnew];
      [done|].
    specialize (Hnew copies Hok).
    change (ModelEvaluator._to_tensorflow _datasets w)
      with (bind (deepcopy [] _datasets)
              (fun cs => bind (for_each cs wrap_loader) (fun _ => ret cs)) w)
      in *.
    destruct (deepcopy [] _datasets w) as [w1 [cs|e]] eqn:Hcopy.
    2: { by rewrite (bind_raise _ _ _ _ _ Hcopy) in Hok. }
    rewrite (bind_ok _ _ _ _ _ Hcopy) in *.
    destruct (for_each cs wrap_loader w1) as [w2 [[]|e]] eqn:Hloop.
    2: { by rewrite (bind_raise _ _ _ _ _ Hloop) in Hok. }
    rewrite (bind_ok _ _ _ _ _ Hloop) in *. injection Hok as <-.
    split; [|split; [done|]].
    + eapply deepcopy_length. by rewrite Hcopy.
    + pose proof (wrap_loop_wraps cs w1) as Hwrapped.
      rewrite Hloop in Hwrapped. by apply Hwrapped.
  - intros a d. apply frame_lookup.
    enough (keeps (length (heap w)) any
              (ModelEvaluator.evaluate_model models _datasets args kwargs m))
      as Hkeeps by (by apply Hkeeps).
    unfold ModelEvaluator.evaluate_model.
    apply (keeps_bind _ any); [apply keeps_emit|]. intros _ _.
    destruct (load_model m args) as [model fw]. cbn [snd] in Hfw. subst fw.
    apply (keeps_bind _ (eq ModelEvaluator._tensorflow_evaluator));
      [apply keeps_lift_ok|]. intros evaluate <-.
    apply (keeps_bind _ (Forall (fun a => length (heap w) <= a)));
      [apply keeps_to_tensorflow|]. intros copies Hcopies.
    apply (keeps_bind _ any).
    + apply (keeps_for_each _ (fun a => length (heap w) <= a)); [done|].
      intros a' Ha'. unfold ModelEvaluator.evaluate_dataset.
      apply (keeps_bind _ any); [by apply keeps_tensorflow_evaluator|].
      intros _ _. repeat keeps_step.
    + intros _ _. apply keeps_when, keeps_remove_model_from_cache.
Qed.

End Frame.

(** ** Extraction and tensorflow *)

Section Rejection.

Context `{Externals}.

(** The event is not a batch of the model [m]. *)
Definition no_batch_of (m : string) (e : event) : Prop :=
  forall dn, e <> BatchYielded m dn.

Lemma emits_only_bind_lift {A B} P (r : result A) (k : A -> M world B) :
  (forall x, r = Ok x -> emits_only P (k x)) -> emits_only P (bind (lift r) k).
Proof.
  intros Hk w. unfold bind, lift. destruct r as [x|e]; [by apply Hk|].
  exists []. by rewrite app_nil_r.
Qed.

Lemma pytorch_extractor_no_batch m mn model a args kwargs :
  mn <> m ->
  emits_only (no_batch_of m)
    (MetricExtractor._pytorch_extractor mn model a args kwargs).
Proof.
  intros Hne. unfold MetricExtractor._pytorch_extractor. emits.
  intros dn [= ? _]. done.
Qed.

Lemma extract_model_no_batch models dataset_names _datasets args kwargs m mn :
  snd (load_model m args) = "tensorflow" ->
  emits_only (no_batch_of m)
    (MetricExtractor.extract_model models dataset_names _datasets args kwargs mn).
Proof.
  intros Hfw. destruct (decide (mn = m)) as [->|Hne].
  - intros w. exists [LoadModel m]. split.
    + rewrite (extract_model_no_extractor _ _ _ _ _ _ _
                 (ValueError "Tensorflow is not supported")); [done|].
      by rewrite Hfw.
    + constructor; [by intros dn|constructor].
  - unfold MetricExtractor.extract_model.
    apply emits_only_bind; [apply emits_only_emit; by intros dn|]. intros _.
    destruct (load_model mn args) as [model fw].
    apply emits_only_bind_lift. intros extract Hex.
    assert (extract = MetricExtractor._pytorch_extractor) as ->.
    { unfold MetricExtractor._get_extractor in Hex.
      repeat case_match; by simplify_eq. }
    unfold MetricExtractor.extract_dataset,
      MetricExtractor._remove_model_from_cache, MetricExtractor.remove_matching.
    emits; try (by apply pytorch_extractor_no_batch); by intros dn.
Qed.

Lemma get_datasets_no_batch m dataset_names args kwargs :
  emits_only (no_batch_of m)
    (MetricExtractor._get_datasets dataset_names args kwargs).
Proof. induction dataset_names; simpl; emits. by intros dn. Qed.

(** C5.  In extraction a model of the tensorflow framework is refused:
    once the run gets to it, the run ends with the [ValueError] that the
    selection of the extractor raises, in the state reached just after
    the model was loaded.  In no run is a batch of any dataset processed
    for such a model. *)
Theorem tensorflow_is_rejected_in_extraction pre m post dataset_names args kwargs w :
  snd (load_model m args) = "tensorflow" ->
  let models := pre ++ m :: post in
  let run := MetricExtractor.__call__ models dataset_names args kwargs in
  Forall (no_batch_of m) (events_of run w) /\
  forall w1 ds,
    reaches (MetricExtractor._get_datasets dataset_names args kwargs)
      (fun ds => MetricExtractor.extract_model models dataset_names ds
                   args kwargs)
      pre w w1 ds ->
    run w = (fst (emit (LoadModel m) w1),
             Raise (ValueError "Tensorflow is not supported")).
Proof.
  intros Hfw models run. split.
  - apply emits_only_events. unfold run, MetricExtractor.__call__.
    apply emits_only_bind.
    + apply get_datasets_no_batch.
    + intros ds. apply emits_only_for_each. intros mn.
      by apply extract_model_no_batch.
  - intros w1 ds Hreach.
    apply (run_raises_at _ _ pre m post w w1 _ ds _ Hreach).
    apply extract_model_no_extractor. by rewrite Hfw.
Qed.

End Rejection.

(** * Further properties of the harness *)

(** ** Loading the datasets *)

Section Loading.

Context `{Externals}.

Lemma get_datasets_run dataset_names args kwargs w :
  ModelEvaluator._get_datasets dataset_names args kwargs w =
    ({| heap := heap w ++
                map (fun n => load_dataset n args kwargs) dataset_names;
        cache := cache w;
        trace := trace w ++ map LoadDataset dataset_names |},
     Ok (seq (length (heap w)) (length dataset_names))).
Proof.
  revert w. induction dataset_names as [|n names IH]; intros w.
  - simpl. rewrite !app_nil_r. by destruct w.
  - cbn [ModelEvaluator._get_datasets].
    rewrite (bind_ok _ _ _ _ _ (emit_log _ _)).
    unfold bind at 1, alloc at 1. rewrite (bind_ok _ _ _ _ _ (IH _)).
    unfold ret, set_heap, log. simpl.
    rewrite length_app, <- !app_assoc. simpl.
    by rewrite Nat.add_1_r.
Qed.

(** The loop of [_get_datasets] over a loader that can fail.
    [load_dataset] is a call into [.utils]; a failure inside it is an
    exception at the call in the loop body, and the function has no
    handler.  [load n] is what the call returns or raises for the name
    [n]. *)
Fixpoint get_datasets_from (load : string -> result Dataset)
    (dataset_names : list string) : M world (list addr) :=
  match dataset_names with
  | [] => ret []
  | dataset :: rest =>
      emit (LoadDataset dataset) ;;
      d <- lift (load dataset) ;;
      dataset <- alloc d ;;
      dataset_list <- get_datasets_from load rest ;;
      ret (dataset :: dataset_list)
  end.

(** With a loader that returns for every name this is the function of
    the two classes. *)
Lemma get_datasets_from_total dataset_names args kwargs :
  get_datasets_from (fun n => Ok (load_dataset n args kwargs)) dataset_names =
  ModelEvaluator._get_datasets dataset_names args kwargs.
Proof.
  induction dataset_names as [|n names IH]; [done|].
  cbn [get_datasets_from ModelEvaluator._get_datasets]. by rewrite IH.
Qed.

Lemma get_datasets_from_loaded load dataset_names ds :
  Forall2 (fun n d => load n = Ok d) dataset_names ds ->
  forall w,
    get_datasets_from load dataset_names w =
    ({| heap := heap w ++ ds; cache := cache w;
        trace := trace w ++ map LoadDataset dataset_names |},
     Ok (seq (length (heap w)) (length dataset_names))).
Proof.
  induction 1 as [|n d names ds Hn _ IH]; intros w.
  - simpl. rewrite !app_nil_r. by destruct w.
  - cbn [get_datasets_from].
    rewrite (bind_ok _ _ _ _ _ (emit_log _ _)).
    unfold bind at 1, lift at 1. rewrite Hn.
    unfold bind at 1, alloc at 1. rewrite (bind_ok _ _ _ _ _ (IH _)).
    unfold ret, set_heap, log. simpl.
    rewrite length_app, <- !app_assoc. simpl.
    by rewrite Nat.add_1_r.
Qed.

Lemma get_datasets_from_failure load pre n post ds e :
  Forall2 (fun n d => load n = Ok d) pre ds ->
  load n = Raise e ->
  forall w,
    get_datasets_from load (pre ++ n :: post) w =
    ({| heap := heap w ++ ds; cache := cache w;
        trace := trace w ++ map LoadDataset (pre ++ [n]) |},
     Raise e).
Proof.
  intros Hpre Hn. induction Hpre as [|n0 d pre ds Hn0 _ IH]; intros w.
  - cbn [app get_datasets_from map].
    rewrite (bind_ok _ _ _ _ _ (emit_log _ _)).
    unfold bind at 1, lift at 1. rewrite Hn.
    unfold log. cbn [heap cache trace]. by rewrite app_nil_r.
  - cbn [app get_datasets_from].
    rewrite (bind_ok _ _ _ _ _ (emit_log _ _)).
    unfold bind at 1, lift at 1. rewrite Hn0.
    unfold bind at 1, alloc at 1. rewrite (bind_raise _ _ _ _ _ (IH _)).
    unfold set_heap, log. simpl. by rewrite <- !app_assoc.
Qed.

(** X1.  [_get_datasets] has no handler around [load_dataset]: when the
    loader raises at a name, the names before it having loaded,
    [_get_datasets] raises that exception; it has asked for the names up
    to that one, in order, and for none of the names after it, and it
    returns no list -- the datasets loaded so far are not handed to the
    caller.  When every name loads, it returns one reference per name,
    in the order of the names.  The functions of the two classes are
    this loop with a loader that returns for every name. *)
Theorem get_datasets_stops_at_loader_failure load pre n post ds e w :
  Forall2 (fun n d => load n = Ok d) pre ds ->
  load n = Raise e ->
  get_datasets_from load (pre ++ n :: post) w =
    ({| heap := heap w ++ ds; cache := cache w;
        trace := trace w ++ map LoadDataset (pre ++ [n]) |},
     Raise e) /\
  get_datasets_from load pre w =
    ({| heap := heap w ++ ds; cache := cache w;
        trace := trace w ++ map LoadDataset pre |},
     Ok (seq (length (heap w)) (length pre))) /\
  (forall dataset_names args kwargs,
     ModelEvaluator._get_datasets dataset_names args kwargs =
       get_datasets_from (fun n => Ok (load_dataset n args kwargs))
         dataset_names /\
     MetricExtractor._get_datasets dataset_names args kwargs =
       get_datasets_from (fun n => Ok (load_dataset n args kwargs))
         dataset_names).
Proof.
  intros Hpre Hn. split; [by apply get_datasets_from_failure|].
  split; [by apply get_datasets_from_loaded|].
  intros dataset_names args kwargs.
  split; symmetry; apply get_datasets_from_total.
Qed.

End Loading.

(** ** Normalized names *)

Section Names.

Context `{Externals}.

(** What [_format_name] does to one character. *)
Definition format_char (c : ascii) : ascii :=
  let l := PyStr.lower_ascii c in if Ascii.eqb l "-" then "_"%char else l.

Lemma map_chars_compose f g s :
  PyStr.map_chars f (PyStr.map_chars g s) = PyStr.map_chars (fun c => f (g c)) s.
Proof. induction s as [|c s IH]; simpl; [done|]. by rewrite IH. Qed.

Lemma map_chars_ext f g s :
  (forall c, f c = g c) -> PyStr.map_chars f s = PyStr.map_chars g s.
Proof. intros Hfg. induction s as [|c s IH]; simpl; [done|]. by rewrite Hfg, IH. Qed.

Lemma format_name_chars s :
  ModelEvaluator._format_name s = PyStr.map_chars format_char s.
Proof.
  unfold ModelEvaluator._format_name, PyStr.replace_char, PyStr.lower.
  by rewrite map_chars_compose.
Qed.

Lemma format_char_idem c : format_char (format_char c) = format_char c.
Proof. by destruct c as [[] [] [] [] [] [] [] []]. Qed.

Lemma format_char_lower c : format_char (PyStr.lower_ascii c) = format_char c.
Proof. by destruct c as [[] [] [] [] [] [] [] []]. Qed.

Lemma format_char_hyphen c :
  format_char (if Ascii.eqb c "-" then "_"%char else c) = format_char c.
Proof. by destruct c as [[] [] [] [] [] [] [] []]. Qed.

Lemma format_char_normal c :
  let n := nat_of_ascii (format_char c) in
  ~ (65 <= n <= 90) /\ format_char c <> "-"%char.
Proof. destruct c as [[] [] [] [] [] [] [] []]; vm_compute; split; (lia || done). Qed.

(** Every character of the string satisfies [P]. *)
Fixpoint every_char (P : ascii -> Prop) (s : string) : Prop :=
  match s with
  | EmptyString => True
  | String c s' => P c /\ every_char P s'
  end.

Lemma prefix_of_map_chars f p s :
  String.prefix p s = true ->
  String.prefix (PyStr.map_chars f p) (PyStr.map_chars f s) = true.
Proof.
  revert s. induction p as [|a p IH]; intros [|b s]; simpl; try done.
  destruct (ascii_dec a b) as [->|]; [|done]. intros Hp.
  destruct (ascii_dec (f b) (f b)); [by apply IH|done].
Qed.

(** X2.  [_format_name] is a normal form: applying it twice is applying
    it once, it keeps the length, the result holds no upper-case ASCII
    letter and no hyphen, and names that differ only in ASCII case or in
    "-" against "_" have the same normal form.  So the test of the
    sweep sees neither difference, in the model name or in the file
    name. *)
Theorem format_name_is_a_normal_form s t :
  ModelEvaluator._format_name (ModelEvaluator._format_name s) =
    ModelEvaluator._format_name s /\
  String.length (ModelEvaluator._format_name s) = String.length s /\
  every_char (fun c => ~ (65 <= nat_of_ascii c <= 90) /\ c <> "-"%char)
    (ModelEvaluator._format_name s) /\
  ModelEvaluator._format_name (PyStr.lower s) = ModelEvaluator._format_name s /\
  ModelEvaluator._format_name (PyStr.replace_char "-" "_" s) =
    ModelEvaluator._format_name s /\
  matches (ModelEvaluator._format_name s) t = matches s t /\
  matches s (ModelEvaluator._format_name t) = matches s t /\
  MetricExtractor._format_name s = ModelEvaluator._format_name s.
Proof.
  assert (Hidem : forall u, ModelEvaluator._format_name
                              (ModelEvaluator._format_name u) =
                            ModelEvaluator._format_name u).
  { intros u. rewrite !format_name_chars, map_chars_compose.
    apply map_chars_ext, format_char_idem. }
  split; [apply Hidem|]. split.
  { rewrite format_name_chars. induction s as [|c s IH]; simpl; [done|].
    by rewrite IH. }
  split.
  { rewrite format_name_chars. induction s as [|c s IH]; simpl; [done|].
    split; [apply format_char_normal|done]. }
  split.
  { unfold PyStr.lower. rewrite !format_name_chars, map_chars_compose.
    apply map_chars_ext, format_char_lower. }
  split.
  { unfold PyStr.replace_char. rewrite !format_name_chars, map_chars_compose.
    apply map_chars_ext, format_char_hyphen. }
  unfold matches. by rewrite !Hidem.
Qed.

Lemma prefix_trans a b c :
  String.prefix a b = true -> String.prefix b c = true ->
  String.prefix a c = true.
Proof.
  revert b c. induction a as [|x a IH]; intros [|y b] [|z c]; simpl; try done.
  destruct (ascii_dec x y) as [->|]; [|done].
  destruct (ascii_dec y z) as [->|]; [|done].
  destruct (ascii_dec z z); [|done]. apply IH.
Qed.

(** What the eviction of a pytorch model leaves of a directory in which
    each matching entry can be removed. *)
Lemma eviction_all_removable model_name entries w :
  cache w = Dir entries ->
  (forall dm, is_Some (entries !! dm) -> PyStr.is_basename dm = true) ->
  (forall dm, is_Some (entries !! dm) -> matches model_name dm = true ->
              entries !! dm = Some true) ->
  cache (fst (ModelEvaluator._remove_model_from_cache "pytorch" model_name w)) =
  Dir (filter (fun kv => matches model_name (fst kv) = false) entries).
Proof.
  intros Hw Hnames Hcan.
  change (fst (ModelEvaluator._remove_model_from_cache "pytorch" model_name w))
    with (fst (ModelEvaluator.remove_matching "pytorch" model_name
                 (fst (emit (RemoveModelFromCache "pytorch" model_name) w)))).
  set (w1 := fst (emit _ w)).
  assert (Hc : cache w1 = Dir entries) by done. clearbody w1.
  rewrite (remove_matching_listed _ _ _ Hc).
  destruct (sweep_spec model_name (map fst (map_to_list entries)) entries w1 Hc)
    as (entries' & Hrun & Honly & Hall).
  { apply Forall_forall. intros dm Hdm. by apply Hnames, listing_elem_of. }
  rewrite Hrun. simpl. f_equal. apply map_eq. intros dm.
  destruct (matches model_name dm) eqn:Hdm.
  - transitivity (@None bool).
    + destruct (entries !! dm) as [b|] eqn:Hlook.
      * apply Hall; [apply NoDup_fst_map_to_list| | |done].
        -- intros dm' Hin' Hdm'. apply Hcan; [|done]. by apply listing_elem_of.
        -- apply listing_elem_of. by exists b.
      * destruct (Honly dm) as [Heq|(Hnone & _)]; congruence.
    + symmetry. apply map_lookup_filter_None. right. intros b _. simpl.
      by rewrite Hdm.
  - destruct (Honly dm) as [Heq|(_ & _ & Hdm')]; [|congruence].
    rewrite Heq. destruct (entries !! dm) as [b|] eqn:Hlook.
    + symmetry. by apply map_lookup_filter_Some.
    + symmetry. apply map_lookup_filter_None. by left.
Qed.

(** X3.  The sweep matches by prefix, so the shorter name takes more:
    when the normalized name of [m1] is a prefix of the normalized name
    of [m2], every file of [m2] is a file of [m1], and evicting [m1]
    from a directory in which its files can be removed leaves no file of
    [m2] either. *)
Theorem eviction_by_prefix_takes_longer_names m1 m2 entries w :
  PyStr.startswith (ModelEvaluator._format_name m2)
    (ModelEvaluator._format_name m1) = true ->
  (forall dm, matches m2 dm = true -> matches m1 dm = true) /\
  (cache w = Dir entries ->
   (forall dm, is_Some (entries !! dm) -> PyStr.is_basename dm = true) ->
   (forall dm, is_Some (entries !! dm) -> matches m1 dm = true ->
               entries !! dm = Some true) ->
   exists entries',
     cache (fst (ModelEvaluator._remove_model_from_cache "pytorch" m1 w)) =
       Dir entries' /\
     forall dm, matches m2 dm = true -> entries' !! dm = None).
Proof.
  intros Hpre.
  assert (Hmore : forall dm, matches m2 dm = true -> matches m1 dm = true).
  { intros dm. unfold matches, PyStr.startswith in *. by apply prefix_trans. }
  split; [done|]. intros Hw Hnames Hcan.
  eexists. split; [by apply eviction_all_removable|].
  intros dm Hdm. apply map_lookup_filter_None. right. intros b _. simpl.
  by rewrite (Hmore dm Hdm).
Qed.

(** X4.  The empty model name matches every entry: evicting it from a
    directory in which every entry can be removed empties the
    directory. *)
Theorem eviction_of_empty_name_clears_cache entries w :
  cache w = Dir entries ->
  (forall dm, is_Some (entries !! dm) -> PyStr.is_basename dm = true) ->
  (forall dm, is_Some (entries !! dm) -> entries !! dm = Some true) ->
  (forall dm, matches "" dm = true) /\
  cache (fst (ModelEvaluator._remove_model_from_cache "pytorch" "" w)) = Dir ∅.
Proof.
  intros Hw Hnames Hcan.
  assert (Hall : forall dm, matches "" dm = true).
  { intros dm. unfold matches, PyStr.startswith. simpl.
    by destruct (ModelEvaluator._format_name dm). }
  split; [done|].
  rewrite (eviction_all_removable _ _ _ Hw Hnames) by (intros; by apply Hcan).
  f_equal. apply map_eq. intros dm. rewrite lookup_empty.
  apply map_lookup_filter_None. right. intros b _. simpl. by rewrite Hall.
Qed.

(** X5.  Evicting twice is evicting once: after the eviction of a
    pytorch model from a directory in which its files can be removed, a
    second eviction of the same model finds nothing to remove. *)
Theorem eviction_is_idempotent model_name entries w :
  cache w = Dir entries ->
  (forall dm, is_Some (entries !! dm) -> PyStr.is_basename dm = true) ->
  (forall dm, is_Some (entries !! dm) -> matches model_name dm = true ->
              entries !! dm = Some true) ->
  let once := fst (ModelEvaluator._remove_model_from_cache "pytorch" model_name w) in
  let twice :=
    fst (ModelEvaluator._remove_model_from_cache "pytorch" model_name once) in
  cache twice = cache once.
Proof.
  intros Hw Hnames Hcan once twice.
  pose proof (eviction_all_removable _ _ _ Hw Hnames Hcan) as Honce.
  fold once in Honce. unfold twice.
  change (fst (ModelEvaluator._remove_model_from_cache "pytorch" model_name once))
    with (fst (ModelEvaluator.remove_matching "pytorch" model_name
                 (fst (emit (RemoveModelFromCache "pytorch" model_name) once)))).
  set (w1 := fst (emit _ once)).
  assert (Hc : cache w1 = cache once) by done. clearbody w1.
  rewrite Honce in Hc. rewrite (remove_matching_listed _ _ _ Hc).
  rewrite sweep_no_match; [by rewrite Honce|].
  apply Forall_forall. intros dm Hdm.
  apply listing_elem_of in Hdm as [b Hb].
  apply map_lookup_filter_Some in Hb as [_ Hdm]. done.
Qed.

End Names.

(** ** Relations a computation respects *)

Section Respects.

Context `{Data}.

(** The state a computation ends in is related by [R] to the one it
    started from, whether it returns or raises. *)
Definition respects (R : world -> world -> Prop) {A} (c : M world A) : Prop :=
  forall w, R w (fst (c w)).

Definition unchanged {A} (c : M world A) : Prop := forall w, fst (c w) = w.

Variable R : world -> world -> Prop.
Hypothesis R_refl : forall w, R w w.
Hypothesis R_trans : forall w1 w2 w3, R w1 w2 -> R w2 w3 -> R w1 w3.

Lemma respects_unchanged {A} (c : M world A) : unchanged c -> respects R c.
Proof. intros Hc w. by rewrite Hc. Qed.

Lemma respects_bind {A B} (c : M world A) (k : A -> M world B) :
  respects R c -> (forall x, respects R (k x)) -> respects R (bind c k).
Proof.
  intros Hc Hk w. specialize (Hc w). unfold bind.
  destruct (c w) as [w1 [x|e]]; simpl in *; [|done].
  eapply R_trans; [exact Hc|apply Hk].
Qed.

Lemma respects_bind_lift {A B} (r : result A) (k : A -> M world B) :
  (forall x, r = Ok x -> respects R (k x)) -> respects R (bind (lift r) k).
Proof.
  intros Hk w. unfold bind, lift. destruct r as [x|e]; [by apply Hk|apply R_refl].
Qed.

Lemma respects_when b (c : M world unit) : respects R c -> respects R (when b c).
Proof. destruct b; [done|]. intros _ w. apply R_refl. Qed.

Lemma respects_for_each {A} (l : list A) (body : A -> M world unit) :
  (forall x, respects R (body x)) -> respects R (for_each l body).
Proof.
  intros Hbody. induction l as [|x l IH]; simpl.
  - intros w. apply R_refl.
  - apply respects_bind; [apply Hbody|by intros _].
Qed.

Lemma respects_try (c : M world unit) :
  respects R c -> respects R (try_except_pass c).
Proof. intros Hc w. apply Hc. Qed.

Lemma unchanged_ret {A} (x : A) : unchanged (ret x).
Proof. done. Qed.

Lemma unchanged_raise {A} e : unchanged (raise (A := A) e).
Proof. done. Qed.

Lemma unchanged_getitem kwargs key : unchanged (getitem kwargs key).
Proof. intros w. unfold getitem. by destruct (kwargs !! key). Qed.

Lemma unchanged_index {A} (l : list A) i : unchanged (index l i).
Proof. intros w. unfold index. by destruct (l !! i). Qed.

Lemma unchanged_deref a : unchanged (deref a).
Proof. intros w. unfold deref. by destruct (heap w !! a). Qed.

Lemma unchanged_unpack2 v : unchanged (unpack2 v).
Proof. intros w. by destruct v. Qed.

Lemma unchanged_os_listdir path : unchanged (os_listdir path).
Proof.
  intros w. unfold os_listdir.
  destruct (String.eqb path cachedir); [|done]. by destruct (cache w).
Qed.

End Respects.

(** Splits a goal [respects R c] along the structure of [c]; the
    reflexivity and transitivity of [R] are taken from the context. *)
Ltac respects_step Hrefl Htrans :=
  lazymatch goal with
  | |- respects _ (bind (lift _) _) =>
      apply (respects_bind_lift _ Hrefl); intros ? ?
  | |- respects _ (bind _ _) => apply (respects_bind _ Htrans); [|intros ?]
  | |- respects _ (when _ _) => apply (respects_when _ Hrefl)
  | |- respects _ (for_each _ _) =>
      apply (respects_for_each _ Hrefl Htrans); intros ?
  | |- respects _ (try_except_pass _) => apply respects_try
  | |- respects _ (let '(_, _) := ?x in _) => destruct x
  | |- respects _ (if ?b then _ else _) => destruct b
  | |- respects _ (match ?x with _ => _ end) => destruct x
  | |- respects _ _ =>
      first
        [ apply (respects_unchanged _ Hrefl);
          solve [auto using unchanged_ret, unchanged_raise, unchanged_getitem,
                   unchanged_index, unchanged_deref, unchanged_unpack2,
                   unchanged_os_listdir]
        | solve [auto] ]
  end.

(** ** What the eviction leaves alone *)

Section EvictionFrame.

Context `{Externals}.

(** The directory [c'] is the directory [c] with some entries removed:
    no entry was added, none changed. *)
Definition dir_shrinks (c c' : dir_state) : Prop :=
  match c, c' with
  | Dir entries, Dir entries' => entries' ⊆ entries
  | NoDir, NoDir | Denied, Denied => True
  | _, _ => False
  end.

Lemma dir_shrinks_refl c : dir_shrinks c c.
Proof. destruct c; simpl; [done..|reflexivity]. Qed.

Lemma dir_shrinks_trans c1 c2 c3 :
  dir_shrinks c1 c2 -> dir_shrinks c2 c3 -> dir_shrinks c1 c3.
Proof.
  destruct c1, c2, c3; simpl; try done. intros H1 H2. by transitivity entries0.
Qed.

(** The eviction respects every relation that recording the call and
    removing a file respect. *)
Lemma remove_model_from_cache_respects (R : world -> world -> Prop)
    framework model_name :
  (forall w, R w w) ->
  (forall w1 w2 w3, R w1 w2 -> R w2 w3 -> R w1 w3) ->
  (forall e, respects R (emit e)) ->
  (forall path, respects R (os_remove path)) ->
  respects R (ModelEvaluator._remove_model_from_cache framework model_name).
Proof.
  intros Hrefl Htrans Hemit Hremove.
  unfold ModelEvaluator._remove_model_from_cache, ModelEvaluator.remove_matching.
  repeat respects_step Hrefl Htrans.
Qed.

Lemma os_remove_shrinks path w :
  dir_shrinks (cache w) (cache (fst (os_remove path w))) /\
  heap (fst (os_remove path w)) = heap w /\
  trace (fst (os_remove path w)) = trace w.
Proof.
  unfold os_remove.
  destruct (PyStr.strip_prefix cachedir path) as [entry|];
    [|by split; [apply dir_shrinks_refl|]].
  destruct (cache w) as [| |present] eqn:Hc;
    [by cbn [fst]; rewrite Hc..|].
  destruct (present !! entry) as [[]|]; cbn [fst];
    [|by rewrite Hc; split; [apply dir_shrinks_refl|]..].
  split; [|done]. apply delete_subseteq.
Qed.

Lemma remove_model_from_cache_heap framework model_name w :
  heap (fst (ModelEvaluator._remove_model_from_cache framework model_name w)) =
  heap w.
Proof.
  apply (remove_model_from_cache_respects (fun w1 w2 => heap w2 = heap w1)).
  - done.
  - intros w1 w2 w3 H12 H23. congruence.
  - done.
  - intros path w1. apply os_remove_shrinks.
Qed.

(** X6.  In every state, for every framework tag and model name, the
    eviction only removes entries of the cache directory: it adds none,
    changes none, does not make the directory appear or disappear, and
    leaves the datasets alone.  In the trace it leaves the record of the
    call and nothing else. *)
Theorem eviction_only_removes_entries framework model_name w :
  let w' :=
    fst (ModelEvaluator._remove_model_from_cache framework model_name w) in
  dir_shrinks (cache w) (cache w') /\
  heap w' = heap w /\
  trace w' = trace w ++ [RemoveModelFromCache framework model_name].
Proof.
  intros w'. split; [|split].
  - apply (remove_model_from_cache_respects
             (fun w1 w2 => dir_shrinks (cache w1) (cache w2))).
    + intros w1. apply dir_shrinks_refl.
    + intros w1 w2 w3. apply dir_shrinks_trans.
    + intros e w1. apply dir_shrinks_refl.
    + intros path w1. apply os_remove_shrinks.
  - apply remove_model_from_cache_heap.
  - apply remove_model_from_cache_run.
Qed.

End EvictionFrame.

(** ** The first removal that fails ends the sweep *)

Section EvictionStops.

Context `{Externals}.

(** The sweep over names that can all be removed where they match:
    it completes, and takes exactly the matching ones. *)
Lemma sweep_removable model_name l :
  forall cur w,
    cache w = Dir cur ->
    Forall (fun dm => PyStr.is_basename dm = true) l ->
    NoDup l ->
    (forall dm, dm ∈ l -> matches model_name dm = true ->
                cur !! dm = Some true) ->
    exists cur',
      sweep model_name l w = (set_cache (Dir cur') w, Ok tt) /\
      forall dm, cur' !! dm =
                 if matches model_name dm && bool_decide (dm ∈ l)
                 then None else cur !! dm.
Proof.
  induction l as [|x l IH]; intros cur w Hw Hnames Hnodup Hcan.
  - exists cur. split.
    + destruct w; simpl in *. by rewrite Hw.
    + intros dm. by rewrite andb_false_r.
  - apply Forall_cons in Hnames as [Hx Hnames].
    apply NoDup_cons in Hnodup as [Hnotin Hnodup].
    unfold sweep in *. cbn [for_each]. unfold bind at 1, when at 1.
    destruct (matches model_name x) eqn:Hm.
    + rewrite (os_remove_entry _ _ _ Hx Hw).
      rewrite (Hcan x (list_elem_of_here _ _) Hm).
      destruct (IH (delete x cur) (set_cache (Dir (delete x cur)) w)
                  eq_refl Hnames Hnodup) as (cur' & Hrun & Hlook).
      { intros dm Hin Hdm. rewrite lookup_delete_ne; [|by intros ->].
        apply Hcan; [by right|done]. }
      exists cur'. split; [exact Hrun|].
      intros dm. rewrite Hlook.
      destruct (decide (dm = x)) as [->|Hne].
      * rewrite Hm, lookup_delete_eq. cbn [andb].
        rewrite (bool_decide_eq_true_2 (x ∈ x :: l)); [|left].
        by destruct (bool_decide (x ∈ l)).
      * rewrite lookup_delete_ne; [|done].
        destruct (matches model_name dm); [|done]. cbn [andb].
        destruct (decide (dm ∈ l)) as [Hin|Hout].
        -- rewrite !bool_decide_eq_true_2; [done|by right|done].
        -- rewrite !bool_decide_eq_false_2; [done| |done].
           intros Hin. by apply elem_of_cons in Hin as [?|?].
    + destruct (IH cur w Hw Hnames Hnodup) as (cur' & Hrun & Hlook).
      { intros dm Hin Hdm. apply Hcan; [by right|done]. }
      exists cur'. split; [exact Hrun|].
      intros dm. rewrite Hlook.
      destruct (matches model_name dm) eqn:Hdm; [|done]. cbn [andb].
      destruct (decide (dm ∈ l)) as [Hin|Hout].
      * rewrite !bool_decide_eq_true_2; [done|by right|done].
      * rewrite !bool_decide_eq_false_2; [done| |done].
        intros Hin. apply elem_of_cons in Hin as [->|?]; congruence.
Qed.

(** X7.  The [try] encloses the whole loop, so the first removal that
    fails ends the eviction: when the listing is [pre ++ x :: post], the
    matching names of [pre] can be removed and the matching name [x]
    cannot, the directory afterwards has lost the matching names of
    [pre] and nothing else.  Every name of [post] is still there, also
    those that match and could have been removed; the caller sees no
    exception. *)
Theorem eviction_stops_at_first_failure model_name entries pre x post w :
  cache w = Dir entries ->
  (forall dm, is_Some (entries !! dm) -> PyStr.is_basename dm = true) ->
  map fst (map_to_list entries) = pre ++ x :: post ->
  (forall dm, dm ∈ pre -> matches model_name dm = true ->
              entries !! dm = Some true) ->
  matches model_name x = true ->
  entries !! x = Some false ->
  let run := ModelEvaluator._remove_model_from_cache "pytorch" model_name w in
  snd run = Ok tt /\
  (exists entries',
     cache (fst run) = Dir entries' /\
     (forall dm, entries' !! dm =
                 if matches model_name dm && bool_decide (dm ∈ pre)
                 then None else entries !! dm) /\
     (forall dm, dm ∈ x :: post -> entries' !! dm = entries !! dm)).
Proof.
  intros Hw Hnames Hlist Hcan Hx Hlocked run. split; [done|].
  subst run.
  change (fst (ModelEvaluator._remove_model_from_cache "pytorch" model_name w))
    with (fst (ModelEvaluator.remove_matching "pytorch" model_name
                 (fst (emit (RemoveModelFromCache "pytorch" model_name) w)))).
  set (w1 := fst (emit _ w)).
  assert (Hc : cache w1 = Dir entries) by done. clearbody w1.
  rewrite (remove_matching_listed _ _ _ Hc), Hlist.
  assert (Hnodup : NoDup (pre ++ x :: post)).
  { rewrite <- Hlist. apply NoDup_fst_map_to_list. }
  apply NoDup_app in Hnodup as (Hpre & Hdisj & Hrest).
  assert (Hbase : Forall (fun dm => PyStr.is_basename dm = true) (pre ++ x :: post)).
  { rewrite <- Hlist. apply Forall_forall. intros dm Hdm.
    by apply Hnames, listing_elem_of. }
  apply Forall_app in Hbase as [Hbpre Hbrest].
  apply Forall_cons in Hbrest as [Hbx _].
  destruct (sweep_removable model_name pre entries w1 Hc Hbpre Hpre Hcan)
    as (entries' & Hrun & Hlook).
  assert (Hkept : forall dm, dm ∈ x :: post -> entries' !! dm = entries !! dm).
  { intros dm Hdm. rewrite Hlook.
    rewrite (bool_decide_eq_false_2 (dm ∈ pre)); [by rewrite andb_false_r|].
    intros Hin. exact (Hdisj dm Hin Hdm). }
  exists entries'. split; [|by split].
  unfold sweep in *.
  rewrite (for_each_raise_at pre post x _ w1 (set_cache (Dir entries') w1)
             (set_cache (Dir entries') w1) (OSError "PermissionError") Hrun);
    [done|].
  unfold when. rewrite Hx.
  rewrite (os_remove_entry x entries' (set_cache (Dir entries') w1) Hbx eq_refl).
  by rewrite (Hkept x (list_elem_of_here _ _)), Hlocked.
Qed.

End EvictionStops.

(** ** A dataset under one model *)

Section DatasetStep.

Context `{Externals}.

Lemma getitem_lookup (kwargs : gmap string pyval) key v (w : world) :
  kwargs !! key = Some v -> getitem kwargs key w = (w, Ok v).
Proof. intros Hk. unfold getitem. by rewrite Hk. Qed.

Lemma getitem_missing (kwargs : gmap string pyval) key (w : world) :
  kwargs !! key = None ->
  getitem kwargs key w = (w, Raise (A := pyval) (KeyError key)).
Proof. intros Hk. unfold getitem. by rewrite Hk. Qed.

(** A loop that only records. *)
Lemma emit_loop_run {A} (f : A -> event) (l : list A) :
  forall w, for_each l (fun x => emit (f x)) w = (log (map f l) w, Ok tt).
Proof.
  induction l as [|x l IH]; intros w.
  - cbn [for_each map]. by rewrite log_nil.
  - cbn [for_each map]. rewrite (bind_ok _ _ _ _ _ (emit_log _ _)), IH.
    by rewrite log_log.
Qed.

(** The dataset after a pass over all its batches. *)
Definition evaluated
    (call : DecisionMapping -> Batch -> Predictions * Target * Paths)
    (d : Dataset) : Dataset :=
  with_updates (updates_of call d (iter_loader (loader d))) d.

(** The rows of performances written for a dataset. *)
Definition performance_rows (mn : string) (d : Dataset) (v : pyval)
  : list event :=
  if truthy v then map (PrintPerformanceToCsv mn (name d)) (metrics d) else [].

Lemma evaluate_dataset_outcome (evaluate : ModelEvaluator.evaluator) call
    mn model args kwargs a d v w :
  heap w !! a = Some d ->
  kwargs !! "print_predictions" = Some v ->
  evaluate mn model a args kwargs w = pass_outcome call mn a d kwargs w ->
  ModelEvaluator.evaluate_dataset evaluate mn model args kwargs a w =
  (log (ResultPrinter mn (name d) ::
        flat_map (batch_events call mn d kwargs) (iter_loader (loader d)) ++
        performance_rows mn (evaluated call d) v)
     (store a (evaluated call d) w),
   Ok tt).
Proof.
  intros Ha Hk Hrun. unfold ModelEvaluator.evaluate_dataset.
  assert (Hpass : evaluate mn model a args kwargs w =
            (log (ResultPrinter mn (name d) ::
                  flat_map (batch_events call mn d kwargs)
                    (iter_loader (loader d)))
               (store a (evaluated call d) w), Ok tt)).
  { rewrite Hrun. unfold pass_outcome, consumed, pass_result. by rewrite Hk. }
  rewrite (bind_ok _ _ _ _ _ Hpass).
  rewrite (bind_ok _ _ _ _ _ (getitem_lookup _ _ _ _ Hk)).
  unfold performance_rows, when. destruct (truthy v).
  - assert (Ha1 : heap (log (ResultPrinter mn (name d) ::
                             flat_map (batch_events call mn d kwargs)
                               (iter_loader (loader d)))
                          (store a (evaluated call d) w)) !! a =
                  Some (evaluated call d)) by exact (store_lookup a _ w _ Ha).
    rewrite (bind_ok _ _ _ _ _ (deref_lookup _ _ _ Ha1)).
    rewrite emit_loop_run, log_log. by rewrite <- app_comm_cons.
  - by rewrite app_nil_r.
Qed.

(** X8.  With the option [print_predictions] given, the step of a
    dataset under a model returns, for either evaluator.  It leaves the
    dataset with every accumulator holding the updates of all the
    batches of this pass, and it records, in this order: the creation of
    the result printer, the batches (each followed by its row of
    predictions when the option is true), and, when the option is true,
    one row of performance per metric of the dataset, in the order of
    the metrics, each row carrying the accumulator as it is after the
    last batch.  When the option is false no row at all is written. *)
Theorem performance_rows_follow_the_pass mn model args kwargs a d v w :
  heap w !! a = Some d ->
  kwargs !! "print_predictions" = Some v ->
  ModelEvaluator.evaluate_dataset ModelEvaluator._pytorch_evaluator
    mn model args kwargs a w =
  (log (ResultPrinter mn (name d) ::
        flat_map (batch_events (pytorch_call model) mn d kwargs)
          (iter_loader (loader d)) ++
        performance_rows mn (evaluated (pytorch_call model) d) v)
     (store a (evaluated (pytorch_call model) d) w),
   Ok tt) /\
  ModelEvaluator.evaluate_dataset ModelEvaluator._tensorflow_evaluator
    mn model args kwargs a w =
  (log (ResultPrinter mn (name d) ::
        flat_map (batch_events (tensorflow_call model) mn d kwargs)
          (iter_loader (loader d)) ++
        performance_rows mn (evaluated (tensorflow_call model) d) v)
     (store a (evaluated (tensorflow_call model) d) w),
   Ok tt) /\
  (truthy v = false ->
   forall call b,
     batch_events call mn d kwargs b = [BatchYielded mn (name d)] /\
     performance_rows mn (evaluated call d) v = []) /\
  (truthy v = true ->
   forall call,
     length (performance_rows mn (evaluated call d) v) = length (metrics d) /\
     Forall (fun e => exists m,
               e = PrintPerformanceToCsv mn (name d) m /\
               m_updates m = updates_of call d (iter_loader (loader d)))
       (performance_rows mn (evaluated call d) v)).
Proof.
  intros Ha Hk. split; [|split; [|split]].
  - apply evaluate_dataset_outcome; [done..|]. by apply pytorch_evaluator_run.
  - apply evaluate_dataset_outcome; [done..|]. by apply tensorflow_evaluator_run.
  - intros Hv call b. unfold batch_events, performance_rows.
    by rewrite Hk, Hv.
  - intros Hv call. unfold performance_rows. rewrite Hv.
    unfold evaluated, with_updates. cbn [metrics set_metrics name].
    rewrite !length_map. split; [done|].
    apply Forall_forall. intros e He.
    apply list_elem_of_fmap in He as (m & -> & Hm).
    apply list_elem_of_fmap in Hm as (m0 & -> & _).
    by exists (holding (updates_of call d (iter_loader (loader d))) m0).
Qed.

End DatasetStep.

(** ** The copies a tensorflow model works on *)

Section Copies.

Context `{Externals}.

(** What [ToTensorflow(dataset.loader)] makes of a dataset. *)
Definition wrapped (d : Dataset) : Dataset :=
  set_loader (ToTensorflow (loader d)) d.

Lemma set_heap_set_heap h1 h2 w : set_heap h2 (set_heap h1 w) = set_heap h2 w.
Proof. reflexivity. Qed.

(** [copy.deepcopy] of a list of distinct objects none of which has been
    copied yet: one new object each, in the order of the list. *)
Lemma deepcopy_fresh l :
  forall memo w ds,
    NoDup l ->
    (forall a, a ∈ l -> a ∉ map fst memo) ->
    Forall2 (fun a d => heap w !! a = Some d) l ds ->
    deepcopy memo l w =
    (set_heap (heap w ++ ds) w, Ok (seq (length (heap w)) (length l))).
Proof.
  induction l as [|a l IH]; intros memo w ds Hnodup Hmemo Hds.
  - apply Forall2_nil_inv_l in Hds as ->. cbn [deepcopy seq length].
    rewrite app_nil_r. by destruct w.
  - apply Forall2_cons_inv_l in Hds as (d & ds' & Ha & Hds' & ->).
    apply NoDup_cons in Hnodup as [Hnotin Hnodup].
    cbn [deepcopy].
    match goal with |- context [@list_find ?A ?P ?D memo] =>
      assert (Hnone : @list_find A P D memo = None) end.
    { apply list_find_None, Forall_forall. intros [k v] Hin Hk.
      simpl in Hk. subst k.
      apply (Hmemo a (list_elem_of_here _ _)).
      apply list_elem_of_fmap. by exists (a, v). }
    rewrite Hnone.
    rewrite (bind_ok _ _ _ _ _ (deref_lookup _ _ _ Ha)).
    unfold bind at 1, alloc at 1.
    assert (Hmemo' : forall a', a' ∈ l ->
                       a' ∉ map fst ((a, length (heap w)) :: memo)).
    { intros a' Ha' Hin. cbn [map fst] in Hin.
      apply elem_of_cons in Hin as [->|Hin]; [done|].
      apply (Hmemo a'); [by right|done]. }
    assert (Hds1 : Forall2 (fun a' d' =>
                      heap (set_heap (heap w ++ [d]) w) !! a' = Some d') l ds').
    { eapply Forall2_impl; [exact Hds'|].
      intros a' d' Hlook. cbn [heap set_heap].
      by apply lookup_app_l_Some. }
    rewrite (bind_ok _ _ _ _ _ (IH _ _ ds' Hnodup Hmemo' Hds1)).
    unfold ret. cbn [heap set_heap length seq].
    rewrite length_app, Nat.add_1_r, <- app_assoc. reflexivity.
Qed.

(** The loop that wraps the loaders, over the objects at the end of the
    heap. *)
Lemma wrap_loop_fresh ds :
  forall h0 w,
    heap w = h0 ++ ds ->
    for_each (seq (length h0) (length ds)) wrap_loader w =
    (set_heap (h0 ++ map wrapped ds) w, Ok tt).
Proof.
  induction ds as [|d ds IH]; intros h0 w Hw.
  - cbn [for_each seq length map]. unfold ret. rewrite <- Hw. by destruct w.
  - cbn [for_each seq length map].
    assert (Ha : heap w !! length h0 = Some d).
    { rewrite Hw. by apply list_lookup_middle. }
    unfold wrap_loader at 1.
    assert (Hwrap : bind (deref (length h0))
                      (fun d => mutate (length h0)
                                  (set_loader (ToTensorflow (loader d)))) w =
                    (store (length h0) (wrapped d) w, Ok tt)).
    { rewrite (bind_ok _ _ _ _ _ (deref_lookup _ _ _ Ha)).
      exact (mutate_lookup _ _ _ _ Ha). }
    rewrite (bind_ok _ _ _ _ _ Hwrap).
    assert (Hw1 : heap (store (length h0) (wrapped d) w) =
                  (h0 ++ [wrapped d]) ++ ds).
    { unfold store. cbn [heap set_heap]. rewrite Hw.
      rewrite insert_app_r_alt by lia. rewrite Nat.sub_diag.
      by rewrite <- app_assoc. }
    pose proof (IH (h0 ++ [wrapped d]) _ Hw1) as Hrest.
    rewrite length_app, Nat.add_1_r in Hrest.
    rewrite Hrest. unfold store. rewrite set_heap_set_heap.
    by rewrite <- app_assoc.
Qed.

Lemma to_tensorflow_run l ds w :
  NoDup l ->
  Forall2 (fun a d => heap w !! a = Some d) l ds ->
  ModelEvaluator._to_tensorflow l w =
  (set_heap (heap w ++ map wrapped ds) w,
   Ok (seq (length (heap w)) (length l))).
Proof.
  intros Hnodup Hds.
  change (ModelEvaluator._to_tensorflow l w)
    with (bind (deepcopy [] l)
            (fun cs => bind (for_each cs wrap_loader) (fun _ => ret cs)) w).
  assert (Hmemo : forall a, a ∈ l -> a ∉ map fst ([] : list (addr * addr))).
  { intros a _ Hin. by apply elem_of_nil in Hin. }
  rewrite (bind_ok _ _ _ _ _ (deepcopy_fresh l [] w ds Hnodup Hmemo Hds)).
  rewrite (Forall2_length _ _ _ Hds).
  rewrite (bind_ok _ _ _ _ _
             (wrap_loop_fresh ds (heap w) (set_heap (heap w ++ ds) w) eq_refl)).
  by rewrite set_heap_set_heap.
Qed.

(** X9.  [_to_tensorflow], given distinct datasets, creates one new
    object per dataset, in the order of the list, and returns the
    references of the new objects: each is the dataset it was copied
    from -- name, decision mapping, metrics with what they hold -- with
    the loader wrapped once in the adapter.  The objects that were there
    before are all as they were, the cache directory and the trace are
    untouched. *)
Theorem to_tensorflow_wraps_fresh_copies l ds w :
  NoDup l ->
  Forall2 (fun a d => heap w !! a = Some d) l ds ->
  let conversion := ModelEvaluator._to_tensorflow l w in
  conversion =
    ({| heap := heap w ++ map wrapped ds; cache := cache w; trace := trace w |},
     Ok (seq (length (heap w)) (length l))) /\
  (forall a d, heap w !! a = Some d -> heap (fst conversion) !! a = Some d) /\
  (forall i a d,
     l !! i = Some a -> heap w !! a = Some d ->
     heap (fst conversion) !! (length (heap w) + i) =
       Some {| name := name d;
               loader := ToTensorflow (loader d);
               decision_mapping := decision_mapping d;
               metrics := metrics d |}).
Proof.
  intros Hnodup Hds conversion. subst conversion.
  rewrite (to_tensorflow_run _ _ _ Hnodup Hds). cbn [fst heap set_heap].
  split; [done|]. split.
  - intros a d Ha. by apply lookup_app_l_Some.
  - intros i a d Hi Ha.
    destruct (Forall2_lookup_l _ _ _ _ _ Hds Hi) as (d' & Hd' & Ha').
    assert (d' = d) by congruence. subst d'.
    rewrite lookup_app_r by lia.
    replace (length (heap w) + i - length (heap w)) with i by lia.
    rewrite list_lookup_fmap, Hd'. by destruct d.
Qed.

End Copies.

(** ** Runs that return *)

Section Returns.

Context `{Externals}.

(** The framework the registry reports for a model is one of the two
    the evaluation knows. *)
Definition known_framework (args : list pyval) (m : string) : Prop :=
  snd (load_model m args) = "pytorch" \/ snd (load_model m args) = "tensorflow".

(** The number of tensorflow models among [models]. *)
Definition tensorflow_models (args : list pyval) (models : list string) : nat :=
  length (List.filter
            (fun m => String.eqb (snd (load_model m args)) "tensorflow") models).

(** Every reference of [l] points into the heap. *)
Definition valid (w : world) (l : list addr) : Prop :=
  Forall (fun a => a < length (heap w)) l.

Lemma valid_objects w l :
  valid w l -> exists ds, Forall2 (fun a d => heap w !! a = Some d) l ds.
Proof.
  induction 1 as [|a l Ha _ [ds IH]]; [by exists []|].
  destruct (lookup_lt_is_Some_2 _ _ Ha) as [d Hd].
  exists (d :: ds). by constructor.
Qed.

Lemma dataset_loop_returns (evaluate : ModelEvaluator.evaluator) call
    mn model args kwargs l :
  (forall a d w, heap w !! a = Some d ->
     evaluate mn model a args kwargs w = pass_outcome call mn a d kwargs w) ->
  is_Some (kwargs !! "print_predictions") ->
  forall w, valid w l ->
    exists w',
      for_each l (ModelEvaluator.evaluate_dataset evaluate mn model args kwargs) w
        = (w', Ok tt) /\
      length (heap w') = length (heap w).
Proof.
  intros Hrun [v Hk]. induction l as [|a l IH]; intros w Hl.
  - by exists w.
  - apply Forall_cons in Hl as [Ha Hl].
    destruct (lookup_lt_is_Some_2 _ _ Ha) as [d Hd].
    cbn [for_each].
    rewrite (bind_ok _ _ _ _ _
               (evaluate_dataset_outcome evaluate call mn model args kwargs
                  a d v w Hd Hk (Hrun a d w Hd))).
    match goal with |- context [for_each l _ ?w1] =>
      assert (Hlen : length (heap w1) = length (heap w))
        by (cbn [heap log store set_heap]; apply length_insert);
      destruct (IH w1) as (w' & Hrest & Hlen')
    end.
    { unfold valid. by rewrite Hlen. }
    exists w'. split; [exact Hrest|]. by rewrite Hlen'.
Qed.

Lemma eviction_step_returns b framework model_name w :
  exists w',
    when b (ModelEvaluator._remove_model_from_cache framework model_name) w =
      (w', Ok tt) /\
    heap w' = heap w.
Proof.
  destruct b; [|by exists w]. cbn [when].
  exists (fst (ModelEvaluator._remove_model_from_cache framework model_name w)).
  split.
  - rewrite <- (proj2 (remove_model_from_cache_run framework model_name w)).
    by destruct (ModelEvaluator._remove_model_from_cache framework model_name w).
  - apply remove_model_from_cache_heap.
Qed.

Lemma eviction_step_outcome b framework model_name w :
  exists w',
    when b (ModelEvaluator._remove_model_from_cache framework model_name) w =
      (w', Ok tt) /\
    heap w' = heap w /\
    trace w' =
      trace w ++ (if b then [RemoveModelFromCache framework model_name] else []).
Proof.
  destruct b; [|exists w; by rewrite app_nil_r]. cbn [when].
  exists (fst (ModelEvaluator._remove_model_from_cache framework model_name w)).
  split; [|split].
  - rewrite <- (proj2 (remove_model_from_cache_run framework model_name w)).
    by destruct (ModelEvaluator._remove_model_from_cache framework model_name w).
  - apply remove_model_from_cache_heap.
  - apply remove_model_from_cache_run.
Qed.

Lemma evaluate_model_returns models _datasets args kwargs m w :
  is_Some (kwargs !! "print_predictions") ->
  known_framework args m ->
  NoDup _datasets ->
  valid w _datasets ->
  exists w',
    ModelEvaluator.evaluate_model models _datasets args kwargs m w = (w', Ok tt) /\
    length (heap w') =
      length (heap w) + length _datasets * tensorflow_models args [m].
Proof.
  intros Hk Hfw Hnodup Hvalid.
  unfold ModelEvaluator.evaluate_model, tensorflow_models, known_framework in *.
  cbn [List.filter].
  rewrite (bind_ok _ _ _ _ _ (emit_log _ _)).
  destruct (load_model m args) as [model framework]. cbn [snd] in *.
  set (w0 := log [LoadModel m] w).
  assert (Hvalid0 : valid w0 _datasets) by exact Hvalid.
  assert (Hlen0 : length (heap w0) = length (heap w)) by done.
  clearbody w0.
  destruct Hfw as [-> | ->].
  - change (ModelEvaluator._get_evaluator "pytorch")
      with (Ok (A := ModelEvaluator.evaluator) ModelEvaluator._pytorch_evaluator).
    rewrite (bind_ok _ _ _ w0 _ eq_refl).
    change (String.eqb "pytorch" "tensorflow") with false. cbn iota.
    rewrite (bind_ok _ _ _ w0 _ eq_refl).
    destruct (dataset_loop_returns ModelEvaluator._pytorch_evaluator
                (pytorch_call model) m model args kwargs _datasets
                (fun a d w1 Hd => pytorch_evaluator_run m model a args kwargs d w1 Hd)
                Hk w0 Hvalid0) as (w1 & Hloop & Hlen1).
    rewrite (bind_ok _ _ _ _ _ Hloop).
    destruct (eviction_step_returns
                (MAX_NUM_MODELS_IN_CACHE <=? length models)%nat "pytorch" m w1)
      as (w2 & Hevict & Hheap).
    exists w2. split; [exact Hevict|].
    rewrite Hheap, Hlen1, Hlen0. cbn [length]. lia.
  - change (ModelEvaluator._get_evaluator "tensorflow")
      with (Ok (A := ModelEvaluator.evaluator)
              ModelEvaluator._tensorflow_evaluator).
    rewrite (bind_ok _ _ _ w0 _ eq_refl).
    change (String.eqb "tensorflow" "tensorflow") with true. cbn iota.
    destruct (valid_objects _ _ Hvalid0) as [ds Hds].
    rewrite (bind_ok _ _ _ _ _ (to_tensorflow_run _ _ _ Hnodup Hds)).
    set (w1 := set_heap (heap w0 ++ map wrapped ds) w0).
    assert (Hlen1 : length (heap w1) = length (heap w0) + length _datasets).
    { subst w1. cbn [heap set_heap].
      by rewrite length_app, length_map, <- (Forall2_length _ _ _ Hds). }
    assert (Hcopies : valid w1 (seq (length (heap w0)) (length _datasets))).
    { apply Forall_forall. intros a Ha. apply elem_of_seq in Ha. lia. }
    clearbody w1.
    destruct (dataset_loop_returns ModelEvaluator._tensorflow_evaluator
                (tensorflow_call model) m model args kwargs _
                (fun a d w' Hd =>
                   tensorflow_evaluator_run m model a args kwargs d w' Hd)
                Hk w1 Hcopies) as (w2 & Hloop & Hlen2).
    rewrite (bind_ok _ _ _ _ _ Hloop).
    destruct (eviction_step_returns
                (MAX_NUM_MODELS_IN_CACHE <=? length models)%nat "tensorflow" m w2)
      as (w3 & Hevict & Hheap).
    exists w3. split; [exact Hevict|].
    rewrite Hheap, Hlen2, Hlen1, Hlen0. cbn [length]. lia.
Qed.

Lemma tensorflow_models_cons args m l :
  tensorflow_models args (m :: l) =
  tensorflow_models args [m] + tensorflow_models args l.
Proof.
  unfold tensorflow_models. cbn [List.filter].
  by destruct (String.eqb (snd (load_model m args)) "tensorflow").
Qed.

Lemma model_loop_returns models _datasets args kwargs l :
  is_Some (kwargs !! "print_predictions") ->
  Forall (known_framework args) l ->
  NoDup _datasets ->
  forall w, valid w _datasets ->
    exists w',
      for_each l (ModelEvaluator.evaluate_model models _datasets args kwargs) w
        = (w', Ok tt) /\
      length (heap w') =
        length (heap w) + length _datasets * tensorflow_models args l.
Proof.
  intros Hk Hl Hnodup. induction Hl as [|m l Hm _ IH]; intros w Hvalid.
  - exists w. split; [done|]. unfold tensorflow_models. simpl. lia.
  - destruct (evaluate_model_returns models _datasets args kwargs m w
                Hk Hm Hnodup Hvalid) as (w1 & Hstep & Hlen1).
    destruct (IH w1) as (w2 & Hrest & Hlen2).
    { eapply Forall_impl; [exact Hvalid|]. simpl. intros a Ha. lia. }
    exists w2. split.
    + cbn [for_each]. by rewrite (bind_ok _ _ _ _ _ Hstep).
    + rewrite (tensorflow_models_cons args m l), Nat.mul_add_distr_l.
      rewrite Hlen2, Hlen1. lia.
Qed.

(** X10.  An evaluation given the option [print_predictions], in which
    every model comes from pytorch or tensorflow, returns: none of the
    exceptions of the file is raised, in whatever state the cache
    directory is, whatever the datasets hold, and also when the same
    dataset or model is named twice.  It has then created one object per
    dataset name, and one more per dataset name for each tensorflow
    model of the list: the copies a tensorflow model works on are made
    anew for each of them. *)
Theorem evaluation_returns models dataset_names args kwargs w :
  is_Some (kwargs !! "print_predictions") ->
  Forall (known_framework args) models ->
  let run := ModelEvaluator.__call__ models dataset_names args kwargs w in
  snd run = Ok tt /\
  length (heap (fst run)) =
    length (heap w) +
    length dataset_names * (1 + tensorflow_models args models).
Proof.
  intros Hk Hmodels run. subst run. unfold ModelEvaluator.__call__.
  rewrite (bind_ok _ _ _ _ _ (get_datasets_run dataset_names args kwargs w)).
  match goal with |- context [for_each models _ ?w0] => set (w1 := w0) end.
  assert (Hlen1 : length (heap w1) = length (heap w) + length dataset_names).
  { subst w1. cbn [heap]. by rewrite length_app, length_map. }
  destruct (model_loop_returns models (seq (length (heap w)) (length dataset_names))
              args kwargs models Hk Hmodels (NoDup_seq _ _) w1)
    as (w2 & Hloop & Hlen2).
  { apply Forall_forall. intros a Ha. apply elem_of_seq in Ha. lia. }
  rewrite Hloop. cbn [fst snd]. split; [done|].
  rewrite Hlen2, Hlen1, length_seq, Nat.mul_add_distr_l. lia.
Qed.

End Returns.

(** ** Runs of the extraction *)

Section ExtractionRuns.

Context `{Externals}.

(** The dataset after an extraction pass with [model]. *)
Definition extracted (model : Model) (d : Dataset) : Dataset :=
  extraction_dataset
    (flat_map (batch_layer_updates model) (iter_loader (loader d))) d.

Lemma extractor_pass_run mn model a args kwargs d w :
  heap w !! a = Some d ->
  MetricExtractor._pytorch_extractor mn model a args kwargs w =
  (log (map (fun _ => BatchYielded mn (name d)) (iter_loader (loader d)))
     (store a (extracted model d) w),
   Ok tt).
Proof.
  intros Ha. unfold MetricExtractor._pytorch_extractor.
  rewrite (bind_ok _ _ _ _ _ (deref_lookup _ _ _ Ha)).
  rewrite (bind_ok _ _ _ _ _ (mutate_lookup _ _ _ _ Ha)).
  match goal with |- context [store a ?d1 w] =>
    assert (Ha1 : heap (store a d1 w) !! a = Some d1)
      by exact (store_lookup a _ w _ Ha) end.
  rewrite (bind_ok _ _ _ _ _ (mutate_lookup _ _ _ _ Ha1)), store_store.
  match goal with |- context [store a ?d2 w] =>
    change d2 with (extraction_dataset [] d) end.
  assert (Ha2 : heap (store a (extraction_dataset [] d) w) !! a =
                Some (extraction_dataset [] d))
    by exact (store_lookup a _ w _ Ha).
  rewrite (bind_ok _ _ _ _ _ (deref_lookup _ _ _ Ha2)).
  rewrite (for_each_ext _ _ (extraction_step mn (name d) model a)).
  2: { intros [[images target] paths]. unfold extraction_step, layers_of.
       cbn [fst snd]. by destruct (forward_intermediates model (to_device images)). }
  rewrite (extraction_loop_run _ _ _ _ d _ [] _ Ha2).
  by rewrite store_store.
Qed.

(** X11.  An extraction pass discards the metrics of the dataset and
    never reads its arguments: for a dataset of the same name, with the
    same loader and the same decision mapping, the pass does the same
    whatever metrics the dataset was configured with, whatever they
    hold, and whatever the positional and the keyword arguments are,
    [print_predictions] included. *)
Theorem extraction_ignores_metrics_and_arguments
    mn model a args kwargs args' kwargs' d d' w :
  heap w !! a = Some d ->
  name d' = name d ->
  loader d' = loader d ->
  decision_mapping d' = decision_mapping d ->
  MetricExtractor._pytorch_extractor mn model a args' kwargs' (store a d' w) =
  MetricExtractor._pytorch_extractor mn model a args kwargs w.
Proof.
  intros Ha Hname Hloader _.
  rewrite (extractor_pass_run _ _ _ _ _ d w Ha).
  rewrite (extractor_pass_run _ _ _ _ _ d' (store a d' w)
             (store_lookup a d' w d Ha)).
  rewrite store_store. unfold extracted, extraction_dataset.
  by rewrite Hname, Hloader.
Qed.

(** The rows of metrics written for a dataset. *)
Definition metric_rows (mn : string) (d : Dataset)
    (kwargs : gmap string pyval) : list event :=
  match kwargs !! "print_predictions" with
  | Some v =>
      if truthy v then map (PrintMetricsToCsv mn (name d)) (metrics d) else []
  | None => []
  end.

(** What reading the option gives at the end of the dataset step. *)
Definition option_result (kwargs : gmap string pyval) : result unit :=
  match kwargs !! "print_predictions" with
  | Some _ => Ok tt
  | None => Raise (KeyError "print_predictions")
  end.

(** The events of the dataset step. *)
Definition extraction_events (mn : string) (model : Model)
    (kwargs : gmap string pyval) (d : Dataset) : list event :=
  map (fun _ => BatchYielded mn (name d)) (iter_loader (loader d)) ++
  metric_rows mn (extracted model d) kwargs.

Lemma extract_dataset_outcome dataset_names mn model args kwargs i a d w :
  heap w !! a = Some d ->
  is_Some (dataset_names !! i) ->
  MetricExtractor.extract_dataset MetricExtractor._pytorch_extractor
    dataset_names mn model args kwargs (i, a) w =
  (log (extraction_events mn model kwargs d) (store a (extracted model d) w),
   option_result kwargs).
Proof.
  intros Ha [n Hn].
  unfold MetricExtractor.extract_dataset, extraction_events, metric_rows,
    option_result.
  assert (Hidx : index dataset_names i w = (w, Ok n))
    by (unfold index; by rewrite Hn).
  rewrite (bind_ok _ _ _ _ _ Hidx).
  rewrite (bind_ok _ _ _ _ _ (extractor_pass_run mn model a args kwargs d w Ha)).
  destruct (kwargs !! "print_predictions") as [v|] eqn:Hk.
  - rewrite (bind_ok _ _ _ _ _ (getitem_lookup _ _ _ _ Hk)).
    unfold when. destruct (truthy v); [|by rewrite app_nil_r].
    assert (Ha1 : heap (log (map (fun _ => BatchYielded mn (name d))
                               (iter_loader (loader d)))
                          (store a (extracted model d) w)) !! a =
                  Some (extracted model d)) by exact (store_lookup a _ w _ Ha).
    rewrite (bind_ok _ _ _ _ _ (deref_lookup _ _ _ Ha1)).
    by rewrite emit_loop_run, log_log.
  - rewrite (bind_raise _ _ _ _ _ (getitem_missing _ _ _ Hk)).
    by rewrite app_nil_r.
Qed.

Lemma extracted_extracted model1 model2 d :
  extracted model2 (extracted model1 d) = extracted model2 d.
Proof. reflexivity. Qed.

(** The loop over the datasets, which are the last objects of the
    heap. *)
Lemma extract_loop_run dataset_names mn model args kwargs v ds :
  kwargs !! "print_predictions" = Some v ->
  forall k h0 w,
    heap w = h0 ++ ds ->
    (forall i, i < length ds -> is_Some (dataset_names !! (k + i))) ->
    for_each (imap (fun i a => (k + i, a)) (seq (length h0) (length ds)))
      (MetricExtractor.extract_dataset MetricExtractor._pytorch_extractor
         dataset_names mn model args kwargs) w =
    (log (flat_map (extraction_events mn model kwargs) ds)
       (set_heap (h0 ++ map (extracted model) ds) w),
     Ok tt).
Proof.
  intros Hk. induction ds as [|d ds IH]; intros k h0 w Hw Hnames.
  - cbn [for_each seq length map imap flat_map]. unfold ret.
    rewrite log_nil, <- Hw. by destruct w.
  - cbn [seq length]. rewrite imap_cons. cbn [for_each map flat_map].
    assert (Ha : heap w !! length h0 = Some d).
    { rewrite Hw. by apply list_lookup_middle. }
    replace (k + 0) with k by lia.
    assert (Hn : is_Some (dataset_names !! k)).
    { replace k with (k + 0) by lia. apply Hnames. simpl. lia. }
    pose proof (extract_dataset_outcome dataset_names mn model args kwargs
                  k (length h0) d w Ha Hn) as Hstep.
    unfold option_result in Hstep. rewrite Hk in Hstep.
    rewrite (bind_ok _ _ _ _ _ Hstep).
    rewrite (imap_ext _ (fun i a => (S k + i, a)))
      by (intros; unfold compose; f_equal; lia).
    assert (Hw1 : heap (log (extraction_events mn model kwargs d)
                          (store (length h0) (extracted model d) w)) =
                  (h0 ++ [extracted model d]) ++ ds).
    { cbn [heap log store set_heap]. rewrite Hw.
      rewrite insert_app_r_alt by lia. rewrite Nat.sub_diag.
      by rewrite <- app_assoc. }
    pose proof (IH (S k) (h0 ++ [extracted model d]) _ Hw1) as Hrest.
    rewrite length_app, Nat.add_1_r in Hrest.
    rewrite Hrest.
    + unfold store, log, set_heap. cbn [heap cache trace].
      by rewrite <- !app_assoc.
    + intros i Hi. replace (S k + i) with (k + S i) by lia.
      apply Hnames. simpl. lia.
Qed.

(** Every model of the list comes from pytorch. *)
Definition from_pytorch (args : list pyval) (m : string) : Prop :=
  snd (load_model m args) = "pytorch".

(** The events of a model in an extraction, given the datasets as they
    are when its turn comes. *)
Definition extraction_model_events (models : list string) (args : list pyval)
    (kwargs : gmap string pyval) (ds : list Dataset) (m : string)
  : list event :=
  LoadModel m ::
  flat_map (extraction_events m (fst (load_model m args)) kwargs) ds ++
  (if (MAX_NUM_MODELS_IN_CACHE <=? length models)%nat
   then [RemoveModelFromCache (snd (load_model m args)) m] else []).

Lemma extract_model_returns models dataset_names args kwargs m h0 ds w :
  is_Some (kwargs !! "print_predictions") ->
  from_pytorch args m ->
  heap w = h0 ++ ds ->
  length ds <= length dataset_names ->
  exists w',
    MetricExtractor.extract_model models dataset_names
      (seq (length h0) (length ds)) args kwargs m w = (w', Ok tt) /\
    heap w' = h0 ++ map (extracted (fst (load_model m args))) ds /\
    trace w' = trace w ++ extraction_model_events models args kwargs ds m.
Proof.
  intros [v Hk] Hfw Hw Hlen.
  unfold MetricExtractor.extract_model, from_pytorch,
    extraction_model_events in *.
  rewrite (bind_ok _ _ _ _ _ (emit_log _ _)).
  destruct (load_model m args) as [model framework]. cbn [fst snd] in *.
  subst framework.
  change (MetricExtractor._get_extractor "pytorch")
    with (Ok (A := MetricExtractor.extractor) MetricExtractor._pytorch_extractor).
  rewrite (bind_ok _ _ _ (log [LoadModel m] w) _ eq_refl).
  change (String.eqb "pytorch" "tensorflow") with false. cbn [when].
  rewrite bind_ret. unfold enumerate.
  rewrite (bind_ok _ _ _ _ _
             (extract_loop_run dataset_names m model args kwargs v ds Hk
                0 h0 (log [LoadModel m] w) Hw
                (fun i Hi => lookup_lt_is_Some_2 dataset_names i
                               (Nat.lt_le_trans _ _ _ Hi Hlen)))).
  rewrite extractor_remove_model_from_cache.
  match goal with |- context [when ?b _ ?w1] =>
    destruct (eviction_step_outcome b "pytorch" m w1)
      as (w2 & Hevict & Hheap & Htrace)
  end.
  exists w2. split; [exact Hevict|]. split; [by rewrite Hheap|].
  rewrite Htrace. cbn [trace log set_heap]. by rewrite <- !app_assoc.
Qed.

(** Two datasets with the same name and loader. *)
Definition same_source (d d' : Dataset) : Prop :=
  name d = name d' /\ loader d = loader d'.

Lemma extracted_same model d d' :
  same_source d d' -> extracted model d = extracted model d'.
Proof.
  intros [Hn Hl]. unfold extracted, extraction_dataset. by rewrite Hn, Hl.
Qed.

Lemma extraction_events_same mn model kwargs d d' :
  same_source d d' ->
  extraction_events mn model kwargs d = extraction_events mn model kwargs d'.
Proof.
  intros Hsame. unfold extraction_events.
  rewrite (extracted_same model d d' Hsame).
  destruct Hsame as [Hn Hl]. by rewrite Hn, Hl.
Qed.

Lemma extraction_model_events_same models args kwargs ds ds' m :
  Forall2 same_source ds ds' ->
  extraction_model_events models args kwargs ds m =
  extraction_model_events models args kwargs ds' m.
Proof.
  intros Hsame. unfold extraction_model_events. do 2 f_equal.
  induction Hsame as [|d d' ds ds' Hd _ IH]; [done|].
  cbn [flat_map]. by rewrite (extraction_events_same _ _ _ d d' Hd), IH.
Qed.

Lemma extracted_same_source model ds ds' :
  Forall2 same_source ds ds' ->
  Forall2 same_source (map (extracted model) ds) ds'.
Proof.
  intros Hsame. apply Forall2_fmap_l.
  eapply Forall2_impl; [exact Hsame|]. by intros d d' [Hn Hl].
Qed.

(** The datasets after the models of [l], one after the other. *)
Definition after_models (args : list pyval) (l : list string)
    (ds : list Dataset) : list Dataset :=
  foldl (fun ds m => map (extracted (fst (load_model m args))) ds) ds l.

Lemma extract_model_loop_returns models dataset_names args kwargs h0 ds0 l :
  is_Some (kwargs !! "print_predictions") ->
  Forall (from_pytorch args) l ->
  forall ds w,
    heap w = h0 ++ ds ->
    length ds <= length dataset_names ->
    Forall2 same_source ds ds0 ->
    exists w',
      for_each l
        (MetricExtractor.extract_model models dataset_names
           (seq (length h0) (length ds)) args kwargs) w = (w', Ok tt) /\
      heap w' = h0 ++ after_models args l ds /\
      trace w' =
        trace w ++ flat_map (extraction_model_events models args kwargs ds0) l.
Proof.
  intros Hk Hl. induction Hl as [|m l Hm _ IH]; intros ds w Hw Hlen Hsame.
  - exists w. cbn [for_each flat_map]. by rewrite app_nil_r.
  - destruct (extract_model_returns models dataset_names args kwargs m h0 ds w
                Hk Hm Hw Hlen) as (w1 & Hstep & Hheap1 & Htrace1).
    destruct (IH (map (extracted (fst (load_model m args))) ds) w1 Hheap1)
      as (w2 & Hrest & Hheap2 & Htrace2);
      [by rewrite length_map|by apply extracted_same_source|].
    rewrite length_map in Hrest.
    exists w2. split; [|split; [exact Hheap2|]].
    + cbn [for_each]. by rewrite (bind_ok _ _ _ _ _ Hstep).
    + rewrite Htrace2, Htrace1. cbn [flat_map].
      rewrite (extraction_model_events_same models args kwargs ds ds0 m Hsame).
      by rewrite <- app_assoc.
Qed.

Lemma Forall2_same_source_refl ds : Forall2 same_source ds ds.
Proof. induction ds; by constructor. Qed.

Lemma after_models_last args pre m ds :
  after_models args (pre ++ [m]) ds =
  map (extracted (fst (load_model m args))) ds.
Proof.
  unfold after_models. rewrite foldl_app. cbn [foldl].
  generalize (fst (load_model m args)). intros model.
  revert ds. induction pre as [|m1 pre IH]; intros ds; [done|].
  cbn [foldl]. rewrite IH, map_map. apply map_ext. intros d.
  apply extracted_extracted.
Qed.

(** X12.  An extraction given the option [print_predictions], in which
    every model comes from pytorch, returns: none of the exceptions of
    the file is raised, [IndexError] on the dataset names included.  It
    creates one object per dataset name and no other; after the run
    every dataset holds what the last model of the list left in it --
    the three metrics of extraction with the updates of that model, one
    per batch and layer -- and nothing of the models before. *)
Theorem extraction_returns models dataset_names args kwargs w :
  is_Some (kwargs !! "print_predictions") ->
  Forall (from_pytorch args) models ->
  let run := MetricExtractor.__call__ models dataset_names args kwargs w in
  snd run = Ok tt /\
  (models = [] ->
   heap (fst run) =
     heap w ++ map (fun n => load_dataset n args kwargs) dataset_names) /\
  (forall pre m, models = pre ++ [m] ->
   heap (fst run) =
     heap w ++
     map (fun n => extracted (fst (load_model m args))
                     (load_dataset n args kwargs)) dataset_names).
Proof.
  intros Hk Hmodels run. subst run. unfold MetricExtractor.__call__.
  change (MetricExtractor._get_datasets dataset_names args kwargs)
    with (ModelEvaluator._get_datasets dataset_names args kwargs).
  rewrite (bind_ok _ _ _ _ _ (get_datasets_run dataset_names args kwargs w)).
  set (ds := map (fun n => load_dataset n args kwargs) dataset_names).
  assert (Hlen : length ds = length dataset_names) by apply length_map.
  rewrite <- Hlen.
  match goal with |- context [for_each models _ ?w0] => set (w1 := w0) end.
  destruct (extract_model_loop_returns models dataset_names args kwargs
              (heap w) ds models Hk Hmodels ds w1 eq_refl)
    as (w2 & Hloop & Hheap & _); [lia|apply Forall2_same_source_refl|].
  rewrite Hloop. cbn [fst snd]. split; [done|]. split.
  - intros ->. exact Hheap.
  - intros pre m ->. rewrite Hheap, after_models_last. subst ds.
    by rewrite map_map.
Qed.

(** X13.  The record of an extraction that is given the option and
    whose models all come from pytorch: the datasets are loaded, in the
    order of their names; then comes one segment per model, in the order
    of the list.  The segment of a model is a function of the model and
    of the datasets as they were loaded: the rows of metrics written for
    a model do not depend on the models before it.  A list of the same
    length gives the same segment for each of its models. *)
Theorem extraction_record_is_per_model models dataset_names args kwargs w :
  is_Some (kwargs !! "print_predictions") ->
  Forall (from_pytorch args) models ->
  let run := MetricExtractor.__call__ models dataset_names args kwargs w in
  let ds := map (fun n => load_dataset n args kwargs) dataset_names in
  trace (fst run) =
    trace w ++ map LoadDataset dataset_names ++
    flat_map (extraction_model_events models args kwargs ds) models /\
  forall models' m,
    length models' = length models ->
    extraction_model_events models' args kwargs ds m =
    extraction_model_events models args kwargs ds m.
Proof.
  intros Hk Hmodels run ds. split.
  - subst run. unfold MetricExtractor.__call__.
    change (MetricExtractor._get_datasets dataset_names args kwargs)
      with (ModelEvaluator._get_datasets dataset_names args kwargs).
    rewrite (bind_ok _ _ _ _ _ (get_datasets_run dataset_names args kwargs w)).
    fold ds. rewrite <- (length_map (fun n => load_dataset n args kwargs)).
    fold ds.
    match goal with |- context [for_each models _ ?w0] => set (w1 := w0) end.
    destruct (extract_model_loop_returns models dataset_names args kwargs
                (heap w) ds models Hk Hmodels ds w1 eq_refl)
      as (w2 & Hloop & _ & Htrace).
    { unfold ds. by rewrite length_map. }
    { apply Forall2_same_source_refl. }
    rewrite Hloop. cbn [fst]. rewrite Htrace. subst w1. cbn [trace].
    by rewrite <- app_assoc.
  - intros models' m Hlen. unfold extraction_model_events. by rewrite Hlen.
Qed.

(** X14.  Without the option [print_predictions], an extraction whose
    first model comes from pytorch fails with [KeyError] as soon as
    there is a dataset, but only after the whole pass over the first
    dataset: the extractor itself never reads the option, so every
    batch of that dataset is processed before the dataset step looks
    the option up.  Nothing is run after that. *)
Theorem extraction_without_option_fails_after_the_pass
    m models n dataset_names args kwargs w :
  kwargs !! "print_predictions" = None ->
  from_pytorch args m ->
  let run :=
    MetricExtractor.__call__ (m :: models) (n :: dataset_names) args kwargs w in
  let d := load_dataset n args kwargs in
  snd run = Raise (KeyError "print_predictions") /\
  trace (fst run) =
    trace w ++ map LoadDataset (n :: dataset_names) ++
    LoadModel m :: map (fun _ => BatchYielded m (name d)) (iter_loader (loader d)) /\
  heap (fst run) !! length (heap w) = Some (extracted (fst (load_model m args)) d).
Proof.
  intros Hk Hfw run d. subst run. unfold MetricExtractor.__call__.
  change (MetricExtractor._get_datasets (n :: dataset_names) args kwargs)
    with (ModelEvaluator._get_datasets (n :: dataset_names) args kwargs).
  rewrite (bind_ok _ _ _ _ _ (get_datasets_run (n :: dataset_names) args kwargs w)).
  cbn [for_each length seq map].
  match goal with |- context [bind _ _ ?w0] => set (w1 := w0) end.
  assert (Ha : heap w1 !! length (heap w) = Some d).
  { subst w1. cbn [heap]. by apply list_lookup_middle. }
  assert (Htrace : trace w1 = trace w ++ map LoadDataset (n :: dataset_names))
    by done.
  clearbody w1.
  assert (Hstep :
    MetricExtractor.extract_model (m :: models) (n :: dataset_names)
      (length (heap w) :: seq (S (length (heap w))) (length dataset_names))
      args kwargs m w1 =
    (log (map (fun _ => BatchYielded m (name d)) (iter_loader (loader d)))
       (store (length (heap w)) (extracted (fst (load_model m args)) d)
          (log [LoadModel m] w1)),
     Raise (KeyError "print_predictions"))).
  { unfold MetricExtractor.extract_model, from_pytorch in *.
    rewrite (bind_ok _ _ _ _ _ (emit_log _ _)).
    destruct (load_model m args) as [model framework]. cbn [fst snd] in *.
    subst framework.
    change (MetricExtractor._get_extractor "pytorch")
      with (Ok (A := MetricExtractor.extractor)
              MetricExtractor._pytorch_extractor).
    rewrite (bind_ok _ _ _ (log [LoadModel m] w1) _ eq_refl).
    change (String.eqb "pytorch" "tensorflow") with false. cbn [when].
    rewrite bind_ret. unfold enumerate. rewrite imap_cons. cbn [for_each].
    apply bind_raise, bind_raise.
    rewrite (extract_dataset_outcome (n :: dataset_names) m model args kwargs
               0 (length (heap w)) d (log [LoadModel m] w1) Ha);
      [|by eexists].
    unfold extraction_events, metric_rows, option_result.
    by rewrite Hk, app_nil_r. }
  rewrite (bind_raise _ _ _ _ _ Hstep). cbn [fst snd]. split; [done|]. split.
  - cbn [trace log store set_heap]. rewrite Htrace.
    by rewrite <- !app_assoc.
  - apply (store_lookup _ _ _ d). exact Ha.
Qed.

End ExtractionRuns.

(** ** What a model leaves for the next *)

Section Independence.

Context `{Externals}.

(** Two datasets that differ at most in what their accumulators
    hold. *)
Definition same_configuration (d d' : Dataset) : Prop :=
  name d = name d' /\ loader d = loader d' /\
  decision_mapping d = decision_mapping d' /\
  map m_class (metrics d) = map m_class (metrics d').

Lemma same_configuration_refl d : same_configuration d d.
Proof. by repeat split. Qed.

Lemma same_configuration_trans d1 d2 d3 :
  same_configuration d1 d2 -> same_configuration d2 d3 ->
  same_configuration d1 d3.
Proof.
  intros (? & ? & ? & ?) (? & ? & ? & ?). repeat split; congruence.
Qed.

Lemma same_configuration_evaluated call d :
  same_configuration (evaluated call d) d.
Proof.
  repeat split. unfold evaluated, with_updates. cbn [metrics set_metrics].
  rewrite map_map. by apply map_ext.
Qed.

Lemma same_configuration_wrapped d d' :
  same_configuration d d' -> same_configuration (wrapped d) (wrapped d').
Proof.
  intros (Hn & Hl & Hd & Hm). unfold wrapped.
  repeat split; cbn [name loader decision_mapping metrics set_loader];
    congruence.
Qed.

Lemma evaluated_same call d d' :
  same_configuration d d' -> evaluated call d = evaluated call d'.
Proof.
  intros (Hn & Hl & Hd & Hm).
  unfold evaluated, with_updates, updates_of, set_metrics.
  rewrite Hn, Hl, Hd. f_equal. by apply holding_classes.
Qed.

(** The events of the step of a dataset under a model. *)
Definition dataset_events
    (call : DecisionMapping -> Batch -> Predictions * Target * Paths)
    (mn : string) (kwargs : gmap string pyval) (v : pyval) (d : Dataset)
  : list event :=
  ResultPrinter mn (name d) ::
  flat_map (batch_events call mn d kwargs) (iter_loader (loader d)) ++
  performance_rows mn (evaluated call d) v.

Lemma dataset_events_same call mn kwargs v d d' :
  same_configuration d d' ->
  dataset_events call mn kwargs v d = dataset_events call mn kwargs v d'.
Proof.
  intros Hsame. unfold dataset_events.
  rewrite (evaluated_same call d d' Hsame).
  destruct Hsame as (Hn & Hl & Hd & Hm). rewrite Hn, Hl.
  do 2 f_equal. apply flat_map_ext. intros b.
  unfold batch_events. by rewrite Hn, Hd.
Qed.

Lemma flat_map_same {A} (f : Dataset -> list A) ds ds' :
  (forall d d', same_configuration d d' -> f d = f d') ->
  Forall2 same_configuration ds ds' -> flat_map f ds = flat_map f ds'.
Proof.
  intros Hf. induction 1 as [|d d' ds ds' Hd _ IH]; [done|].
  cbn [flat_map]. by rewrite (Hf d d' Hd), IH.
Qed.

Lemma map_evaluated_same call ds ds' :
  Forall2 same_configuration ds ds' ->
  map (evaluated call) ds = map (evaluated call) ds'.
Proof.
  induction 1 as [|d d' ds ds' Hd _ IH]; [done|].
  cbn [map]. by rewrite (evaluated_same call d d' Hd), IH.
Qed.

(** The loop over the datasets, which lie one after the other in the
    heap. *)
Lemma evaluate_loop_run (evaluate : ModelEvaluator.evaluator) call
    mn model args kwargs v :
  (forall a d w, heap w !! a = Some d ->
     evaluate mn model a args kwargs w = pass_outcome call mn a d kwargs w) ->
  kwargs !! "print_predictions" = Some v ->
  forall ds h0 h2 w,
    heap w = h0 ++ ds ++ h2 ->
    for_each (seq (length h0) (length ds))
      (ModelEvaluator.evaluate_dataset evaluate mn model args kwargs) w =
    (log (flat_map (dataset_events call mn kwargs v) ds)
       (set_heap (h0 ++ map (evaluated call) ds ++ h2) w),
     Ok tt).
Proof.
  intros Hrun Hk. induction ds as [|d ds IH]; intros h0 h2 w Hw.
  - cbn [for_each seq length map flat_map app] in *. unfold ret.
    rewrite log_nil, <- Hw. by destruct w.
  - cbn [seq length for_each map flat_map].
    assert (Ha : heap w !! length h0 = Some d).
    { rewrite Hw. by apply list_lookup_middle. }
    rewrite (bind_ok _ _ _ _ _
               (evaluate_dataset_outcome evaluate call mn model args kwargs
                  (length h0) d v w Ha Hk (Hrun _ d w Ha))).
    fold (dataset_events call mn kwargs v d).
    assert (Hw1 : heap (log (dataset_events call mn kwargs v d)
                          (store (length h0) (evaluated call d) w)) =
                  (h0 ++ [evaluated call d]) ++ ds ++ h2).
    { cbn [heap log store set_heap]. rewrite Hw.
      rewrite insert_app_r_alt by lia. rewrite Nat.sub_diag.
      by rewrite <- app_assoc. }
    pose proof (IH (h0 ++ [evaluated call d]) h2 _ Hw1) as Hrest.
    rewrite length_app, Nat.add_1_r in Hrest.
    rewrite Hrest. unfold store, log, set_heap. cbn [heap cache trace].
    by rewrite <- !app_assoc.
Qed.

(** The events of a model, given the datasets as they are when its turn
    comes. *)
Definition model_events (models : list string) (args : list pyval)
    (kwargs : gmap string pyval) (v : pyval) (ds : list Dataset) (m : string)
  : list event :=
  LoadModel m ::
  (if String.eqb (snd (load_model m args)) "tensorflow"
   then flat_map
          (dataset_events (tensorflow_call (fst (load_model m args))) m kwargs v)
          (map wrapped ds)
   else flat_map
          (dataset_events (pytorch_call (fst (load_model m args))) m kwargs v)
          ds) ++
  (if (MAX_NUM_MODELS_IN_CACHE <=? length models)%nat
   then [RemoveModelFromCache (snd (load_model m args)) m] else []).

(** The datasets after the turn of a model: a tensorflow model leaves
    them as they are. *)
Definition after_model (args : list pyval) (ds : list Dataset) (m : string)
  : list Dataset :=
  if String.eqb (snd (load_model m args)) "tensorflow" then ds
  else map (evaluated (pytorch_call (fst (load_model m args)))) ds.

Lemma seq_objects (h0 ds h2 : list Dataset) :
  Forall2 (fun a d => (h0 ++ ds ++ h2) !! a = Some d)
    (seq (length h0) (length ds)) ds.
Proof.
  revert h0. induction ds as [|d ds IH]; intros h0; [constructor|].
  cbn [seq length]. constructor.
  - by apply list_lookup_middle.
  - specialize (IH (h0 ++ [d])).
    rewrite length_app, Nat.add_1_r in IH.
    eapply Forall2_impl; [exact IH|]. intros a d'. cbn beta.
    by rewrite <- app_assoc.
Qed.

Lemma evaluate_model_outcome models args kwargs v m h0 ds h2 w :
  kwargs !! "print_predictions" = Some v ->
  known_framework args m ->
  heap w = h0 ++ ds ++ h2 ->
  exists w' h2',
    ModelEvaluator.evaluate_model models (seq (length h0) (length ds))
      args kwargs m w = (w', Ok tt) /\
    heap w' = h0 ++ after_model args ds m ++ h2' /\
    trace w' = trace w ++ model_events models args kwargs v ds m.
Proof.
  intros Hk Hfw Hw.
  unfold ModelEvaluator.evaluate_model, known_framework, model_events,
    after_model in *.
  rewrite (bind_ok _ _ _ _ _ (emit_log _ _)).
  destruct (load_model m args) as [model framework]. cbn [fst snd] in *.
  set (w0 := log [LoadModel m] w).
  assert (Hw0 : heap w0 = h0 ++ ds ++ h2) by exact Hw.
  assert (Ht0 : trace w0 = trace w ++ [LoadModel m]) by done.
  clearbody w0.
  destruct Hfw as [-> | ->].
  - change (ModelEvaluator._get_evaluator "pytorch")
      with (Ok (A := ModelEvaluator.evaluator) ModelEvaluator._pytorch_evaluator).
    rewrite (bind_ok _ _ _ w0 _ eq_refl).
    change (String.eqb "pytorch" "tensorflow") with false. cbn iota.
    rewrite (bind_ok _ _ _ w0 _ eq_refl).
    rewrite (bind_ok _ _ _ _ _
               (evaluate_loop_run ModelEvaluator._pytorch_evaluator
                  (pytorch_call model) m model args kwargs v
                  (fun a d w1 Hd =>
                     pytorch_evaluator_run m model a args kwargs d w1 Hd)
                  Hk ds h0 h2 w0 Hw0)).
    match goal with |- context [when ?b _ ?w1] =>
      destruct (eviction_step_outcome b "pytorch" m w1)
        as (w2 & Hevict & Hheap & Htrace)
    end.
    exists w2, h2. split; [exact Hevict|]. split; [by rewrite Hheap|].
    rewrite Htrace. cbn [trace log set_heap]. rewrite Ht0.
    by rewrite <- !app_assoc.
  - change (ModelEvaluator._get_evaluator "tensorflow")
      with (Ok (A := ModelEvaluator.evaluator)
              ModelEvaluator._tensorflow_evaluator).
    rewrite (bind_ok _ _ _ w0 _ eq_refl).
    change (String.eqb "tensorflow" "tensorflow") with true. cbn iota.
    assert (Hds : Forall2 (fun a d => heap w0 !! a = Some d)
                    (seq (length h0) (length ds)) ds).
    { rewrite Hw0. apply seq_objects. }
    rewrite (bind_ok _ _ _ _ _ (to_tensorflow_run _ _ _ (NoDup_seq _ _) Hds)).
    rewrite length_seq, <- (length_map wrapped ds).
    assert (Hw1 : heap (set_heap (heap w0 ++ map wrapped ds) w0) =
                  heap w0 ++ map wrapped ds ++ []) by (by rewrite app_nil_r).
    rewrite (bind_ok _ _ _ _ _
               (evaluate_loop_run ModelEvaluator._tensorflow_evaluator
                  (tensorflow_call model) m model args kwargs v
                  (fun a d w1 Hd =>
                     tensorflow_evaluator_run m model a args kwargs d w1 Hd)
                  Hk (map wrapped ds) (heap w0) [] _ Hw1)).
    match goal with |- context [when ?b _ ?w1] =>
      destruct (eviction_step_outcome b "tensorflow" m w1)
        as (w2 & Hevict & Hheap & Htrace)
    end.
    exists w2,
      (h2 ++ map (evaluated (tensorflow_call model)) (map wrapped ds)).
    split; [exact Hevict|]. split.
    + rewrite Hheap. cbn [heap log set_heap]. rewrite Hw0, app_nil_r.
      by rewrite <- !app_assoc.
    + rewrite Htrace. cbn [trace log set_heap]. rewrite Ht0.
      by rewrite <- !app_assoc.
Qed.

Lemma model_events_same models args kwargs v ds ds' m :
  Forall2 same_configuration ds ds' ->
  model_events models args kwargs v ds m =
  model_events models args kwargs v ds' m.
Proof.
  intros Hsame. unfold model_events. do 2 f_equal.
  destruct (String.eqb (snd (load_model m args)) "tensorflow").
  - apply flat_map_same; [intros; by apply dataset_events_same|].
    apply Forall2_fmap. eapply Forall2_impl; [exact Hsame|].
    intros d d'. apply same_configuration_wrapped.
  - apply flat_map_same; [intros; by apply dataset_events_same|done].
Qed.

Lemma after_model_same args ds ds' m :
  Forall2 same_configuration ds ds' ->
  Forall2 same_configuration (after_model args ds m) ds'.
Proof.
  intros Hsame. unfold after_model.
  destruct (String.eqb (snd (load_model m args)) "tensorflow"); [done|].
  apply Forall2_fmap_l. eapply Forall2_impl; [exact Hsame|].
  intros d d' Hd. eapply same_configuration_trans; [|exact Hd].
  apply same_configuration_evaluated.
Qed.

Lemma evaluate_model_loop_outcome models args kwargs v h0 ds0 l :
  kwargs !! "print_predictions" = Some v ->
  Forall (known_framework args) l ->
  forall ds h2 w,
    heap w = h0 ++ ds ++ h2 ->
    Forall2 same_configuration ds ds0 ->
    exists w' h2',
      for_each l
        (ModelEvaluator.evaluate_model models (seq (length h0) (length ds0))
           args kwargs) w = (w', Ok tt) /\
      heap w' = h0 ++ foldl (after_model args) ds l ++ h2' /\
      trace w' = trace w ++ flat_map (model_events models args kwargs v ds0) l.
Proof.
  intros Hk Hl. induction Hl as [|m l Hm _ IH]; intros ds h2 w Hw Hsame.
  - exists w, h2. cbn [for_each foldl flat_map]. by rewrite app_nil_r.
  - pose proof (Forall2_length _ _ _ Hsame) as Hlen.
    destruct (evaluate_model_outcome models args kwargs v m h0 ds h2 w
                Hk Hm Hw) as (w1 & h21 & Hstep & Hheap1 & Htrace1).
    rewrite Hlen in Hstep.
    destruct (IH (after_model args ds m) h21 w1 Hheap1
                (after_model_same args ds ds0 m Hsame))
      as (w2 & h22 & Hrest & Hheap2 & Htrace2).
    exists w2, h22. split; [|split].
    + cbn [for_each]. by rewrite (bind_ok _ _ _ _ _ Hstep).
    + exact Hheap2.
    + rewrite Htrace2, Htrace1. cbn [flat_map].
      rewrite (model_events_same models args kwargs v ds ds0 m Hsame).
      by rewrite <- app_assoc.
Qed.

Lemma Forall2_same_refl ds : Forall2 same_configuration ds ds.
Proof. induction ds; constructor; [apply same_configuration_refl|done]. Qed.

(** X15.  The record of an evaluation that is given the option and whose
    models all come from a known framework: the datasets are loaded, in
    the order of their names; then comes one segment per model, in the
    order of the list.  The segment of a model is a function of the
    model and of the datasets as they were loaded: what the models
    before it did to the datasets has no influence on the rows written
    for it.  A list of the same length gives the same segment for each
    of its models. *)
Theorem evaluation_record_is_per_model models dataset_names args kwargs v w :
  kwargs !! "print_predictions" = Some v ->
  Forall (known_framework args) models ->
  let run := ModelEvaluator.__call__ models dataset_names args kwargs w in
  let ds := map (fun n => load_dataset n args kwargs) dataset_names in
  trace (fst run) =
    trace w ++ map LoadDataset dataset_names ++
    flat_map (model_events models args kwargs v ds) models /\
  forall models' m,
    length models' = length models ->
    model_events models' args kwargs v ds m =
    model_events models args kwargs v ds m.
Proof.
  intros Hk Hmodels run ds. split.
  - subst run. unfold ModelEvaluator.__call__.
    rewrite (bind_ok _ _ _ _ _ (get_datasets_run dataset_names args kwargs w)).
    fold ds. rewrite <- (length_map (fun n => load_dataset n args kwargs)).
    fold ds.
    match goal with |- context [for_each models _ ?w0] => set (w1 := w0) end.
    destruct (evaluate_model_loop_outcome models args kwargs v (heap w) ds models
                Hk Hmodels ds [] w1) as (w2 & h2 & Hloop & _ & Htrace).
    { subst w1. cbn [heap]. by rewrite app_nil_r. }
    { apply Forall2_same_refl. }
    rewrite Hloop. cbn [fst]. rewrite Htrace. subst w1. cbn [trace].
    by rewrite <- app_assoc.
  - intros models' m Hlen. unfold model_events. by rewrite Hlen.
Qed.

Lemma after_tensorflow_models args l ds :
  Forall (fun m => snd (load_model m args) = "tensorflow") l ->
  foldl (after_model args) ds l = ds.
Proof.
  induction 1 as [|m l Hm _ IH]; [done|].
  cbn [foldl]. unfold after_model at 2. by rewrite Hm.
Qed.

Lemma after_models_same args l ds :
  Forall2 same_configuration (foldl (after_model args) ds l) ds.
Proof.
  revert ds. induction l as [|m l IH]; intros ds; [apply Forall2_same_refl|].
  cbn [foldl].
  assert (Hstep : Forall2 same_configuration (after_model args ds m) ds)
    by apply after_model_same, Forall2_same_refl.
  clear -IH Hstep. specialize (IH (after_model args ds m)).
  revert IH Hstep. generalize (foldl (after_model args) (after_model args ds m) l).
  generalize (after_model args ds m). intros l1 l2 H12. revert ds.
  induction H12 as [|x y l2 l1 Hxy _ IH]; intros ds Hds.
  - done.
  - apply Forall2_cons_inv_l in Hds as (d & ds' & Hd & Hds' & ->).
    constructor; [by eapply same_configuration_trans|by apply IH].
Qed.

(** X16.  What the datasets hold after such an evaluation.  The run
    creates the datasets behind the objects that were there, and copies
    behind the datasets.  A tensorflow model never touches the datasets
    themselves: when every model comes from tensorflow they are still as
    they were loaded, without a single update.  Otherwise they hold the
    results of the last pytorch model of the list, and of that model
    only. *)
Theorem evaluation_leaves_last_pytorch_results
    models dataset_names args kwargs w :
  is_Some (kwargs !! "print_predictions") ->
  Forall (known_framework args) models ->
  let run := ModelEvaluator.__call__ models dataset_names args kwargs w in
  let ds := map (fun n => load_dataset n args kwargs) dataset_names in
  exists results copies,
    heap (fst run) = heap w ++ results ++ copies /\
    length results = length dataset_names /\
    (Forall (fun m => snd (load_model m args) = "tensorflow") models ->
     results = ds) /\
    (forall pre m post,
       models = pre ++ m :: post ->
       from_pytorch args m ->
       Forall (fun m => snd (load_model m args) = "tensorflow") post ->
       results = map (evaluated (pytorch_call (fst (load_model m args)))) ds).
Proof.
  intros [v Hk] Hmodels run ds. subst run. unfold ModelEvaluator.__call__.
  rewrite (bind_ok _ _ _ _ _ (get_datasets_run dataset_names args kwargs w)).
  fold ds. rewrite <- (length_map (fun n => load_dataset n args kwargs)).
  fold ds.
  match goal with |- context [for_each models _ ?w0] => set (w1 := w0) end.
  destruct (evaluate_model_loop_outcome models args kwargs v (heap w) ds models
              Hk Hmodels ds [] w1) as (w2 & h2 & Hloop & Hheap & _).
  { subst w1. cbn [heap]. by rewrite app_nil_r. }
  { apply Forall2_same_refl. }
  rewrite Hloop. cbn [fst].
  exists (foldl (after_model args) ds models), h2.
  split; [exact Hheap|]. split; [|split].
  - exact (Forall2_length _ _ _ (after_models_same args models ds)).
  - apply after_tensorflow_models.
  - intros pre m post -> Hm Hpost.
    rewrite foldl_app. cbn [foldl].
    rewrite (after_tensorflow_models _ _ _ Hpost).
    unfold after_model at 1. unfold from_pytorch in Hm. rewrite Hm.
    change (String.eqb "pytorch" "tensorflow") with false. cbn iota.
    apply map_evaluated_same, after_models_same.
Qed.

End Independence.

(** * Concrete runs *)










Import Run.

(** A run of three pytorch models on one dataset of two batches. *)
Example three_models_trace :
  events_of
    (ModelEvaluator.__call__ ["a"; "b"; "c"] ["d"] [] (with_predictions false))
    empty_world =
  [ LoadDataset "d";
    LoadModel "a"; ResultPrinter "a" "d";
    BatchYielded "a" "d"; BatchYielded "a" "d";
    RemoveModelFromCache "pytorch" "a";
    LoadModel "b"; ResultPrinter "b" "d";
    BatchYielded "b" "d"; BatchYielded "b" "d";
    RemoveModelFromCache "pytorch" "b";
    LoadModel "c"; ResultPrinter "c" "d";
    BatchYielded "c" "d"; BatchYielded "c" "d";
    RemoveModelFromCache "pytorch" "c" ].
Proof. vm_compute. reflexivity. Qed.

(** C1, as stated, fails: in a run of three models the first eviction
    attempt is made when one model has been evaluated. *)
Lemma eviction_ignores_running_count :
  ~ evicts_only_from_threshold
      (events_of
         (ModelEvaluator.__call__ ["a"; "b"; "c"] ["d"] [] (with_predictions false))
         empty_world).
Proof.
  assert (Ht : models_so_far_at_evictions 0
    (events_of
       (ModelEvaluator.__call__ ["a"; "b"; "c"] ["d"] [] (with_predictions false))
       empty_world) = [1; 2; 3]) by (vm_compute; reflexivity).
  unfold evicts_only_from_threshold. rewrite Ht. intros Hall.
  apply Forall_cons in Hall as [Hle _].
  unfold MAX_NUM_MODELS_IN_CACHE in Hle. lia.
Qed.

(** Two models: no eviction.  Three models: each one evicted. *)
Lemma eviction_follows_run_size_witness :
  no_eviction
    (events_of
       (ModelEvaluator.__call__ ["a"; "tf-b"] ["d"] [] (with_predictions true))
       empty_world)
  /\
  evicts_finished_models [] ["a"; "b"; "c"]
    (snd (MetricExtractor.__call__ ["a"; "b"; "c"] ["d"] []
            (with_predictions true) empty_world))
    (events_of
       (MetricExtractor.__call__ ["a"; "b"; "c"] ["d"] [] (with_predictions true))
       empty_world).
Proof.
  split.
  - refine (proj1 (proj1 (eviction_follows_run_size ["a"; "tf-b"] ["d"] []
                            (with_predictions true) empty_world) _)).
    unfold MAX_NUM_MODELS_IN_CACHE. simpl. lia.
  - refine (proj2 (proj2 (eviction_follows_run_size ["a"; "b"; "c"] ["d"] []
                            (with_predictions true) empty_world) _)).
    unfold MAX_NUM_MODELS_IN_CACHE. simpl. lia.
Defined.

(** The framework "caffe" is not known: the run stops at that model. *)
Lemma unknown_backend_is_a_name_error_witness :
  ModelEvaluator._get_evaluator "caffe" =
    Raise (NameError "Unsupported evaluator") /\
  snd (ModelEvaluator.__call__ ["a"; "caffe"; "b"] ["d"] []
         (with_predictions false) empty_world) =
    Raise (NameError "Unsupported evaluator") /\
  snd (MetricExtractor.__call__ ["a"; "caffe"; "b"] ["d"] []
         (with_predictions false) empty_world) =
    Raise (NameError "Unsupported extractor").
Proof.
  destruct (proj1 unknown_backend_is_a_name_error "caffe")
    as (Hev & _ & Hrun); [done|done|].
  split; [exact Hev|]. split.
  - eapply (proj1 (Hrun ["a"] "caffe" ["b"] ["d"] [] (with_predictions false)
                     empty_world _ _ eq_refl)).
    eexists. split; reflexivity.
  - eapply (proj2 (Hrun ["a"] "caffe" ["b"] ["d"] [] (with_predictions false)
                     empty_world _ _ eq_refl)).
    eexists. split; reflexivity.
Defined.

(** The accumulator of [used_dataset] holds an update of an earlier
    evaluation; both evaluators start from zero all the same. *)
Lemma metrics_reset_before_pass_witness :
  heap used_world !! 0 = Some used_dataset /\
  resets_then_accumulates ModelEvaluator._pytorch_evaluator
    (pytorch_call (a_model 1)) "m" (a_model 1) 0 [] (with_predictions true)
    used_dataset used_world /\
  resets_then_accumulates ModelEvaluator._tensorflow_evaluator
    (tensorflow_call (a_model 1)) "m" (a_model 1) 0 [] (with_predictions true)
    used_dataset used_world.
Proof.
  split; [reflexivity|].
  exact (metrics_reset_before_pass "m" (a_model 1) 0 [] (with_predictions true)
           used_dataset used_world eq_refl).
Defined.

Lemma metric_updates_follow_batches_witness :
  heap used_world !! 0 = Some used_dataset /\
  one_update_per_batch ModelEvaluator._pytorch_evaluator
    (pytorch_call (a_model 1)) "m" (a_model 1) 0 [] (with_predictions false)
    used_dataset used_world /\
  one_update_per_batch ModelEvaluator._tensorflow_evaluator
    (tensorflow_call (a_model 1)) "m" (a_model 1) 0 [] (with_predictions false)
    used_dataset used_world.
Proof.
  split; [reflexivity|].
  exact (metric_updates_follow_batches "m" (a_model 1) 0 []
           (with_predictions false) used_dataset used_world eq_refl).
Defined.

(** The pass over the two batches of "d" with a model of three layers:
    six updates per accumulator. *)
Example pytorch_extractor_run :
  (fun d => map m_updates (metrics d)) <$>
    heap (fst (MetricExtractor._pytorch_extractor "m" (a_model 1) 0 []
                 (with_predictions false) used_world)) !! 0 =
  Some (replicate 3
          [Update5 1 2 1 "a.png" 0; Update5 2 3 1 "a.png" 1;
           Update5 4 5 1 "a.png" 2; Update5 2 3 0 "b.png" 0;
           Update5 3 4 0 "b.png" 1; Update5 5 6 0 "b.png" 2]).
Proof. vm_compute. reflexivity. Qed.

Lemma extraction_updates_per_layer_witness :
  heap used_world !! 0 = Some used_dataset /\
  snd (MetricExtractor._pytorch_extractor "m" (a_model 1) 0 []
         (with_predictions false) used_world) = Ok tt /\
  heap (fst (MetricExtractor._pytorch_extractor "m" (a_model 1) 0 []
               (with_predictions false) used_world)) !! 0 =
    Some (extraction_dataset
            (flat_map (batch_layer_updates (a_model 1))
               (iter_loader (loader used_dataset))) used_dataset).
Proof.
  split; [reflexivity|].
  destruct (extraction_updates_per_layer "m" (a_model 1) 0 []
              (with_predictions false) used_dataset used_world eq_refl)
    as (Hok & Hheap & _).
  exact (conj Hok Hheap).
Defined.

(** The second model is a tensorflow model: extraction stops there. *)
Lemma tensorflow_is_rejected_in_extraction_witness :
  snd (load_model "tf-b" []) = "tensorflow" /\
  snd (MetricExtractor.__call__ ["a"; "tf-b"; "c"] ["d"] []
         (with_predictions false) empty_world) =
    Raise (ValueError "Tensorflow is not supported").
Proof.
  assert (Hfw : snd (load_model "tf-b" []) = "tensorflow") by reflexivity.
  split; [exact Hfw|].
  destruct (tensorflow_is_rejected_in_extraction ["a"] "tf-b" ["c"] ["d"] []
              (with_predictions false) empty_world Hfw) as [_ Hrun].
  refine (f_equal snd (Hrun _ _ _)). eexists. split; reflexivity.
Defined.

(** No cache directory: the eviction returns and changes nothing. *)
Lemma cache_eviction_never_raises_witness :
  cache empty_world = NoDir /\
  snd (ModelEvaluator._remove_model_from_cache "pytorch" "resnet50" empty_world)
    = Ok tt /\
  fst (ModelEvaluator._remove_model_from_cache "pytorch" "resnet50" empty_world)
    = fst (emit (RemoveModelFromCache "pytorch" "resnet50") empty_world).
Proof.
  split; [reflexivity|].
  destruct (cache_eviction_never_raises "pytorch" "resnet50" empty_world)
    as (Hok & _ & Hnoop).
  split; [exact Hok|]. apply Hnoop. left. reflexivity.
Defined.

(** A failing removal is swallowed too: nothing can be removed from this
    directory, and the eviction returns. *)
Example eviction_of_protected_file :
  ModelEvaluator._remove_model_from_cache "pytorch" "resnet50"
    {| heap := []; cache := Dir {[ "resnet50-0676ba61.pth" := false ]};
       trace := [] |} =
  ({| heap := []; cache := Dir {[ "resnet50-0676ba61.pth" := false ]};
      trace := [RemoveModelFromCache "pytorch" "resnet50"] |}, Ok tt).
Proof. vm_compute. reflexivity. Qed.

Example format_name_example :
  ModelEvaluator._format_name "ResNet-50_V2" = "resnet_50_v2".
Proof. reflexivity. Qed.

(** Evicting "ResNet50" leaves the checkpoint of vgg16. *)
Example eviction_of_resnet50 :
  cache (fst (ModelEvaluator._remove_model_from_cache "pytorch" "ResNet50"
                cached_world)) =
  Dir {[ "vgg16-397923af.pth" := true ]}.
Proof. vm_compute. reflexivity. Qed.

Lemma checkpoints_listing :
  map fst (map_to_list checkpoints) =
  ["vgg16-397923af.pth"; "resnet50-0676ba61.pth"; "ResNet50_v2.pth"].
Proof. vm_compute. reflexivity. Defined.

Lemma eviction_deletes_matching_files_witness :
  cache cached_world = Dir checkpoints /\
  (forall dm, is_Some (checkpoints !! dm) -> PyStr.is_basename dm = true) /\
  exists entries',
    cache (fst (ModelEvaluator._remove_model_from_cache "pytorch" "ResNet50"
                  cached_world)) = Dir entries' /\
    entries' !! "resnet50-0676ba61.pth" = None /\
    entries' !! "ResNet50_v2.pth" = None /\
    entries' !! "vgg16-397923af.pth" = Some true.
Proof.
  assert (Hnames : forall dm, is_Some (checkpoints !! dm) ->
                              PyStr.is_basename dm = true).
  { apply listed_entries. rewrite checkpoints_listing.
    repeat constructor. }
  split; [reflexivity|]. split; [exact Hnames|].
  destruct (eviction_deletes_matching_files "ResNet50" checkpoints cached_world
              eq_refl Hnames) as [(entries' & Hcache & _ & Hall) _].
  exists entries'. split; [exact Hcache|].
  assert (Hcan : forall dm, is_Some (checkpoints !! dm) ->
                   matches "ResNet50" dm = true -> checkpoints !! dm = Some true).
  { apply (listed_entries checkpoints
             (fun dm => matches "ResNet50" dm = true ->
                        checkpoints !! dm = Some true)).
    rewrite checkpoints_listing.
    repeat (constructor; [intros _; reflexivity|]). constructor. }
  rewrite !(Hall Hcan). repeat split; reflexivity.
Defined.

(** C8, as stated, fails: the first checkpoint of resnet50 is
    write-protected and listed before the second, so the eviction of
    "ResNet50" ends there; the second checkpoint matches, could be
    removed, and is still in the directory. *)
Lemma eviction_leaves_a_matching_file :
  cache protected_world = Dir protected_checkpoints /\
  matches "ResNet50" "ResNet50_v2.pth" = true /\
  protected_checkpoints !! "ResNet50_v2.pth" = Some true /\
  cache (fst (ModelEvaluator._remove_model_from_cache "pytorch" "ResNet50"
                protected_world)) = Dir protected_checkpoints /\
  ~ deletes_exactly_matching "ResNet50" protected_checkpoints protected_world.
Proof.
  assert (Hrun : cache (fst (ModelEvaluator._remove_model_from_cache "pytorch"
                               "ResNet50" protected_world)) =
                 Dir protected_checkpoints) by (vm_compute; reflexivity).
  assert (Hm : matches "ResNet50" "ResNet50_v2.pth" = true) by reflexivity.
  assert (Hthere : protected_checkpoints !! "ResNet50_v2.pth" = Some true)
    by reflexivity.
  split; [reflexivity|]. split; [exact Hm|]. split; [exact Hthere|].
  split; [exact Hrun|].
  intros (entries' & Hcache & Hexact).
  rewrite Hrun in Hcache. injection Hcache as <-.
  specialize (Hexact "ResNet50_v2.pth"). rewrite Hm, Hthere in Hexact.
  discriminate Hexact.
Qed.

(** A tensorflow model evaluated on the shared dataset at address 0: the
    dataset is as before, the copy at address 1 has the wrapped loader. *)
Lemma tensorflow_evaluation_works_on_copies_witness :
  snd (load_model "tf-b" []) = "tensorflow" /\
  heap (fst (ModelEvaluator.evaluate_model ["tf-b"] [0] []
               (with_predictions false) "tf-b" used_world)) !! 0 =
    Some used_dataset /\
  wrapped_at (fst (ModelEvaluator._to_tensorflow [0] used_world)) 1.
Proof.
  assert (Hfw : snd (load_model "tf-b" []) = "tensorflow") by reflexivity.
  destruct (tensorflow_evaluation_works_on_copies ["tf-b"] [0] []
              (with_predictions false) "tf-b" used_world Hfw)
    as (_ & Hcopies & Heval).
  split; [exact Hfw|]. split; [exact (Heval 0 used_dataset eq_refl)|].
  assert (Hok : snd (ModelEvaluator._to_tensorflow [0] used_world) = Ok [1])
    by reflexivity.
  destruct (Hcopies [1] Hok) as (_ & _ & Hwrapped).
  exact (Forall_inv Hwrapped).
Defined.

(** A tensorflow model, then a pytorch model: the second one iterates
    the plain loader of the shared dataset. *)
Example tensorflow_then_pytorch :
  loader <$> heap (fst (ModelEvaluator.__call__ ["tf-b"; "c"] ["d"] []
                          (with_predictions false) empty_world)) =
  [ DataLoader [(1, TorchTarget 1, "a.png"); (2, PlainTarget 0, "b.png")];
    ToTensorflow
      (DataLoader [(1, TorchTarget 1, "a.png"); (2, PlainTarget 0, "b.png")]) ].
Proof. vm_compute. reflexivity. Qed.

Lemma print_predictions_is_required_witness :
  (∅ : gmap string pyval) !! "print_predictions" = None /\
  heap used_world !! 0 = Some used_dataset /\
  snd (ModelEvaluator._pytorch_evaluator "m" (a_model 1) 0 [] ∅ used_world) =
    Raise (KeyError "print_predictions") /\
  snd (ModelEvaluator.evaluate_dataset ModelEvaluator._tensorflow_evaluator
         "m" (a_model 1) [] ∅ 0 used_world) =
    Raise (KeyError "print_predictions").
Proof.
  assert (Hk : (∅ : gmap string pyval) !! "print_predictions" = None)
    by reflexivity.
  destruct (print_predictions_is_required "m" (a_model 1) 0 [] ∅
              used_dataset used_world Hk eq_refl)
    as (Hevaluators & _ & Htf).
  split; [exact Hk|]. split; [reflexivity|].
  split; [|exact Htf]. apply Hevaluators. discriminate.
Defined.

(** With a loader that has no batch the evaluator returns, and the check
    of the orchestrator raises. *)
Example missing_option_and_no_batch :
  let w := {| heap := [set_loader (DataLoader []) used_dataset];
              cache := NoDir; trace := [] |} in
  snd (ModelEvaluator._pytorch_evaluator "m" (a_model 1) 0 [] ∅ w) = Ok tt /\
  snd (ModelEvaluator.evaluate_dataset ModelEvaluator._pytorch_evaluator
         "m" (a_model 1) [] ∅ 0 w) = Raise (KeyError "print_predictions").
Proof. split; vm_compute; reflexivity. Qed.

(** A whole run without the option stops at the first batch. *)
Example missing_option_run :
  ModelEvaluator.__call__ ["a"; "b"] ["d"] [] ∅ empty_world =
  ({| heap := [ {| name := "d";
                   loader := DataLoader [(1, TorchTarget 1, "a.png");
                                         (2, PlainTarget 0, "b.png")];
                   decision_mapping := {| return_raw_probs := false |};
                   metrics :=
                     [ {| m_class := OtherMetric "accuracy";
                          m_updates :=
                            [Update3 (Decisions 2) (PlainTarget 1) "a.png"] |} ]
                |} ];
      cache := NoDir;
      trace := [LoadDataset "d"; LoadModel "a"; ResultPrinter "a" "d";
                BatchYielded "a" "d"] |},
   Raise (KeyError "print_predictions")).
Proof. vm_compute. reflexivity. Qed.

(** ** Runs of the further properties *)

Lemma checkpoints_are_basenames :
  forall dm, is_Some (checkpoints !! dm) -> PyStr.is_basename dm = true.
Proof.
  apply listed_entries. rewrite checkpoints_listing. repeat constructor.
Defined.

Lemma checkpoints_are_removable :
  forall dm, is_Some (checkpoints !! dm) -> checkpoints !! dm = Some true.
Proof.
  apply (listed_entries checkpoints (fun dm => checkpoints !! dm = Some true)).
  rewrite checkpoints_listing. repeat constructor.
Defined.

(** Evicting "ResNet50" takes the checkpoint of the model "resnet50-v2"
    with it. *)
Lemma eviction_by_prefix_takes_longer_names_witness :
  PyStr.startswith (ModelEvaluator._format_name "resnet50-v2")
    (ModelEvaluator._format_name "ResNet50") = true /\
  matches "resnet50-v2" "ResNet50_v2.pth" = true /\
  exists entries',
    cache (fst (ModelEvaluator._remove_model_from_cache "pytorch" "ResNet50"
                  cached_world)) = Dir entries' /\
    entries' !! "ResNet50_v2.pth" = None.
Proof.
  assert (Hpre : PyStr.startswith (ModelEvaluator._format_name "resnet50-v2")
                   (ModelEvaluator._format_name "ResNet50") = true)
    by reflexivity.
  assert (Hm : matches "resnet50-v2" "ResNet50_v2.pth" = true) by reflexivity.
  split; [exact Hpre|]. split; [exact Hm|].
  destruct (eviction_by_prefix_takes_longer_names "ResNet50" "resnet50-v2"
              checkpoints cached_world Hpre) as [_ Hrun].
  destruct (Hrun eq_refl checkpoints_are_basenames
              (fun dm Hdm _ => checkpoints_are_removable dm Hdm))
    as (entries' & Hcache & Hnone).
  exists entries'. split; [exact Hcache|]. exact (Hnone _ Hm).
Defined.

Lemma eviction_of_empty_name_clears_cache_witness :
  cache cached_world = Dir checkpoints /\
  cache (fst (ModelEvaluator._remove_model_from_cache "pytorch" "" cached_world))
    = Dir ∅.
Proof.
  split; [reflexivity|].
  exact (proj2 (eviction_of_empty_name_clears_cache checkpoints cached_world
                  eq_refl checkpoints_are_basenames checkpoints_are_removable)).
Defined.

Lemma eviction_is_idempotent_witness :
  cache cached_world = Dir checkpoints /\
  cache (fst (ModelEvaluator._remove_model_from_cache "pytorch" "ResNet50"
           (fst (ModelEvaluator._remove_model_from_cache "pytorch" "ResNet50"
                   cached_world)))) =
  cache (fst (ModelEvaluator._remove_model_from_cache "pytorch" "ResNet50"
                cached_world)).
Proof.
  split; [reflexivity|].
  exact (eviction_is_idempotent "ResNet50" checkpoints cached_world eq_refl
           checkpoints_are_basenames
           (fun dm Hdm _ => checkpoints_are_removable dm Hdm)).
Defined.

Lemma protected_checkpoints_listing :
  map fst (map_to_list protected_checkpoints) =
  ["vgg16-397923af.pth"] ++ "resnet50-0676ba61.pth" :: ["ResNet50_v2.pth"].
Proof. vm_compute. reflexivity. Defined.

(** The protected checkpoint of resnet50 is listed before the other one,
    which therefore stays, although it matches and could be removed. *)
Lemma eviction_stops_at_first_failure_witness :
  cache protected_world = Dir protected_checkpoints /\
  matches "ResNet50" "resnet50-0676ba61.pth" = true /\
  matches "ResNet50" "ResNet50_v2.pth" = true /\
  protected_checkpoints !! "resnet50-0676ba61.pth" = Some false /\
  protected_checkpoints !! "ResNet50_v2.pth" = Some true /\
  snd (ModelEvaluator._remove_model_from_cache "pytorch" "ResNet50"
         protected_world) = Ok tt /\
  exists entries',
    cache (fst (ModelEvaluator._remove_model_from_cache "pytorch" "ResNet50"
                  protected_world)) = Dir entries' /\
    entries' !! "ResNet50_v2.pth" = Some true.
Proof.
  assert (Hx : matches "ResNet50" "resnet50-0676ba61.pth" = true) by reflexivity.
  assert (Hlocked : protected_checkpoints !! "resnet50-0676ba61.pth" = Some false)
    by reflexivity.
  assert (Hfree : protected_checkpoints !! "ResNet50_v2.pth" = Some true)
    by reflexivity.
  assert (Hnames : forall dm, is_Some (protected_checkpoints !! dm) ->
                              PyStr.is_basename dm = true).
  { apply listed_entries. rewrite protected_checkpoints_listing.
    repeat constructor. }
  assert (Hcan : forall dm, dm ∈ ["vgg16-397923af.pth"] ->
                   matches "ResNet50" dm = true ->
                   protected_checkpoints !! dm = Some true).
  { intros dm Hdm _. apply list_elem_of_singleton in Hdm as ->. reflexivity. }
  split; [reflexivity|]. split; [exact Hx|]. split; [reflexivity|].
  split; [exact Hlocked|]. split; [exact Hfree|].
  destruct (eviction_stops_at_first_failure "ResNet50" protected_checkpoints
              ["vgg16-397923af.pth"] "resnet50-0676ba61.pth" ["ResNet50_v2.pth"]
              protected_world eq_refl Hnames protected_checkpoints_listing
              Hcan Hx Hlocked) as (Hok & entries' & Hcache & _ & Hkept).
  split; [exact Hok|]. exists entries'. split; [exact Hcache|].
  rewrite (Hkept "ResNet50_v2.pth"); [exact Hfree|].
  apply list_elem_of_further, list_elem_of_here.
Defined.

Lemma option_given b : with_predictions b !! "print_predictions" = Some (PyBool b).
Proof. reflexivity. Defined.

Lemma option_is_given b : is_Some (with_predictions b !! "print_predictions").
Proof. exists (PyBool b). reflexivity. Defined.

(** With the option true, one row of performance for the one metric of
    the dataset. *)
Lemma performance_rows_follow_the_pass_witness :
  heap used_world !! 0 = Some used_dataset /\
  with_predictions true !! "print_predictions" = Some (PyBool true) /\
  ModelEvaluator.evaluate_dataset ModelEvaluator._pytorch_evaluator
    "m" (a_model 1) [] (with_predictions true) 0 used_world =
  (log (ResultPrinter "m" (name used_dataset) ::
        flat_map (batch_events (pytorch_call (a_model 1)) "m" used_dataset
                    (with_predictions true))
          (iter_loader (loader used_dataset)) ++
        performance_rows "m" (evaluated (pytorch_call (a_model 1)) used_dataset)
          (PyBool true))
     (store 0 (evaluated (pytorch_call (a_model 1)) used_dataset) used_world),
   Ok tt) /\
  length (performance_rows "m"
            (evaluated (pytorch_call (a_model 1)) used_dataset) (PyBool true)) =
  length (metrics used_dataset).
Proof.
  assert (Ha : heap used_world !! 0 = Some used_dataset) by reflexivity.
  split; [exact Ha|]. split; [exact (option_given true)|].
  destruct (performance_rows_follow_the_pass "m" (a_model 1) []
              (with_predictions true) 0 used_dataset (PyBool true) used_world
              Ha (option_given true)) as (Hrun & _ & _ & Hrows).
  split; [exact Hrun|].
  exact (proj1 (Hrows eq_refl (pytorch_call (a_model 1)))).
Defined.

(** The copy of the dataset at address 0 is made at address 1. *)
Lemma to_tensorflow_wraps_fresh_copies_witness :
  NoDup [0] /\
  Forall2 (fun a d => heap used_world !! a = Some d) [0] [used_dataset] /\
  ModelEvaluator._to_tensorflow [0] used_world =
    ({| heap := heap used_world ++ map wrapped [used_dataset];
        cache := cache used_world; trace := trace used_world |},
     Ok (seq (length (heap used_world)) (length [0]))).
Proof.
  assert (Hnodup : NoDup [0]).
  { apply NoDup_cons. split; [|apply NoDup_nil; exact I].
    intros Hin. apply elem_of_nil in Hin. exact Hin. }
  assert (Hds : Forall2 (fun a d => heap used_world !! a = Some d)
                  [0] [used_dataset]).
  { constructor; [reflexivity|constructor]. }
  split; [exact Hnodup|]. split; [exact Hds|].
  exact (proj1 (to_tensorflow_wraps_fresh_copies [0] [used_dataset] used_world
                  Hnodup Hds)).
Defined.

Lemma two_known_models : Forall (known_framework []) ["a"; "tf-b"].
Proof.
  constructor; [left; reflexivity|].
  constructor; [right; reflexivity|constructor].
Defined.

(** A pytorch and a tensorflow model on two datasets: four objects. *)
Lemma evaluation_returns_witness :
  is_Some (with_predictions true !! "print_predictions") /\
  Forall (known_framework []) ["a"; "tf-b"] /\
  snd (ModelEvaluator.__call__ ["a"; "tf-b"] ["d"; "e"] []
         (with_predictions true) empty_world) = Ok tt /\
  length (heap (fst (ModelEvaluator.__call__ ["a"; "tf-b"] ["d"; "e"] []
                       (with_predictions true) empty_world))) =
    length (heap empty_world) +
    length ["d"; "e"] * (1 + tensorflow_models [] ["a"; "tf-b"]).
Proof.
  split; [exact (option_is_given true)|]. split; [exact two_known_models|].
  exact (evaluation_returns ["a"; "tf-b"] ["d"; "e"] [] (with_predictions true)
           empty_world (option_is_given true) two_known_models).
Defined.

(** The dataset "d" as loaded in place of the used one, which differs
    in what its metric holds, and other arguments: the same pass. *)
Lemma extraction_ignores_metrics_and_arguments_witness :
  heap used_world !! 0 = Some used_dataset /\
  name (a_dataset "d") = name used_dataset /\
  loader (a_dataset "d") = loader used_dataset /\
  decision_mapping (a_dataset "d") = decision_mapping used_dataset /\
  metrics (a_dataset "d") <> metrics used_dataset /\
  MetricExtractor._pytorch_extractor "m" (a_model 1) 0 [PyBool true] ∅
    (store 0 (a_dataset "d") used_world) =
  MetricExtractor._pytorch_extractor "m" (a_model 1) 0 []
    (with_predictions true) used_world.
Proof.
  assert (Ha : heap used_world !! 0 = Some used_dataset) by reflexivity.
  assert (Hn : name (a_dataset "d") = name used_dataset) by reflexivity.
  assert (Hl : loader (a_dataset "d") = loader used_dataset) by reflexivity.
  assert (Hd : decision_mapping (a_dataset "d") = decision_mapping used_dataset)
    by reflexivity.
  split; [exact Ha|]. split; [exact Hn|]. split; [exact Hl|].
  split; [exact Hd|]. split; [discriminate|].
  exact (extraction_ignores_metrics_and_arguments "m" (a_model 1) 0 []
           (with_predictions true) [PyBool true] ∅ used_dataset (a_dataset "d")
           used_world Ha Hn Hl Hd).
Defined.

Lemma two_pytorch_models : Forall (from_pytorch []) ["a"; "b"].
Proof.
  constructor; [reflexivity|]. constructor; [reflexivity|constructor].
Defined.

(** Two pytorch models: the dataset holds the results of the second. *)
Lemma extraction_returns_witness :
  is_Some (with_predictions true !! "print_predictions") /\
  Forall (from_pytorch []) ["a"; "b"] /\
  snd (MetricExtractor.__call__ ["a"; "b"] ["d"] [] (with_predictions true)
         empty_world) = Ok tt /\
  heap (fst (MetricExtractor.__call__ ["a"; "b"] ["d"] [] (with_predictions true)
               empty_world)) =
    heap empty_world ++
    map (fun n => extracted (fst (load_model "b" []))
                    (load_dataset n [] (with_predictions true))) ["d"].
Proof.
  split; [exact (option_is_given true)|]. split; [exact two_pytorch_models|].
  destruct (extraction_returns ["a"; "b"] ["d"] [] (with_predictions true)
              empty_world (option_is_given true) two_pytorch_models)
    as (Hok & _ & Hlast).
  split; [exact Hok|]. exact (Hlast ["a"] "b" eq_refl).
Defined.

(** No option: the two batches of "d" are processed, then the run
    fails. *)
Lemma extraction_without_option_fails_after_the_pass_witness :
  (∅ : gmap string pyval) !! "print_predictions" = None /\
  from_pytorch [] "a" /\
  snd (MetricExtractor.__call__ ["a"; "b"] ["d"; "e"] [] ∅ empty_world) =
    Raise (KeyError "print_predictions") /\
  trace (fst (MetricExtractor.__call__ ["a"; "b"] ["d"; "e"] [] ∅ empty_world)) =
    trace empty_world ++ map LoadDataset ["d"; "e"] ++
    LoadModel "a" ::
    map (fun _ => BatchYielded "a" (name (load_dataset "d" [] ∅)))
      (iter_loader (loader (load_dataset "d" [] ∅))).
Proof.
  assert (Hk : (∅ : gmap string pyval) !! "print_predictions" = None)
    by reflexivity.
  assert (Hfw : from_pytorch [] "a") by reflexivity.
  split; [exact Hk|]. split; [exact Hfw|].
  destruct (extraction_without_option_fails_after_the_pass "a" ["b"] "d" ["e"]
              [] ∅ empty_world Hk Hfw) as (Hraise & Htrace & _).
  exact (conj Hraise Htrace).
Defined.

Lemma evaluation_record_is_per_model_witness :
  with_predictions true !! "print_predictions" = Some (PyBool true) /\
  Forall (known_framework []) ["a"; "tf-b"] /\
  trace (fst (ModelEvaluator.__call__ ["a"; "tf-b"] ["d"] []
                (with_predictions true) empty_world)) =
    trace empty_world ++ map LoadDataset ["d"] ++
    flat_map
      (model_events ["a"; "tf-b"] [] (with_predictions true) (PyBool true)
         (map (fun n => load_dataset n [] (with_predictions true)) ["d"]))
      ["a"; "tf-b"].
Proof.
  split; [exact (option_given true)|]. split; [exact two_known_models|].
  exact (proj1 (evaluation_record_is_per_model ["a"; "tf-b"] ["d"] []
                  (with_predictions true) (PyBool true) empty_world
                  (option_given true) two_known_models)).
Defined.

(** A pytorch model followed by a tensorflow model: the dataset holds
    the results of the pytorch model. *)
Lemma evaluation_leaves_last_pytorch_results_witness :
  is_Some (with_predictions true !! "print_predictions") /\
  Forall (known_framework []) ["a"; "tf-b"] /\
  exists results copies,
    heap (fst (ModelEvaluator.__call__ ["a"; "tf-b"] ["d"] []
                 (with_predictions true) empty_world)) =
      heap empty_world ++ results ++ copies /\
    results =
      map (evaluated (pytorch_call (fst (load_model "a" []))))
        (map (fun n => load_dataset n [] (with_predictions true)) ["d"]).
Proof.
  split; [exact (option_is_given true)|]. split; [exact two_known_models|].
  destruct (evaluation_leaves_last_pytorch_results ["a"; "tf-b"] ["d"] []
              (with_predictions true) empty_world (option_is_given true)
              two_known_models) as (results & copies & Hheap & _ & _ & Hlast).
  exists results, copies. split; [exact Hheap|].
  refine (Hlast [] "a" ["tf-b"] eq_refl _ _).
  - reflexivity.
  - constructor; [reflexivity|constructor].
Defined.

Lemma extraction_record_is_per_model_witness :
  is_Some (with_predictions true !! "print_predictions") /\
  Forall (from_pytorch []) ["a"; "b"] /\
  trace (fst (MetricExtractor.__call__ ["a"; "b"] ["d"] []
                (with_predictions true) empty_world)) =
    trace empty_world ++ map LoadDataset ["d"] ++
    flat_map
      (extraction_model_events ["a"; "b"] [] (with_predictions true)
         (map (fun n => load_dataset n [] (with_predictions true)) ["d"]))
      ["a"; "b"].
Proof.
  split; [exact (option_is_given true)|]. split; [exact two_pytorch_models|].
  exact (proj1 (extraction_record_is_per_model ["a"; "b"] ["d"] []
                  (with_predictions true) empty_world (option_is_given true)
                  two_pytorch_models)).
Defined.

(** The second name cannot be loaded: the third is never asked for. *)
Lemma get_datasets_stops_at_loader_failure_witness :
  Forall2 (fun n d => a_registry n = Ok d) ["d"] [a_dataset "d"] /\
  a_registry "missing" = Raise (NameError "missing") /\
  get_datasets_from a_registry (["d"] ++ "missing" :: ["e"]) empty_world =
    ({| heap := heap empty_world ++ [a_dataset "d"];
        cache := cache empty_world;
        trace := trace empty_world ++ map LoadDataset (["d"] ++ ["missing"]) |},
     Raise (NameError "missing")).
Proof.
  assert (Hpre : Forall2 (fun n d => a_registry n = Ok d) ["d"] [a_dataset "d"]).
  { constructor; [reflexivity|constructor]. }
  assert (Hn : a_registry "missing" = Raise (NameError "missing"))
    by reflexivity.
  split; [exact Hpre|]. split; [exact Hn|].
  exact (proj1 (get_datasets_stops_at_loader_failure a_registry ["d"] "missing"
                  ["e"] [a_dataset "d"] (NameError "missing") empty_world
                  Hpre Hn)).
Defined.
